(** * sdcard: the FUSE daemon of sdcard/sdcard.c

    A shallow embedding of the request dispatcher of [sdcard.c]: the node
    graph kept in C memory, the path builder, the attribute mapper, the
    opcode handlers and the request loop, followed by the properties the
    specification states about them.

    Conventions.
    - C integers are [Z]; every store into an unsigned field writes the
      wrap-around out ([u32], [u64]).
    - A pointer is the address it holds ([Z], 0 is the null pointer).  The
      [struct node] objects live in a finite map from addresses; reading or
      writing through an address that holds no live object is undefined
      behaviour and is reported as [Fault].
    - Loops whose termination depends on the shape of the graph take fuel;
      running out of it is reported as [Diverge].
    - What the host answers to a system call is an input ([host]), and so
      is what [read] on the kernel channel returns.
    - What the daemon prints on [stderr] is not kept. *)

From Stdlib Require Import ZArith Lia List String Ascii Bool.
From Stdlib.Strings Require Import Byte.
From stdpp Require Import base gmap strings.
Import ListNotations.
Open Scope Z_scope.

(** ** Machine integers *)

Definition u32 (x : Z) : Z := x mod 2 ^ 32.
Definition u64 (x : Z) : Z := x mod 2 ^ 64.
(** Conversion to [int]. *)
Definition s32 (x : Z) : Z := (x + 2 ^ 31) mod 2 ^ 32 - 2 ^ 31.

(** The octal literals of the source. *)
Definition o0777 : Z := 511.
Definition o0775 : Z := 509.
Definition o0664 : Z := 436.
Definition o0100 : Z := 64.

(** [<errno.h>] of the Linux kernel the daemon runs on. *)
Definition ENOENT : Z := 2.
Definition EINTR : Z := 4.
Definition EIO : Z := 5.
Definition ENOMEM : Z := 12.
Definition EFAULT : Z := 14.
Definition EINVAL : Z := 22.
Definition ENOSYS : Z := 38.

(** [sdcard.c] line 71, line 117, and the comment of line 260. *)
Definition FUSE_UNKNOWN_INO : Z := 4294967295.
Definition PATH_BUFFER_SIZE : Z := 1024.
Definition FUSE_ROOT_ID : Z := 1.

(** The constants [sdcard.c] takes from headers that are not part of the
    file: ["fuse.h"] and [<private/android_filesystem_config.h>].  The
    development is parametric in them. *)
Class headers := {
  AID_SDCARD_RW : Z;
  FUSE_KERNEL_VERSION : Z;
  FUSE_KERNEL_MINOR_VERSION : Z;
  FUSE_ATOMIC_O_TRUNC : Z;
  FATTR_SIZE : Z;
  (** [sizeof(struct fuse_in_header)] *)
  sizeof_fuse_in_header : Z
}.

(** ** Pointers and results *)

Abbreviation ptr := Z (only parsing).
Definition NULL : ptr := 0.

Inductive result (A : Type) : Type :=
| Ok (a : A)
| Fault
| Diverge.
Arguments Ok {A} a.
Arguments Fault {A}.
Arguments Diverge {A}.

Definition bind {A B : Type} (r : result A) (k : A -> result B) : result B :=
  match r with
  | Ok a => k a
  | Fault => Fault
  | Diverge => Diverge
  end.

Notation "'let*' x := e 'in' k" := (bind e (fun x => k))
  (at level 10, x name, e at level 100, k at level 200).
Notation "'let*' ' p := e 'in' k" := (bind e (fun p => k))
  (at level 10, p pattern, e at level 100, k at level 200).

(** The outcome of a system call: its value, or the [errno] it sets. *)
Inductive sysres (A : Type) : Type :=
| SysOk (a : A)
| SysErr (e : Z).
Arguments SysOk {A} a.
Arguments SysErr {A} e.

(** ** Data *)

(** [struct stat], the fields [attr_from_stat] reads. *)
Record stat := {
  st_ino : Z; st_size : Z; st_blocks : Z;
  st_atime : Z; st_mtime : Z; st_ctime : Z;
  st_atime_nsec : Z; st_mtime_nsec : Z; st_ctime_nsec : Z;
  st_mode : Z; st_nlink : Z
}.

(** [struct fuse_attr]; [attr_rest] stands for the fields the daemon never
    assigns (they keep what [memset] put there). *)
Record fuse_attr := {
  attr_ino : Z; attr_size : Z; attr_blocks : Z;
  attr_atime : Z; attr_mtime : Z; attr_ctime : Z;
  attr_atimensec : Z; attr_mtimensec : Z; attr_ctimensec : Z;
  attr_mode : Z; attr_nlink : Z; attr_uid : Z; attr_gid : Z;
  attr_rest : Z
}.

Definition zero_attr : fuse_attr :=
  {| attr_ino := 0; attr_size := 0; attr_blocks := 0;
     attr_atime := 0; attr_mtime := 0; attr_ctime := 0;
     attr_atimensec := 0; attr_mtimensec := 0; attr_ctimensec := 0;
     attr_mode := 0; attr_nlink := 0; attr_uid := 0; attr_gid := 0;
     attr_rest := 0 |}.

Definition set_attr_ino (v : Z) (a : fuse_attr) : fuse_attr :=
  {| attr_ino := v; attr_size := attr_size a; attr_blocks := attr_blocks a;
     attr_atime := attr_atime a; attr_mtime := attr_mtime a;
     attr_ctime := attr_ctime a; attr_atimensec := attr_atimensec a;
     attr_mtimensec := attr_mtimensec a; attr_ctimensec := attr_ctimensec a;
     attr_mode := attr_mode a; attr_nlink := attr_nlink a;
     attr_uid := attr_uid a; attr_gid := attr_gid a;
     attr_rest := attr_rest a |}.

(** [struct node].  The name buffer belongs to the node alone, so it is kept
    inside the record: [None] is a null [name], [Some s] a buffer of
    [strlen s + 1] bytes holding [s] and its terminator. *)
Record node := {
  nid : Z; gen : Z;
  next : ptr; child : ptr; all : ptr; parent : ptr;
  refcount : Z; namelen : Z;
  name : option string
}.

Definition set_nid (v : Z) (n : node) : node :=
  {| nid := v; gen := gen n; next := next n; child := child n; all := all n;
     parent := parent n; refcount := refcount n; namelen := namelen n;
     name := name n |}.
Definition set_gen (v : Z) (n : node) : node :=
  {| nid := nid n; gen := v; next := next n; child := child n; all := all n;
     parent := parent n; refcount := refcount n; namelen := namelen n;
     name := name n |}.
Definition set_next (v : ptr) (n : node) : node :=
  {| nid := nid n; gen := gen n; next := v; child := child n; all := all n;
     parent := parent n; refcount := refcount n; namelen := namelen n;
     name := name n |}.
Definition set_child (v : ptr) (n : node) : node :=
  {| nid := nid n; gen := gen n; next := next n; child := v; all := all n;
     parent := parent n; refcount := refcount n; namelen := namelen n;
     name := name n |}.
Definition set_all (v : ptr) (n : node) : node :=
  {| nid := nid n; gen := gen n; next := next n; child := child n; all := v;
     parent := parent n; refcount := refcount n; namelen := namelen n;
     name := name n |}.
Definition set_parent (v : ptr) (n : node) : node :=
  {| nid := nid n; gen := gen n; next := next n; child := child n; all := all n;
     parent := v; refcount := refcount n; namelen := namelen n;
     name := name n |}.
Definition set_refcount (v : Z) (n : node) : node :=
  {| nid := nid n; gen := gen n; next := next n; child := child n; all := all n;
     parent := parent n; refcount := v; namelen := namelen n;
     name := name n |}.
Definition set_namelen (v : Z) (n : node) : node :=
  {| nid := nid n; gen := gen n; next := next n; child := child n; all := all n;
     parent := parent n; refcount := refcount n; namelen := v;
     name := name n |}.
Definition set_name (v : option string) (n : node) : node :=
  {| nid := nid n; gen := gen n; next := next n; child := child n; all := all n;
     parent := parent n; refcount := refcount n; namelen := namelen n;
     name := v |}.

(** What [calloc(1, sizeof(struct node))] hands out. *)
Definition zero_node : node :=
  {| nid := 0; gen := 0; next := NULL; child := NULL; all := NULL;
     parent := NULL; refcount := 0; namelen := 0; name := None |}.

(** [struct dirent] and [struct statfs], the fields the daemon reads. *)
Record dirent := { d_type : Z; d_name : string }.

Record statfs_t := {
  f_blocks : Z; f_bfree : Z; f_bavail : Z; f_files : Z; f_ffree : Z;
  f_bsize : Z; f_namelen : Z; f_frsize : Z
}.

(** ** Replies

    A reply is a [struct fuse_out_header] and, for [fuse_reply], a body.
    The header's [len] is the size of what is written and is determined by
    the body; it is not kept. *)
Record fuse_entry_out := {
  e_nodeid : Z; e_generation : Z;
  e_entry_valid : Z; e_attr_valid : Z;
  e_attr : fuse_attr
}.

(** [None] in [open_out] is a field the handler leaves uninitialised. *)
Inductive body : Type :=
| entry_out (e : fuse_entry_out)
| attr_out (attr_valid : Z) (a : fuse_attr)
| open_out (fh : Z) (open_flags : option Z)
| read_out (bytes : list byte)
| write_out (size : Z)
| statfs_out (st : statfs_t)
| dirent_out (ino off type namelen : Z) (name : string)
| init_out (major minor max_readahead flags max_background
            congestion_threshold max_write : Z).

Record fuse_out_header := {
  error : Z;
  unique : Z;
  data : option body
}.

(** What happened on the kernel channel: a message was written, or the
    write of it failed. *)
Inductive wire_event : Type :=
| Sent (m : fuse_out_header)
| Lost (m : fuse_out_header).

(** ** The host

    The answers of the operating system to the calls made while one request
    is handled.  A path argument is [None] when the daemon passes a null
    pointer.  Allocation answers are the address handed out ([NULL] on
    failure; the allocator's contract is that the address is not in use)
    or, for a name buffer, whether the call succeeded. *)
Record host := {
  h_lstat : option string -> sysres stat;
  h_calloc : ptr;
  h_malloc_name : bool;
  h_realloc : bool;
  h_malloc : ptr;
  h_truncate : option string -> Z -> sysres unit;
  h_mknod : option string -> Z -> Z -> sysres unit;
  h_mkdir : option string -> Z -> sysres unit;
  h_unlink : option string -> sysres unit;
  h_rmdir : option string -> sysres unit;
  h_rename : option string -> option string -> sysres unit;
  h_open : option string -> Z -> sysres Z;
  h_pread : Z -> Z -> Z -> sysres (list byte);
  h_pwrite : Z -> list byte -> Z -> Z -> sysres Z;
  h_statfs : option string -> sysres statfs_t;
  h_opendir : option string -> sysres ptr;
  h_readdir : ptr -> option dirent;
  h_write : fuse_out_header -> sysres unit
}.

(** ** The process state

    The fields of [struct fuse] ([fuse_all] is its [all]; [root] is the
    address of its embedded [root] node, which lives in [nodes] like every
    other node), the allocated objects ([nodes], and the [struct handle]
    and [struct dirhandle] objects, kept as the descriptor or stream they
    hold), the globals [errno] and [force_lower_case], and the history of
    the kernel channel. *)
Record state := {
  next_generation : Z;
  next_node_id : Z;
  fd : Z;
  fuse_all : ptr;
  root : ptr;
  nodes : gmap Z node;
  handles : gmap Z Z;
  dirhandles : gmap Z ptr;
  errno : Z;
  force_lower_case : bool;
  wire : list wire_event
}.

Definition set_next_generation (v : Z) (w : state) : state :=
  {| next_generation := v; next_node_id := next_node_id w; fd := fd w;
     fuse_all := fuse_all w; root := root w; nodes := nodes w;
     handles := handles w; dirhandles := dirhandles w; errno := errno w;
     force_lower_case := force_lower_case w; wire := wire w |}.
Definition set_next_node_id (v : Z) (w : state) : state :=
  {| next_generation := next_generation w; next_node_id := v; fd := fd w;
     fuse_all := fuse_all w; root := root w; nodes := nodes w;
     handles := handles w; dirhandles := dirhandles w; errno := errno w;
     force_lower_case := force_lower_case w; wire := wire w |}.
Definition set_fd (v : Z) (w : state) : state :=
  {| next_generation := next_generation w; next_node_id := next_node_id w;
     fd := v; fuse_all := fuse_all w; root := root w; nodes := nodes w;
     handles := handles w; dirhandles := dirhandles w; errno := errno w;
     force_lower_case := force_lower_case w; wire := wire w |}.
Definition set_fuse_all (v : ptr) (w : state) : state :=
  {| next_generation := next_generation w; next_node_id := next_node_id w;
     fd := fd w; fuse_all := v; root := root w; nodes := nodes w;
     handles := handles w; dirhandles := dirhandles w; errno := errno w;
     force_lower_case := force_lower_case w; wire := wire w |}.
Definition set_nodes (v : gmap Z node) (w : state) : state :=
  {| next_generation := next_generation w; next_node_id := next_node_id w;
     fd := fd w; fuse_all := fuse_all w; root := root w; nodes := v;
     handles := handles w; dirhandles := dirhandles w; errno := errno w;
     force_lower_case := force_lower_case w; wire := wire w |}.
Definition set_handles (v : gmap Z Z) (w : state) : state :=
  {| next_generation := next_generation w; next_node_id := next_node_id w;
     fd := fd w; fuse_all := fuse_all w; root := root w; nodes := nodes w;
     handles := v; dirhandles := dirhandles w; errno := errno w;
     force_lower_case := force_lower_case w; wire := wire w |}.
Definition set_dirhandles (v : gmap Z ptr) (w : state) : state :=
  {| next_generation := next_generation w; next_node_id := next_node_id w;
     fd := fd w; fuse_all := fuse_all w; root := root w; nodes := nodes w;
     handles := handles w; dirhandles := v; errno := errno w;
     force_lower_case := force_lower_case w; wire := wire w |}.
Definition set_errno (v : Z) (w : state) : state :=
  {| next_generation := next_generation w; next_node_id := next_node_id w;
     fd := fd w; fuse_all := fuse_all w; root := root w; nodes := nodes w;
     handles := handles w; dirhandles := dirhandles w; errno := v;
     force_lower_case := force_lower_case w; wire := wire w |}.
Definition set_wire (v : list wire_event) (w : state) : state :=
  {| next_generation := next_generation w; next_node_id := next_node_id w;
     fd := fd w; fuse_all := fuse_all w; root := root w; nodes := nodes w;
     handles := handles w; dirhandles := dirhandles w; errno := errno w;
     force_lower_case := force_lower_case w; wire := v |}.

(** A system call: its value, and [errno] set when it fails. *)
Definition sys {A : Type} (r : sysres A) (w : state) : option A * state :=
  match r with
  | SysOk a => (Some a, w)
  | SysErr e => (None, set_errno e w)
  end.

(** Reading and writing a node through a pointer. *)
Definition load (p : ptr) (w : state) : result node :=
  match nodes w !! p with
  | Some n => Ok n
  | None => Fault
  end.

Definition store (p : ptr) (n : node) (w : state) : state :=
  set_nodes (<[p := n]> (nodes w)) w.

Definition upd (p : ptr) (f : node -> node) (w : state) : result state :=
  let* n := load p w in Ok (store p (f n) w).

Definition free_node (p : ptr) (w : state) : state :=
  set_nodes (delete p (nodes w)) w.

Definition strlen (s : string) : Z := Z.of_nat (String.length s).

(** ** The node table, the path builder and the attribute mapper *)

Section Dispatcher.
Context {H : headers}.

(** [tolower] in the C locale. *)
Definition tolower (c : ascii) : ascii :=
  let n := N_of_ascii c in
  if ((65 <=? n) && (n <=? 90))%N then ascii_of_N (n + 32) else c.

Fixpoint lower (s : string) : string :=
  match s with
  | EmptyString => EmptyString
  | String c r => String (tolower c) (lower r)
  end.

Definition normalize_name (w : state) (name : string) : string :=
  if force_lower_case w then lower name else name.

(** The C string at the start of a run of bytes. *)
Fixpoint cstr (s : string) : string :=
  match s with
  | EmptyString => EmptyString
  | String c r => if Ascii.eqb c zero then EmptyString else String c (cstr r)
  end.

(** The [len] bytes [memcpy] reads from a name buffer: a prefix of the name
    and its terminator.  Reading from a null buffer, past the end of the
    buffer, or with a negative [len] (a huge [size_t]) is undefined. *)
Definition memcpy_src (buf : option string) (len : Z) : result string :=
  if len =? 0 then Ok EmptyString
  else if len <? 0 then Fault
  else match buf with
       | None => Fault
       | Some s =>
           if len <=? strlen s + 1
           then Ok (substring 0 (Z.to_nat len) (s ++ String zero EmptyString))
           else Fault
       end.

(** The block at label [start] of [node_get_path]: [room] is [out - buf],
    [out] the text written so far.  [None] is the [return 0]. *)
Definition path_start (buf : option string) (len : Z) (room : Z)
    (out : string) : result (option (Z * string)) :=
  if len + 1 >? room then Ok None
  else
    let* s := memcpy_src buf len in
    Ok (Some (room - len - 1, String "/"%char (s ++ out))).

Fixpoint path_loop (fuel : nat) (w : state) (node : ptr) (room : Z)
    (out : string) : result (option string) :=
  if node =? NULL then Ok (Some out)
  else
    match fuel with
    | O => Diverge
    | S fuel =>
        let* n := load node w in
        let* r := path_start (name n) (s32 (namelen n)) room out in
        match r with
        | None => Ok None
        | Some (room, out) => path_loop fuel w (parent n) room out
        end
    end.

(** [node_get_path]: the loop takes at least one byte of the buffer at
    every turn, so [PATH_BUFFER_SIZE] turns are more than it can make. *)
Definition node_get_path (w : state) (node : ptr) (name : option string)
    : result (option string) :=
  let room := PATH_BUFFER_SIZE - 1 in
  let* r :=
    match name with
    | Some s => path_start (Some s) (s32 (strlen s)) room EmptyString
    | None => Ok (Some (room, EmptyString))
    end in
  match r with
  | None => Ok None
  | Some (room, out) =>
      let* r := path_loop (Z.to_nat PATH_BUFFER_SIZE) w node room out in
      Ok (option_map (fun out => normalize_name w (cstr out)) r)
  end.

Definition attr_from_stat (attr : fuse_attr) (s : stat) : fuse_attr :=
  let mode := u32 (st_mode s) in
  {| attr_ino := u64 (st_ino s);
     attr_size := u64 (st_size s);
     attr_blocks := u64 (st_blocks s);
     attr_atime := u64 (st_atime s);
     attr_mtime := u64 (st_mtime s);
     attr_ctime := u64 (st_ctime s);
     attr_atimensec := u32 (st_atime_nsec s);
     attr_mtimensec := u32 (st_mtime_nsec s);
     attr_ctimensec := u32 (st_ctime_nsec s);
     attr_mode :=
       if Z.land mode o0100 =? 0
       then Z.lor (Z.land mode (u32 (Z.lnot o0777))) o0664
       else Z.lor (Z.land mode (u32 (Z.lnot o0777))) o0775;
     attr_nlink := u32 (st_nlink s);
     attr_uid := 0;
     attr_gid := AID_SDCARD_RW;
     attr_rest := attr_rest attr |}.

(** [node_get_attr]: the returned [Z] is the C return value. *)
Definition node_get_attr (h : host) (node : ptr) (attr : fuse_attr)
    (w : state) : result (Z * fuse_attr * state) :=
  let* path := node_get_path w node None in
  match sys (h_lstat h path) w with
  | (None, w) => Ok (-1, attr, w)
  | (Some s, w) =>
      let attr := attr_from_stat attr s in
      let* n := load node w in
      Ok (0, set_attr_ino (nid n) attr, w)
  end.

Definition add_node_to_parent (node parent : ptr) (w : state)
    : result state :=
  let* w := upd node (set_parent parent) w in
  let* p := load parent w in
  let* w := upd node (set_next (child p)) w in
  let* w := upd parent (set_child node) w in
  upd parent (fun p => set_refcount (u32 (refcount p + 1)) p) w.

Definition node_create (h : host) (parent : ptr) (name : string)
    (nid gen : Z) (w : state) : result (ptr * state) :=
  let namelen := s32 (strlen name) in
  let node := h_calloc h in
  if node =? NULL then Ok (NULL, set_errno ENOMEM w)
  else
    let w := store node zero_node w in
    if negb (h_malloc_name h)
    then Ok (NULL, set_errno ENOMEM (free_node node w))
    else
      let* w := upd node (set_nid nid) w in
      let* w := upd node (set_gen gen) w in
      let* w := add_node_to_parent node parent w in
      let* w := upd node (set_name (Some name)) w in
      let* w := upd node (set_namelen (u32 namelen)) w in
      Ok (node, w).

(** [rename_node]: the boolean tells whether the returned pointer is
    non-null. *)
Definition rename_node (h : host) (node : ptr) (name : string) (w : state)
    : result (bool * state) :=
  let* w := upd node (set_namelen (u32 (strlen name))) w in
  if negb (h_realloc h) then Ok (false, set_errno ENOMEM w)
  else
    let* w := upd node (set_name (Some name)) w in
    Ok (true, w).

(** [fuse_init] fills in the [struct fuse] it is given; [w] is the process
    before the call, with whatever the uninitialised structure holds. *)
Definition fuse_init (h : host) (fd : Z) (path : string) (w : state)
    : result state :=
  let w := set_fd fd w in
  let w := set_next_node_id 2 w in
  let w := set_next_generation 0 w in
  let w := set_fuse_all (root w) w in
  let* w := upd (root w) (set_nid FUSE_ROOT_ID) w in
  let* w := upd (root w) (set_next NULL) w in
  let* w := upd (root w) (set_child NULL) w in
  let* w := upd (root w) (set_parent NULL) w in
  let* w := upd (root w) (set_all NULL) w in
  let* w := upd (root w) (set_refcount 2) w in
  let* w := upd (root w) (set_name None) w in
  let* '(_, w) := rename_node h (root w) path w in
  Ok w.

Definition id_to_ptr (nid : Z) : ptr := nid.
Definition ptr_to_id (p : ptr) : Z := p.

Definition lookup_by_inode (w : state) (nid : Z) : ptr :=
  if nid =? FUSE_ROOT_ID then root w else id_to_ptr nid.

Fixpoint find_child_by_name (fuel : nat) (w : state) (node : ptr)
    (nm : string) : result ptr :=
  if node =? NULL then Ok NULL
  else
    match fuel with
    | O => Diverge
    | S fuel =>
        let* n := load node w in
        match name n with
        | None => Fault
        | Some s =>
            if String.eqb nm s then Ok node
            else find_child_by_name fuel w (next n) nm
        end
    end.

Definition lookup_child_by_name (fuel : nat) (w : state) (node : ptr)
    (nm : string) : result ptr :=
  let* n := load node w in
  find_child_by_name fuel w (child n) nm.

Fixpoint find_child_by_inode (fuel : nat) (w : state) (node : ptr)
    (id : Z) : result ptr :=
  if node =? NULL then Ok NULL
  else
    match fuel with
    | O => Diverge
    | S fuel =>
        let* n := load node w in
        if nid n =? id then Ok node
        else find_child_by_inode fuel w (next n) id
    end.

Definition lookup_child_by_inode (fuel : nat) (w : state) (node : ptr)
    (id : Z) : result ptr :=
  let* n := load node w in
  find_child_by_inode fuel w (child n) id.

Definition dec_refcount (node : ptr) (w : state) : result state :=
  let* n := load node w in
  if refcount n >? 0
  then Ok (store node (set_refcount (u32 (refcount n - 1)) n) w)
  else Ok w.

(** [remove_child]: the loop, with [prev] and the cursor [node]. *)
Fixpoint remove_child_loop (fuel : nat) (parent : ptr) (id : Z)
    (prev node : ptr) (w : state) : result (ptr * state) :=
  if node =? NULL then Ok (NULL, w)
  else
    match fuel with
    | O => Diverge
    | S fuel =>
        let* n := load node w in
        if nid n =? id then
          let* w :=
            if prev =? NULL then upd parent (set_child (next n)) w
            else upd prev (set_next (next n)) w in
          let* w := upd node (set_next NULL) w in
          let* w := upd node (set_parent NULL) w in
          let* w := dec_refcount parent w in
          Ok (node, w)
        else remove_child_loop fuel parent id node (next n) w
    end.

Definition remove_child (fuel : nat) (parent : ptr) (id : Z) (w : state)
    : result (ptr * state) :=
  let* p := load parent w in
  remove_child_loop fuel parent id NULL (child p) w.

Definition node_lookup (fuel : nat) (h : host) (parent : ptr) (nm : string)
    (attr : fuse_attr) (w : state) : result (ptr * fuse_attr * state) :=
  let* path := node_get_path w parent (Some nm) in
  match sys (h_lstat h path) w with
  | (None, w) => Ok (NULL, attr, w)
  | (Some s, w) =>
      let* node := lookup_child_by_name fuel w parent nm in
      let* '(node, w) :=
        if node =? NULL then
          let id := next_node_id w in
          let g := next_generation w in
          let w := set_next_node_id (u64 (id + 1)) w in
          let w := set_next_generation (u64 (g + 1)) w in
          let* '(node, w) := node_create h parent nm id g w in
          if node =? NULL then Ok (NULL, w)
          else
            let* w := upd node (set_nid (ptr_to_id node)) w in
            let* w := upd node (set_all (fuse_all w)) w in
            Ok (node, set_fuse_all node w)
        else Ok (node, w) in
      if node =? NULL then Ok (NULL, attr, w)
      else
        let attr := attr_from_stat attr s in
        let* n := load node w in
        Ok (node, set_attr_ino (nid n) attr, w)
  end.

(** The inner [while (node2->next != node)] of [node_release]. *)
Fixpoint find_prev (fuel : nat) (w : state) (node2 node : ptr)
    : result ptr :=
  match fuel with
  | O => Diverge
  | S fuel =>
      let* n2 := load node2 w in
      if next n2 =? node then Ok node2
      else find_prev fuel w (next n2) node
  end.

(** [free(node->name); free(node)] with the two [memset] before them.  The
    root is a field of [struct fuse], not an allocated block. *)
Definition destroy (node : ptr) (w : state) : result state :=
  let* n := load node w in
  if negb (namelen n =? 0)
     && match name n with
        | None => true
        | Some s => strlen s + 1 <? namelen n
        end
  then Fault
  else if node =? root w then Fault
  else Ok (free_node node w).

Fixpoint node_release (fuel : nat) (node : ptr) (w : state) : result state :=
  match fuel with
  | O => Diverge
  | S fuel =>
      let* w := dec_refcount node w in
      let* n := load node w in
      if refcount n =? 0 then
        let* p := load (parent n) w in
        let* w :=
          if child p =? node then
            let* c := load (child p) w in
            upd (parent n) (set_child (next c)) w
          else
            let* node2 := find_prev fuel w (child p) node in
            let* n := load node w in
            upd node2 (set_next (next n)) w in
        let* n := load node w in
        let* w := node_release fuel (parent n) w in
        let* w := upd node (set_parent NULL) w in
        let* w := upd node (set_next NULL) w in
        destroy node w
      else Ok w
  end.

(** ** Writing to the kernel *)

Definition chan_write (h : host) (m : fuse_out_header) (w : state) : state :=
  match sys (h_write h m) w with
  | (Some _, w) => set_wire (wire w ++ [Sent m]) w
  | (None, w) => set_wire (wire w ++ [Lost m]) w
  end.

(** [fuse_status] ignores the outcome of [write]. *)
Definition fuse_status (h : host) (uniq : Z) (err : Z) (w : state) : state :=
  chan_write h {| error := err; unique := uniq; data := None |} w.

(** [fuse_reply] reports a failed [writev] on [stderr] and does no more. *)
Definition fuse_reply (h : host) (uniq : Z) (b : body) (w : state) : state :=
  chan_write h {| error := 0; unique := uniq; data := Some b |} w.

Definition lookup_entry (fuel : nat) (h : host) (node : ptr) (nm : string)
    (uniq : Z) (w : state) : result state :=
  let* '(node, attr, w) := node_lookup fuel h node nm zero_attr w in
  if node =? NULL then Ok (fuse_status h uniq (- ENOENT) w)
  else
    let* w := upd node (fun n => set_refcount (u32 (refcount n + 1)) n) w in
    let* n := load node w in
    Ok (fuse_reply h uniq
          (entry_out {| e_nodeid := nid n; e_generation := gen n;
                        e_entry_valid := 10; e_attr_valid := 10;
                        e_attr := attr |}) w).

(** ** Requests

    A request is a [struct fuse_in_header] and the bytes after it, which the
    handler of each opcode reads as its own structure; [request] is the
    opcode together with that reading.  A name is the C string found in the
    payload, without its terminator. *)
Record fuse_in_header := {
  hdr_len : Z;
  hdr_unique : Z;
  hdr_nodeid : Z
}.

Inductive request : Type :=
| FUSE_LOOKUP (nm : string)
| FUSE_FORGET (nlookup : Z)
| FUSE_GETATTR
| FUSE_SETATTR (valid size : Z)
| FUSE_MKNOD (mode rdev : Z) (nm : string)
| FUSE_MKDIR (mode : Z) (nm : string)
| FUSE_UNLINK (nm : string)
| FUSE_RMDIR (nm : string)
| FUSE_RENAME (newdir : Z) (oldname newname : string)
| FUSE_OPEN (flags : Z)
| FUSE_READ (fh size offset : Z)
| FUSE_WRITE (fh size offset : Z) (bytes : list byte)
| FUSE_STATFS
| FUSE_RELEASE (fh : Z)
| FUSE_FLUSH
| FUSE_OPENDIR
| FUSE_READDIR (fh : Z)
| FUSE_RELEASEDIR (fh : Z)
| FUSE_INIT (major minor max_readahead flags : Z)
| FUSE_other (opcode : Z).

(** The [while (req->nlookup--) node_release(node);] of FORGET. *)
Fixpoint forget_loop (fuel : nat) (nlookup : nat) (node : ptr) (w : state)
    : result state :=
  match nlookup with
  | O => Ok w
  | S nlookup =>
      let* w := node_release fuel node w in
      forget_loop fuel nlookup node w
  end.

(** The code at label [oops]. *)
Definition oops (h : host) (hdr : fuse_in_header) (w : state) : state :=
  chan_write h
    {| error := - ENOSYS; unique := hdr_unique hdr; data := None |} w.

(** The value of [res ? -errno : 0] after a call returning a status. *)
Definition status_of (r : option unit) (w : state) : Z :=
  match r with
  | Some _ => 0
  | None => - errno w
  end.

Definition force_mode (mode perm : Z) : Z :=
  Z.lor (Z.land (u32 mode) (u32 (Z.lnot o0777))) perm.

Definition handle_rename (fuel : nat) (h : host) (hdr : fuse_in_header)
    (node : ptr) (newdir : Z) (oldname newname : string) (w : state)
    : result state :=
  let uniq := hdr_unique hdr in
  let* target := lookup_child_by_name fuel w node oldname in
  if target =? NULL then Ok (fuse_status h uniq (- ENOENT) w)
  else
    let* oldpath := node_get_path w node (Some oldname) in
    let newparent := lookup_by_inode w newdir in
    if newparent =? NULL then Ok (fuse_status h uniq (- ENOENT) w)
    else
      let* newpath := node_get_path w newparent (Some newname) in
      let* t := load target w in
      let* '(removed, w) := remove_child fuel node (nid t) w in
      if removed =? NULL then Ok (fuse_status h uniq (- ENOENT) w)
      else
        let* '(renamed, w) := rename_node h target newname w in
        if negb renamed then Ok (fuse_status h uniq (- ENOMEM) w)
        else
          let* w := add_node_to_parent target newparent w in
          let '(res, w) := sys (h_rename h oldpath newpath) w in
          Ok (fuse_status h uniq (status_of res w) w).

Definition handle_setattr (h : host) (hdr : fuse_in_header) (node : ptr)
    (valid size : Z) (w : state) : result state :=
  let* path := node_get_path w node None in
  let '(res, w) :=
    if Z.land valid FATTR_SIZE =? 0 then (Some tt, w)
    else sys (h_truncate h path size) w in
  let* '(_, attr, w) := node_get_attr h node zero_attr w in
  match res with
  | None => Ok (fuse_status h (hdr_unique hdr) (- errno w) w)
  | Some _ => Ok (fuse_reply h (hdr_unique hdr) (attr_out 10 attr) w)
  end.

Definition handle_open (h : host) (hdr : fuse_in_header) (node : ptr)
    (flags : Z) (w : state) : result state :=
  let hp := h_malloc h in
  if hp =? NULL
  then Ok (fuse_status h (hdr_unique hdr) (- ENOMEM) (set_errno ENOMEM w))
  else
    let* path := node_get_path w node None in
    match sys (h_open h path flags) w with
    | (None, w) => Ok (fuse_status h (hdr_unique hdr) (errno w) w)
    | (Some f, w) =>
        let w := set_handles (<[hp := f]> (handles w)) w in
        Ok (fuse_reply h (hdr_unique hdr)
              (open_out (ptr_to_id hp) (Some 0)) w)
    end.

Definition handle_read (h : host) (hdr : fuse_in_header)
    (fh size offset : Z) (w : state) : result state :=
  if size >? 128 * 1024
  then Ok (fuse_status h (hdr_unique hdr) (- EINVAL) w)
  else
    match handles w !! id_to_ptr fh with
    | None => Fault
    | Some f =>
        match sys (h_pread h f size offset) w with
        | (None, w) => Ok (fuse_status h (hdr_unique hdr) (errno w) w)
        | (Some bytes, w) =>
            Ok (fuse_reply h (hdr_unique hdr) (read_out bytes) w)
        end
    end.

Definition handle_write (h : host) (hdr : fuse_in_header)
    (fh size offset : Z) (bytes : list byte) (w : state) : result state :=
  match handles w !! id_to_ptr fh with
  | None => Fault
  | Some f =>
      match sys (h_pwrite h f bytes size offset) w with
      | (None, w) => Ok (fuse_status h (hdr_unique hdr) (errno w) w)
      | (Some res, w) =>
          let w := fuse_reply h (hdr_unique hdr) (write_out (u32 res)) w in
          Ok (oops h hdr w)
      end
  end.

Definition handle_statfs (h : host) (hdr : fuse_in_header) (w : state)
    : result state :=
  let* r := load (root w) w in
  match sys (h_statfs h (name r)) w with
  | (None, w) => Ok (fuse_status h (hdr_unique hdr) (- errno w) w)
  | (Some st, w) =>
      Ok (fuse_reply h (hdr_unique hdr)
            (statfs_out
               {| f_blocks := u64 (f_blocks st); f_bfree := u64 (f_bfree st);
                  f_bavail := u64 (f_bavail st); f_files := u64 (f_files st);
                  f_ffree := u64 (f_ffree st); f_bsize := u32 (f_bsize st);
                  f_namelen := u32 (f_namelen st);
                  f_frsize := u32 (f_frsize st) |}) w)
  end.

Definition handle_opendir (h : host) (hdr : fuse_in_header) (node : ptr)
    (w : state) : result state :=
  let hp := h_malloc h in
  if hp =? NULL
  then Ok (fuse_status h (hdr_unique hdr) (- ENOMEM) (set_errno ENOMEM w))
  else
    let* path := node_get_path w node None in
    match sys (h_opendir h path) w with
    | (None, w) => Ok (fuse_status h (hdr_unique hdr) (- errno w) w)
    | (Some d, w) =>
        let w := set_dirhandles (<[hp := d]> (dirhandles w)) w in
        Ok (fuse_reply h (hdr_unique hdr) (open_out (ptr_to_id hp) None) w)
    end.

Definition handle_readdir (h : host) (hdr : fuse_in_header) (fh : Z)
    (w : state) : result state :=
  match dirhandles w !! id_to_ptr fh with
  | None => Fault
  | Some d =>
      match h_readdir h d with
      | None => Ok (fuse_status h (hdr_unique hdr) 0 w)
      | Some de =>
          Ok (fuse_reply h (hdr_unique hdr)
                (dirent_out FUSE_UNKNOWN_INO 0 (u32 (d_type de))
                   (u32 (strlen (d_name de))) (d_name de)) w)
      end
  end.

(** The [switch] of [handle_fuse_request], [node] being the node the
    header names. *)
Definition dispatch (fuel : nat) (h : host) (hdr : fuse_in_header)
    (node : ptr) (req : request) (w : state) : result state :=
  let uniq := hdr_unique hdr in
  match req with
  | FUSE_LOOKUP nm => lookup_entry fuel h node nm uniq w
  | FUSE_FORGET nlookup => forget_loop fuel (Z.to_nat nlookup) node w
  | FUSE_GETATTR =>
      let* '(_, attr, w) := node_get_attr h node zero_attr w in
      Ok (fuse_reply h uniq (attr_out 10 attr) w)
  | FUSE_SETATTR valid size => handle_setattr h hdr node valid size w
  | FUSE_MKNOD mode rdev nm =>
      let* path := node_get_path w node (Some nm) in
      match sys (h_mknod h path (force_mode mode o0664) rdev) w with
      | (None, w) => Ok (fuse_status h uniq (- errno w) w)
      | (Some _, w) => lookup_entry fuel h node nm uniq w
      end
  | FUSE_MKDIR mode nm =>
      let* path := node_get_path w node (Some nm) in
      match sys (h_mkdir h path (force_mode mode o0775)) w with
      | (None, w) => Ok (fuse_status h uniq (- errno w) w)
      | (Some _, w) => lookup_entry fuel h node nm uniq w
      end
  | FUSE_UNLINK nm =>
      let* path := node_get_path w node (Some nm) in
      let '(res, w) := sys (h_unlink h path) w in
      Ok (fuse_status h uniq (status_of res w) w)
  | FUSE_RMDIR nm =>
      let* path := node_get_path w node (Some nm) in
      let '(res, w) := sys (h_rmdir h path) w in
      Ok (fuse_status h uniq (status_of res w) w)
  | FUSE_RENAME newdir oldname newname =>
      handle_rename fuel h hdr node newdir oldname newname w
  | FUSE_OPEN flags => handle_open h hdr node flags w
  | FUSE_READ fh size offset => handle_read h hdr fh size offset w
  | FUSE_WRITE fh size offset bytes =>
      handle_write h hdr fh size offset bytes w
  | FUSE_STATFS => handle_statfs h hdr w
  | FUSE_RELEASE fh =>
      match handles w !! id_to_ptr fh with
      | None => Fault
      | Some _ =>
          let w := set_handles (delete (id_to_ptr fh) (handles w)) w in
          Ok (fuse_status h uniq 0 w)
      end
  | FUSE_FLUSH => Ok (fuse_status h uniq 0 w)
  | FUSE_OPENDIR => handle_opendir h hdr node w
  | FUSE_READDIR fh => handle_readdir h hdr fh w
  | FUSE_RELEASEDIR fh =>
      match dirhandles w !! id_to_ptr fh with
      | None => Fault
      | Some _ =>
          let w := set_dirhandles (delete (id_to_ptr fh) (dirhandles w)) w in
          Ok (fuse_status h uniq 0 w)
      end
  | FUSE_INIT major minor max_readahead flags =>
      Ok (fuse_reply h uniq
            (init_out FUSE_KERNEL_VERSION FUSE_KERNEL_MINOR_VERSION
               max_readahead FUSE_ATOMIC_O_TRUNC 32 32 (256 * 1024)) w)
  | FUSE_other _ => Ok (oops h hdr w)
  end.

(** [handle_fuse_request]: [len] is the number of bytes [read] returned. *)
Definition handle_fuse_request (fuel : nat) (h : host)
    (hdr : fuse_in_header) (req : request) (len : Z) (w : state)
    : result state :=
  if (len <? sizeof_fuse_in_header) || negb (hdr_len hdr =? len) then Ok w
  else
    let node :=
      if hdr_nodeid hdr =? 0 then NULL
      else lookup_by_inode w (hdr_nodeid hdr) in
    if negb (hdr_nodeid hdr =? 0) && (node =? NULL)
    then Ok (fuse_status h (hdr_unique hdr) (- ENOENT) w)
    else dispatch fuel h hdr node req w.

(** ** The request loop

    What [read] on the channel returns, turn after turn: an error with its
    [errno], or a message of [len] bytes together with what the host
    answers while it is handled. *)
Inductive read_result : Type :=
| ReadErr (e : Z)
| ReadMsg (len : Z) (hdr : fuse_in_header) (req : request) (h : host).

(** [sizeof(req)], the buffer of [handle_fuse_requests], and the count it
    passes to [read]: a message is never longer than [read_count]. *)
Definition request_buffer_size : Z := 256 * 1024 + 128.
Definition read_count : Z := 8192.

(** How a run over a finite script ends: [handle_fuse_requests] returned,
    or it is in [read] again, waiting for the next message. *)
Inductive loop_end : Type :=
| Returned
| Reading.

Fixpoint handle_fuse_requests (fuel : nat) (script : list read_result)
    (w : state) : result (loop_end * state) :=
  match script with
  | [] => Ok (Reading, w)
  | ReadErr e :: script =>
      let w := set_errno e w in
      if e =? EINTR then handle_fuse_requests fuel script w
      else Ok (Returned, w)
  | ReadMsg len hdr req h :: script =>
      let* w := handle_fuse_request fuel h hdr req len w in
      handle_fuse_requests fuel script w
  end.

End Dispatcher.

(** ** Start-up

    [recursive_fix_files] and [main].  [PATH_MAX] and [DT_DIR] are those of
    Linux.  A path, an argument and the name of a directory entry are C
    strings, kept without their terminators. *)
Definition PATH_MAX : Z := 4096.
Definition DT_DIR : Z := 4.

(** The system calls of [main] and [recursive_fix_files], as they are
    made.  [sys_mount] carries what [sprintf] puts into the options: the
    descriptor, and the two ids read as [int] by [%d]. *)
Inductive call : Type :=
| sys_opendir (path : string)
| sys_closedir
| sys_chown (path : string) (uid gid : Z)
| sys_rename (oldpath newpath : string)
| sys_umount2
| sys_open
| sys_mount (fd user_id group_id : Z)
| sys_setgid (gid : Z)
| sys_setuid (uid : Z)
| sys_umask (mask : Z).

(** What the host answers while a directory tree is fixed, in the order
    the answers are asked for: [opendir] fails, or the stream is read entry
    by entry; with an entry come the answers to the [chown] and the
    [rename] of it and, should the daemon descend into it, the listing of
    the directory it names. *)
Inductive listing : Type :=
| no_dir (e : Z)
| opened (s : stream)
with stream : Type :=
| end_of_dir
| entry (de : dirent) (chowned renamed : sysres unit) (sub : listing)
    (rest : stream).

Scheme listing_mut := Induction for listing Sort Prop
with stream_mut := Induction for stream Sort Prop.
Combined Scheme listing_stream_ind from listing_mut, stream_mut.

Definition set_force_lower_case (v : bool) (w : state) : state :=
  {| next_generation := next_generation w; next_node_id := next_node_id w;
     fd := fd w; fuse_all := fuse_all w; root := root w; nodes := nodes w;
     handles := handles w; dirhandles := dirhandles w; errno := errno w;
     force_lower_case := v; wire := wire w |}.

(** [strcpy] into [size] bytes: writing past them is undefined. *)
Definition strcpy (size : Z) (s : string) : result string :=
  if strlen s + 1 <=? size then Ok s else Fault.

(** [strlcpy]: at most [size - 1] bytes and a terminator. *)
Definition strlcpy (size : Z) (s : string) : string :=
  substring 0 (Z.to_nat (size - 1)) s.

(** [buf[i]] in the C string [s] and its terminator; an index outside of
    them is not read here. *)
Definition char_at (s : string) (i : Z) : result ascii :=
  if (i <? 0) || (strlen s <? i) then Fault
  else match String.get (Z.to_nat i) s with
       | Some c => Ok c
       | None => Ok zero
       end.

(** [arg[0] == c] *)
Definition first_is (c : ascii) (arg : string) : bool :=
  match arg with
  | String c0 _ => Ascii.eqb c0 c
  | EmptyString => Ascii.eqb zero c
  end.

(** [name[0] == '.' && (name[1] == 0 || (name[1] == '.' && name[2] == 0))] *)
Definition dot_or_dotdot (name : string) : bool :=
  match name with
  | String "." EmptyString => true
  | String "." (String "." EmptyString) => true
  | _ => false
  end.

(** What [name_needs_normalizing] leaves to the compiler and the C
    library: whether plain [char] is signed, and what [tolower] returns
    for an argument that is neither a value of [unsigned char] nor [EOF].
    ISO C defines nothing there, and the libraries differ. *)
Class platform := {
  char_signed : bool;
  tolower_other : Z -> Z
}.

Definition EOF : Z := -1.

Section Startup.
Context {H : headers} {Pf : platform}.

(** The value of a plain [char] that holds the byte [c]. *)
Definition plain_char (c : ascii) : Z :=
  let n := Z.of_N (N_of_ascii c) in
  if char_signed && (128 <=? n) then n - 256 else n.

(** [tolower] of the library, on an [int]. *)
Definition tolower_int (x : Z) : Z :=
  if (0 <=? x) && (x <=? 255)
  then Z.of_N (N_of_ascii (tolower (ascii_of_N (Z.to_N x))))
  else if x =? EOF then EOF
  else tolower_other x.

(** [ch] is a plain [char], and [ch != tolower(ch)] compares two [int]s. *)
Fixpoint name_needs_normalizing (name : string) : bool :=
  match name with
  | EmptyString => false
  | String c name =>
      let ch := plain_char c in
      if ch =? 0 then false
      else if negb (ch =? tolower_int ch) then true
      else name_needs_normalizing name
  end.

(** [recursive_fix_files], and the [while] loop of it as [fix_entries]:
    [dirpart] is what [pathbuf] holds in front of [fileSpot].  The results
    of [chown] and [rename] are not looked at; they leave [errno]. *)
Fixpoint recursive_fix_files (uid gid : Z) (path : string) (l : listing)
    (w : state) {struct l} : result (list call * state) :=
  let pathLength := s32 (strlen path) in
  if u32 pathLength >=? PATH_MAX - 1 then Ok ([], w)
  else
    let* pathbuf := strcpy PATH_MAX path in
    let* last := char_at pathbuf (pathLength - 1) in
    let dirpart :=
      if negb (Ascii.eqb last "/") then (pathbuf ++ "/")%string
      else pathbuf in
    let pathLength :=
      if negb (Ascii.eqb last "/") then pathLength + 1 else pathLength in
    let pathRemaining := s32 (u32 (PATH_MAX - pathLength - 1)) in
    match l with
    | no_dir e => Ok ([sys_opendir path], set_errno e w)
    | opened s =>
        let* '(t, w) :=
          fix_entries uid gid pathLength pathRemaining dirpart s w in
        Ok (sys_opendir path :: t ++ [sys_closedir], w)
    end
with fix_entries (uid gid : Z) (pathLength pathRemaining : Z)
    (dirpart : string) (s : stream) (w : state) {struct s}
    : result (list call * state) :=
  match s with
  | end_of_dir => Ok ([], w)
  | entry de chowned renamed sub rest =>
      let name := d_name de in
      if dot_or_dotdot name then
        fix_entries uid gid pathLength pathRemaining dirpart rest w
      else
        let nameLength := s32 (strlen name) in
        if nameLength >? pathRemaining then
          fix_entries uid gid pathLength pathRemaining dirpart rest w
        else
          let* tail := strcpy (PATH_MAX - pathLength) name in
          let pathbuf := (dirpart ++ tail)%string in
          let '(_, w) := sys chowned w in
          let t1 := [sys_chown pathbuf uid gid] in
          let '(t2, pathbuf, w) :=
            if name_needs_normalizing name then
              let oldpath := strlcpy PATH_MAX pathbuf in
              let pathbuf := normalize_name w pathbuf in
              let '(_, w) := sys renamed w in
              ([sys_rename oldpath pathbuf], pathbuf, w)
            else ([], pathbuf, w) in
          let* '(t3, w) :=
            if d_type de =? DT_DIR
            then recursive_fix_files uid gid pathbuf sub w
            else Ok ([], w) in
          let dirpart := substring 0 (Z.to_nat pathLength) pathbuf in
          let* '(t4, w) :=
            fix_entries uid gid pathLength pathRemaining dirpart rest w in
          Ok (t1 ++ t2 ++ t3 ++ t4, w)
  end.

(** [usage] prints and returns -1. *)
Definition usage : Z := -1.

(** The locals [path] and [fix_files] of [main] and the globals [uid] and
    [gid]; [force_lower_case] is in the process state. *)
Record main_vars := {
  m_path : option string;
  m_fix_files : bool;
  m_uid : Z;
  m_gid : Z
}.

(** The [for] loop of [main] over [argv[1]], ..., [strtoul] being the
    library's: [Some] is a [return] out of the loop. *)
Fixpoint main_loop (strtoul : string -> Z) (args : list string)
    (v : main_vars) (w : state) : option Z * main_vars * state :=
  match args with
  | [] => (None, v, w)
  | arg :: args =>
      if first_is "-" arg then
        if String.eqb arg "-l"
        then main_loop strtoul args v (set_force_lower_case true w)
        else if String.eqb arg "-f"
        then main_loop strtoul args
               {| m_path := m_path v; m_fix_files := true;
                  m_uid := m_uid v; m_gid := m_gid v |} w
        else (Some usage, v, w)
      else
        match m_path v with
        | None =>
            main_loop strtoul args
              {| m_path := Some arg; m_fix_files := m_fix_files v;
                 m_uid := m_uid v; m_gid := m_gid v |} w
        | Some _ =>
            if m_uid v =? u32 (-1)
            then main_loop strtoul args
                   {| m_path := m_path v; m_fix_files := m_fix_files v;
                      m_uid := u32 (strtoul arg); m_gid := m_gid v |} w
            else if m_gid v =? u32 (-1)
            then main_loop strtoul args
                   {| m_path := m_path v; m_fix_files := m_fix_files v;
                      m_uid := m_uid v; m_gid := u32 (strtoul arg) |} w
            else (Some usage, v, w)
        end
  end.

(** What the system answers to [main]: [strtoul], the calls before the
    request loop, the host of [fuse_init], and what [read] returns in the
    loop. *)
Record boot := {
  b_strtoul : string -> Z;
  b_umount2 : sysres unit;
  b_open : sysres Z;
  b_mount : sysres unit;
  b_listing : listing;
  b_setgid : sysres unit;
  b_setuid : sysres unit;
  b_host : host;
  b_script : list read_result
}.

(** How [main] ends on a finite script: it returned, or it is in the
    request loop, in [read]. *)
Inductive outcome : Type :=
| exited (code : Z)
| serving.

(** [main]: [w] is the process as it starts, with the [struct fuse] of
    [main] at [root w]; the calls made before the request loop come with
    the result. *)
Definition main (fuel : nat) (b : boot) (args : list string) (w : state)
    : result (outcome * list call * state) :=
  let v := {| m_path := None; m_fix_files := false;
              m_uid := u32 (-1); m_gid := u32 (-1) |} in
  match main_loop (b_strtoul b) args v w with
  | (Some code, _, w) => Ok (exited code, [], w)
  | (None, v, w) =>
      match m_path v with
      | None => Ok (exited usage, [], w)
      | Some path =>
          if (m_uid v <=? 0) || (m_gid v <=? 0)
          then Ok (exited usage, [], w)
          else
            let '(_, w) := sys (b_umount2 b) w in
            let t := [sys_umount2; sys_open] in
            match sys (b_open b) w with
            | (None, w) => Ok (exited (-1), t, w)
            | (Some fd, w) =>
                let t :=
                  t ++ [sys_mount fd (s32 (m_uid v)) (s32 (m_gid v))] in
                match sys (b_mount b) w with
                | (None, w) => Ok (exited (-1), t, w)
                | (Some _, w) =>
                    let* '(t', w) :=
                      if m_fix_files v
                      then recursive_fix_files (m_uid v) (m_gid v) path
                             (b_listing b) w
                      else Ok ([], w) in
                    let t := t ++ t' ++ [sys_setgid (m_gid v)] in
                    match sys (b_setgid b) w with
                    | (None, w) => Ok (exited (-1), t, w)
                    | (Some _, w) =>
                        let t := t ++ [sys_setuid (m_uid v)] in
                        match sys (b_setuid b) w with
                        | (None, w) => Ok (exited (-1), t, w)
                        | (Some _, w) =>
                            let* w := fuse_init (b_host b) fd path w in
                            let t := t ++ [sys_umask 0] in
                            let* '(e, w) :=
                              handle_fuse_requests fuel (b_script b) w in
                            match e with
                            | Returned => Ok (exited 0, t, w)
                            | Reading => Ok (serving, t, w)
                            end
                        end
                    end
                end
            end
      end
  end.

End Startup.

(** ** Sample inputs

    One choice of the header constants (the values of the Android tree of
    the time), a host on which nothing exists and every allocation fails,
    and the process as [main] has it before [fuse_init]: a [struct fuse]
    at some address with unspecified contents. *)
Definition android : headers :=
  {| AID_SDCARD_RW := 1015;
     FUSE_KERNEL_VERSION := 7;
     FUSE_KERNEL_MINOR_VERSION := 13;
     FUSE_ATOMIC_O_TRUNC := 8;
     FATTR_SIZE := 8;
     sizeof_fuse_in_header := 40 |}.

(** Android's C library on ARM, where plain [char] is unsigned, and two
    platforms where it is signed: the [tolower] of bionic returns an
    argument outside of its table as it is, the table of glibc has the
    value of the byte for it. *)
Definition bionic_arm : platform :=
  {| char_signed := false; tolower_other := fun x => x |}.

Definition bionic_x86 : platform :=
  {| char_signed := true; tolower_other := fun x => x |}.

Definition glibc_x86 : platform :=
  {| char_signed := true; tolower_other := fun x => x + 256 |}.

Definition bare_host : host :=
  {| h_lstat := fun _ => SysErr ENOENT;
     h_calloc := NULL;
     h_malloc_name := false;
     h_realloc := false;
     h_malloc := NULL;
     h_truncate := fun _ _ => SysErr ENOENT;
     h_mknod := fun _ _ _ => SysErr ENOENT;
     h_mkdir := fun _ _ => SysErr ENOENT;
     h_unlink := fun _ => SysErr ENOENT;
     h_rmdir := fun _ => SysErr ENOENT;
     h_rename := fun _ _ => SysErr ENOENT;
     h_open := fun _ _ => SysErr ENOENT;
     h_pread := fun _ _ _ => SysErr EINVAL;
     h_pwrite := fun _ _ _ _ => SysErr EINVAL;
     h_statfs := fun _ => SysErr ENOENT;
     h_opendir := fun _ => SysErr ENOENT;
     h_readdir := fun _ => None;
     h_write := fun _ => SysOk tt |}.

Definition with_lstat (f : option string -> sysres stat) (h : host) : host :=
  {| h_lstat := f; h_calloc := h_calloc h; h_malloc_name := h_malloc_name h;
     h_realloc := h_realloc h; h_malloc := h_malloc h;
     h_truncate := h_truncate h; h_mknod := h_mknod h; h_mkdir := h_mkdir h;
     h_unlink := h_unlink h; h_rmdir := h_rmdir h; h_rename := h_rename h;
     h_open := h_open h; h_pread := h_pread h; h_pwrite := h_pwrite h;
     h_statfs := h_statfs h; h_opendir := h_opendir h;
     h_readdir := h_readdir h; h_write := h_write h |}.

(** Memory is there: a node at [a], name buffers, a handle at [hp]. *)
Definition with_memory (a hp : ptr) (h : host) : host :=
  {| h_lstat := h_lstat h; h_calloc := a; h_malloc_name := true;
     h_realloc := true; h_malloc := hp;
     h_truncate := h_truncate h; h_mknod := h_mknod h; h_mkdir := h_mkdir h;
     h_unlink := h_unlink h; h_rmdir := h_rmdir h; h_rename := h_rename h;
     h_open := h_open h; h_pread := h_pread h; h_pwrite := h_pwrite h;
     h_statfs := h_statfs h; h_opendir := h_opendir h;
     h_readdir := h_readdir h; h_write := h_write h |}.

Definition with_realloc (b : bool) (h : host) : host :=
  {| h_lstat := h_lstat h; h_calloc := h_calloc h;
     h_malloc_name := h_malloc_name h;
     h_realloc := b; h_malloc := h_malloc h;
     h_truncate := h_truncate h; h_mknod := h_mknod h; h_mkdir := h_mkdir h;
     h_unlink := h_unlink h; h_rmdir := h_rmdir h; h_rename := h_rename h;
     h_open := h_open h; h_pread := h_pread h; h_pwrite := h_pwrite h;
     h_statfs := h_statfs h; h_opendir := h_opendir h;
     h_readdir := h_readdir h; h_write := h_write h |}.

Definition with_open (f : option string -> Z -> sysres Z) (h : host) : host :=
  {| h_lstat := h_lstat h; h_calloc := h_calloc h;
     h_malloc_name := h_malloc_name h;
     h_realloc := h_realloc h; h_malloc := h_malloc h;
     h_truncate := h_truncate h; h_mknod := h_mknod h; h_mkdir := h_mkdir h;
     h_unlink := h_unlink h; h_rmdir := h_rmdir h; h_rename := h_rename h;
     h_open := f; h_pread := h_pread h; h_pwrite := h_pwrite h;
     h_statfs := h_statfs h; h_opendir := h_opendir h;
     h_readdir := h_readdir h; h_write := h_write h |}.

Definition with_pwrite (f : Z -> list byte -> Z -> Z -> sysres Z) (h : host)
    : host :=
  {| h_lstat := h_lstat h; h_calloc := h_calloc h;
     h_malloc_name := h_malloc_name h;
     h_realloc := h_realloc h; h_malloc := h_malloc h;
     h_truncate := h_truncate h; h_mknod := h_mknod h; h_mkdir := h_mkdir h;
     h_unlink := h_unlink h; h_rmdir := h_rmdir h; h_rename := h_rename h;
     h_open := h_open h; h_pread := h_pread h; h_pwrite := f;
     h_statfs := h_statfs h; h_opendir := h_opendir h;
     h_readdir := h_readdir h; h_write := h_write h |}.

Definition with_write (f : fuse_out_header -> sysres unit) (h : host)
    : host :=
  {| h_lstat := h_lstat h; h_calloc := h_calloc h;
     h_malloc_name := h_malloc_name h;
     h_realloc := h_realloc h; h_malloc := h_malloc h;
     h_truncate := h_truncate h; h_mknod := h_mknod h; h_mkdir := h_mkdir h;
     h_unlink := h_unlink h; h_rmdir := h_rmdir h; h_rename := h_rename h;
     h_open := h_open h; h_pread := h_pread h; h_pwrite := h_pwrite h;
     h_statfs := h_statfs h; h_opendir := h_opendir h;
     h_readdir := h_readdir h; h_write := f |}.

Definition process_start (root_addr : ptr) (junk : node) (lower_case : bool)
    : state :=
  {| next_generation := 0; next_node_id := 0; fd := 0; fuse_all := NULL;
     root := root_addr;
     nodes := {[ root_addr := junk ]};
     handles := ∅; dirhandles := ∅;
     errno := 0; force_lower_case := lower_case; wire := [] |}.

(** The messages written, or tried, on the channel so far. *)
Definition msg_of (e : wire_event) : fuse_out_header :=
  match e with
  | Sent m => m
  | Lost m => m
  end.

Definition replies (w : state) : list fuse_out_header := map msg_of (wire w).

(** The nodes that have [p] as their parent's child or as their sibling's
    next: who points at [p] in the tree. *)
Definition linked_from (w : state) (p : ptr) : list Z :=
  map fst
    (filter (fun kn => bool_decide (child (snd kn) = p)
                       || bool_decide (next (snd kn) = p))
       (map_to_list (nodes w))).

(** ** Vocabulary of the statements *)

Section Vocabulary.
Context {H : headers}.

(** A stat record with another mode. *)
Definition with_mode (m : Z) (s : stat) : stat :=
  {| st_ino := st_ino s; st_size := st_size s; st_blocks := st_blocks s;
     st_atime := st_atime s; st_mtime := st_mtime s; st_ctime := st_ctime s;
     st_atime_nsec := st_atime_nsec s; st_mtime_nsec := st_mtime_nsec s;
     st_ctime_nsec := st_ctime_nsec s; st_mode := m;
     st_nlink := st_nlink s |}.

(** The root node [fuse_init] leaves behind: [gen] keeps what the
    uninitialised structure held, the name is the path unless [realloc]
    failed. *)
Definition init_root (junk : node) (h : host) (path : string) : node :=
  {| nid := FUSE_ROOT_ID; gen := gen junk; next := NULL; child := NULL;
     all := NULL; parent := NULL; refcount := 2;
     namelen := u32 (strlen path);
     name := if h_realloc h then Some path else None |}.

Definition init_state (junk : node) (h : host) (fd : Z) (path : string)
    (w : state) : state :=
  let w1 :=
    set_fuse_all (root w)
      (set_next_generation 0 (set_next_node_id 2 (set_fd fd w))) in
  let w2 := store (root w) (init_root junk h path) w1 in
  if h_realloc h then w2 else set_errno ENOMEM w2.

(** The entry a LOOKUP replies for node [n] and host record [st], and a
    node with one more reference. *)
Definition entry_for (n : node) (st : stat) : body :=
  entry_out
    {| e_nodeid := nid n; e_generation := gen n;
       e_entry_valid := 10; e_attr_valid := 10;
       e_attr := set_attr_ino (nid n) (attr_from_stat zero_attr st) |}.

Definition bump (n : node) : node := set_refcount (u32 (refcount n + 1)) n.

(** The node a LOOKUP creates below [dir] (which holds [p]) at address [a],
    as the reply finds it, and the state it leaves. *)
Definition created_node (w : state) (dir : ptr) (p : node) (a : ptr)
    (nm : string) : node :=
  {| nid := ptr_to_id a; gen := next_generation w;
     next := child p; child := NULL; all := fuse_all w; parent := dir;
     refcount := 1; namelen := u32 (s32 (strlen nm)); name := Some nm |}.

Definition adopt (a : ptr) (p : node) : node :=
  set_refcount (u32 (refcount p + 1)) (set_child a p).

Definition created_state (w : state) (dir : ptr) (p : node) (a : ptr)
    (nm : string) : state :=
  set_fuse_all a
    (store a (created_node w dir p a nm)
       (store dir (adopt a p)
          (set_next_generation (u64 (next_generation w + 1))
             (set_next_node_id (u64 (next_node_id w + 1)) w)))).

(** [w'] has every node of [w], with the same name and parent: what a path
    is built from. *)
Definition same_names (w w' : state) : Prop :=
  force_lower_case w' = force_lower_case w
  /\ forall q n, nodes w !! q = Some n ->
       exists n', nodes w' !! q = Some n'
                  /\ name n' = name n /\ namelen n' = namelen n
                  /\ parent n' = parent n.

(** The memory after [k] lookups of a name first created below [dir] (which
    held [p] in [w]) at address [a]. *)
Definition after_lookups (w : state) (dir : ptr) (p : node) (a : ptr)
    (nm : string) (k : Z) (w' : state) : Prop :=
  root w' = root w
  /\ force_lower_case w' = force_lower_case w
  /\ nodes w'
     = <[a := set_refcount k (created_node w dir p a nm)]>
         (<[dir := adopt a p]> (nodes w)).

(** Every node of [w'] was a node of [w], and its reference count, a 32-bit
    count in [w], is in [w'] no higher and not below zero. *)
Definition counts_fall (w w' : state) : Prop :=
  forall q n', nodes w' !! q = Some n' ->
    exists n, nodes w !! q = Some n
              /\ (0 <= refcount n < 2 ^ 32 -> 0 <= refcount n' <= refcount n).

(** The root of [w'] is the root of [w] and, if it was a live node, still
    is one. *)
Definition root_stays (w w' : state) : Prop :=
  root w' = root w
  /\ (is_Some (nodes w !! root w) -> is_Some (nodes w' !! root w')).

(** A script of FORGET messages and read errors. *)
Definition is_forget (r : read_result) : Prop :=
  match r with
  | ReadErr _ => True
  | ReadMsg _ _ (FUSE_FORGET _) _ => True
  | ReadMsg _ _ _ _ => False
  end.

(** [w'] has the channel history of [w]; [w'] has it and one message
    more. *)
Definition quiet (w w' : state) : Prop := wire w' = wire w.

Definition one_more (w w' : state) : Prop :=
  exists m, replies w' = replies w ++ [m].



End Vocabulary.

(** ** Vocabulary of the further properties *)

Section Vocabulary_more.
Context {H : headers}.

(** An upper-case letter of the C locale, and a string without any. *)
Definition upper_case (c : ascii) : bool :=
  ((65 <=? N_of_ascii c) && (N_of_ascii c <=? 90))%N.

Fixpoint no_upper_case (s : string) : bool :=
  match s with
  | EmptyString => true
  | String c r => negb (upper_case c) && no_upper_case r
  end.

(** A byte that is negative in a signed [char] and is not [EOF] there, and
    a string without any. *)
Definition high_byte (c : ascii) : bool :=
  ((128 <=? N_of_ascii c) && (N_of_ascii c <=? 254))%N.

Fixpoint no_high_byte (s : string) : bool :=
  match s with
  | EmptyString => true
  | String c r => negb (high_byte c) && no_high_byte r
  end.

(** From [c], following [next] through the live nodes [l], one arrives at
    [c']; the sibling list that starts at [c] is [l] when one arrives at
    null. *)
Fixpoint segment (w : state) (c : Z) (l : list Z) (c' : Z) : bool :=
  match l with
  | [] => c =? c'
  | a :: l =>
      (c =? a) && negb (a =? NULL)
      && match nodes w !! a with
         | Some n => segment w (next n) l c'
         | None => false
         end
  end.

Definition chain (w : state) (c : Z) (l : list Z) : bool :=
  segment w c l NULL.

(** The node at [a] carries [id] as its node id. *)
Definition has_id (w : state) (id : Z) (a : Z) : bool :=
  match nodes w !! a with
  | Some n => nid n =? id
  | None => false
  end.

(** The node at [a] has the name [nm]. *)
Definition has_name (w : state) (nm : string) (a : Z) : bool :=
  match nodes w !! a with
  | Some n =>
      match name n with
      | Some s => String.eqb nm s
      | None => false
      end
  | None => false
  end.

(** Every node of [l] has a name buffer. *)
Definition named (w : state) (l : list Z) : bool :=
  forallb (fun a => match nodes w !! a with
                    | Some n => bool_decide (is_Some (name n))
                    | None => false
                    end) l.

(** The first element of [l] that satisfies [f], or null. *)
Definition first_with (f : Z -> bool) (l : list Z) : Z :=
  match List.find f l with
  | Some a => a
  | None => NULL
  end.

(** The unlinking that [remove_child] performs once it has found the node
    [t] behind [prev] ([prev] null: [t] is the first child). *)
Definition unlink (dir prev t : Z) (w : state) : result (Z * state) :=
  let* n := load t w in
  let* w :=
    if prev =? NULL then upd dir (set_child (next n)) w
    else upd prev (set_next (next n)) w in
  let* w := upd t (set_next NULL) w in
  let* w := upd t (set_parent NULL) w in
  let* w := dec_refcount dir w in
  Ok (t, w).

(** [a] is not in [l]. *)
Definition absent (a : Z) (l : list Z) : bool :=
  forallb (fun b => negb (b =? a)) l.

(** The node [n] after a RENAME to [nm] that put it first below [dir],
    in front of [c]. *)
Definition moved_node (n : node) (nm : string) (dir c : Z) : node :=
  set_next c
    (set_parent dir
       (set_name (Some nm) (set_namelen (u32 (strlen nm)) n))).

(** The error field a handler replies after a host call that returns a
    status. *)
Definition status_reply {A : Type} (r : sysres A) : Z :=
  match r with
  | SysOk _ => 0
  | SysErr e => - e
  end.

(** [w'] has the channel history of [w] and [k] messages more, each
    carrying [uniq]. *)
Definition answers (uniq : Z) (k : nat) (w w' : state) : Prop :=
  exists ms, replies w' = replies w ++ ms
             /\ length ms = k
             /\ Forall (fun m => unique m = uniq) ms.

(** How many messages the handler of a request writes. *)
Definition reply_count (req : request) (k : nat) : Prop :=
  match req with
  | FUSE_FORGET _ => k = 0%nat
  | FUSE_WRITE _ _ _ _ => k = 1%nat \/ k = 2%nat
  | _ => k = 1%nat
  end.

(** The request was read whole: [len] bytes, at least a header, and the
    header says [len]. *)
Definition framed (hdr : fuse_in_header) (len : Z) : bool :=
  negb ((len <? sizeof_fuse_in_header) || negb (hdr_len hdr =? len)).

(** The two states differ in [errno] at most. *)
Definition but_errno (w w' : state) : Prop := set_errno 0 w' = set_errno 0 w.

(** A call that [recursive_fix_files] makes, with every path in it short
    enough for a buffer of [PATH_MAX] bytes. *)
Definition call_fits (c : call) : bool :=
  match c with
  | sys_opendir p => strlen p <? PATH_MAX
  | sys_closedir => true
  | sys_chown p _ _ => strlen p <? PATH_MAX
  | sys_rename o n => (strlen o <? PATH_MAX) && (strlen n <? PATH_MAX)
  | _ => false
  end.

(** The names of a listing are names of [struct dirent]: at most 255
    bytes. *)
Fixpoint short_names (l : listing) : bool :=
  match l with
  | no_dir _ => true
  | opened s => short_names_in s
  end
with short_names_in (s : stream) : bool :=
  match s with
  | end_of_dir => true
  | entry de _ _ sub rest =>
      (strlen (d_name de) <? 256) && short_names sub && short_names_in rest
  end.

(** A [rename] in the trace moves a path to its normalized form. *)
Definition rename_normalizes (w : state) (c : call) : Prop :=
  match c with
  | sys_rename o n => n = normalize_name w o
  | _ => True
  end.

(** What a run that returns has done. *)
Definition fixed (w : state) (t : list call) (w' : state) : Prop :=
  but_errno w w'
  /\ forallb call_fits t = true
  /\ Forall (rename_normalizes w) t.

(** The variables of [main] before the first argument is read. *)
Definition main_start : main_vars :=
  {| m_path := None; m_fix_files := false;
     m_uid := u32 (-1); m_gid := u32 (-1) |}.

End Vocabulary_more.

(** ** A session

    The daemon started on [/data/media] ([struct fuse] at address 65536),
    a host that has a five-byte file [hello] of mode 0644 there and hands
    out a node at 4096 and a handle at 8192, the session after a LOOKUP of
    [hello], and the session after an OPEN that returned descriptor 7. *)
Definition boot_host : host := with_memory NULL NULL bare_host.

Definition fresh_session : state :=
  init_state zero_node boot_host 3 "/data/media"
    (process_start 65536 zero_node false).

Definition root_node : node := init_root zero_node boot_host "/data/media".

Definition hello_stat : stat :=
  {| st_ino := 77; st_size := 5; st_blocks := 8;
     st_atime := 0; st_mtime := 0; st_ctime := 0;
     st_atime_nsec := 0; st_mtime_nsec := 0; st_ctime_nsec := 0;
     st_mode := 33188; st_nlink := 1 |}.

Definition hello_host : host :=
  with_lstat
    (fun p =>
       match p with
       | Some s =>
           if String.eqb s "//data/media/hello" then SysOk hello_stat
           else SysErr ENOENT
       | None => SysErr EFAULT
       end)
    (with_memory 4096 8192 bare_host).

Definition from_root (len uniq : Z) : fuse_in_header :=
  {| hdr_len := len; hdr_unique := uniq; hdr_nodeid := FUSE_ROOT_ID |}.

Definition to_node (a : ptr) (len uniq : Z) : fuse_in_header :=
  {| hdr_len := len; hdr_unique := uniq; hdr_nodeid := ptr_to_id a |}.

Definition hello_session : state :=
  fuse_reply hello_host 1
    (entry_for (H := android)
       (created_node fresh_session 65536 root_node 4096 "hello") hello_stat)
    (created_state fresh_session 65536 root_node 4096 "hello").

Definition open_host : host := with_open (fun _ _ => SysOk 7) hello_host.

Definition opened_session : state :=
  fuse_reply open_host 2 (open_out (ptr_to_id 8192) (Some 0))
    (set_handles (<[8192 := 7]> (handles fresh_session)) fresh_session).

Definition writing_host : host :=
  with_pwrite (fun _ _ size _ => SysOk size) bare_host.

Definition deaf_kernel (h : host) : host :=
  with_write (fun _ => SysErr EIO) h.

(** ** More sessions

    The session after a second LOOKUP, of [world], that created a node at
    12288 in front of [hello]; the daemon started with [-l] on
    [/Data/Media]; [hello_session] with [hello] taken out of the root's
    list; a name that fills the path buffer; a host that has the file but
    no memory; a small tree for [recursive_fix_files]; and a start of the
    daemon as [sdcard -f /data/media 1015 1015] that serves one LOOKUP
    before [read] fails. *)
Definition hello_node : node :=
  created_node fresh_session 65536 root_node 4096 "hello".

Definition hello_root : node := adopt 4096 root_node.

Definition world_host : host :=
  with_lstat
    (fun p =>
       match p with
       | Some s =>
           if String.eqb s "//data/media/world" then SysOk hello_stat
           else SysErr ENOENT
       | None => SysErr EFAULT
       end)
    (with_memory 12288 8192 bare_host).

Definition world_node : node :=
  created_node hello_session 65536 hello_root 12288 "world".

Definition pair_session : state :=
  fuse_reply world_host 2 (entry_for (H := android) world_node hello_stat)
    (created_state hello_session 65536 hello_root 12288 "world").

Definition lower_session : state :=
  init_state zero_node boot_host 3 "/Data/Media"
    (process_start 65536 zero_node true).

Definition unlinked_session : state :=
  store 65536 (set_refcount 2 (set_child NULL hello_root))
    (store 4096 (set_parent NULL (set_next NULL hello_node)) hello_session).

(** The bytes c9 74 e9: a name in Latin-1, no letter of the C locale in
    upper case. *)
Definition latin1_name : string :=
  String "201" (String "t" (String "233" EmptyString)).

Definition long_name : string :=
  string_of_list_ascii (repeat "a"%char 1023).

Definition no_memory_host : host :=
  with_lstat (fun _ => SysOk hello_stat) bare_host.

Definition music : listing :=
  opened
    (entry {| d_type := DT_DIR; d_name := "." |} (SysOk tt) (SysOk tt)
       (no_dir ENOENT)
       (entry {| d_type := DT_DIR; d_name := "Music" |} (SysOk tt)
          (SysErr ENOENT)
          (opened
             (entry {| d_type := 8; d_name := "Song.MP3" |} (SysOk tt)
                (SysOk tt) (no_dir ENOENT) end_of_dir))
          (entry {| d_type := 8; d_name := "notes.txt" |} (SysErr EIO)
             (SysOk tt) (no_dir ENOENT) end_of_dir))).

(** [strtoul] in base 10 on a string of digits that stands for a small
    number. *)
Fixpoint digits (s : string) (acc : Z) : Z :=
  match s with
  | EmptyString => acc
  | String c r =>
      let n := Z.of_N (N_of_ascii c) in
      if (48 <=? n) && (n <=? 57) then digits r (10 * acc + (n - 48))
      else acc
  end.

Definition sample_boot : boot :=
  {| b_strtoul := fun s => digits s 0;
     b_umount2 := SysErr EINVAL;
     b_open := SysOk 3;
     b_mount := SysOk tt;
     b_listing := music;
     b_setgid := SysOk tt;
     b_setuid := SysOk tt;
     b_host := boot_host;
     b_script := [ReadMsg 46 (from_root 46 1) (FUSE_LOOKUP "hello") hello_host;
                  ReadErr EIO] |}.

Definition no_device (b : boot) : boot :=
  {| b_strtoul := b_strtoul b; b_umount2 := b_umount2 b;
     b_open := SysErr ENOENT; b_mount := b_mount b;
     b_listing := b_listing b; b_setgid := b_setgid b;
     b_setuid := b_setuid b; b_host := b_host b;
     b_script := b_script b |}.

(** * Properties *)

Section Properties.
Context {H : headers}.

(** ** Memory lemmas *)

Ltac heap_step :=
  first
    [ rewrite lookup_insert_eq
    | rewrite lookup_insert_ne by congruence
    | rewrite lookup_delete_eq
    | rewrite lookup_delete_ne by congruence
    | progress simpl ].


Lemma load_lookup (p : ptr) (w : state) (n : node) :
  nodes w !! p = Some n -> load p w = Ok n.
Proof. intros E. unfold load. now rewrite E. Qed.

Lemma load_store_eq (p : ptr) (n : node) (w : state) :
  load p (store p n w) = Ok n.
Proof. unfold load, store. simpl. now rewrite lookup_insert_eq. Qed.

Lemma load_store_ne (p q : ptr) (n : node) (w : state) :
  p <> q -> load q (store p n w) = load q w.
Proof. intros E. unfold load, store. simpl. now rewrite lookup_insert_ne. Qed.

Lemma upd_lookup (p : ptr) (f : node -> node) (w : state) (n : node) :
  nodes w !! p = Some n -> upd p f w = Ok (store p (f n) w).
Proof. intros E. unfold upd. now rewrite (load_lookup _ _ _ E). Qed.

Lemma store_store_eq (p : ptr) (n m : node) (w : state) :
  store p m (store p n w) = store p m w.
Proof. unfold store. simpl. now rewrite insert_insert_eq. Qed.

Lemma store_same (p : ptr) (n : node) (w : state) :
  nodes w !! p = Some n -> store p n w = w.
Proof.
  intros E. destruct w. unfold store, set_nodes. simpl in *. f_equal.
  now apply insert_id.
Qed.

(** ** Machine integers *)

Lemma u32_small (x : Z) : 0 <= x < 2 ^ 32 -> u32 x = x.
Proof. intros R. unfold u32. now apply Z.mod_small. Qed.

Lemma land_o0100 (x : Z) :
  Z.land x o0100 = if Z.testbit x 6 then o0100 else 0.
Proof.
  change o0100 with (2 ^ 6).
  apply Z.bits_inj'. intros n Hn. rewrite Z.land_spec.
  rewrite Z.pow2_bits_eqb by lia.
  destruct (Z.testbit x 6) eqn:E.
  - rewrite Z.pow2_bits_eqb by lia.
    destruct (Z.eqb_spec 6 n) as [<- | Hne].
    + now rewrite E.
    + apply andb_false_r.
  - rewrite Z.bits_0.
    destruct (Z.eqb_spec 6 n) as [<- | Hne].
    + now rewrite E.
    + apply andb_false_r.
Qed.

Lemma force_low_bits (m perm : Z) :
  0 <= perm < 2 ^ 9 ->
  Z.land (Z.lor (Z.land m (u32 (Z.lnot o0777))) perm) o0777 = perm.
Proof.
  intros R. rewrite Z.land_lor_distr_l, <- Z.land_assoc.
  change (Z.land (u32 (Z.lnot o0777)) o0777) with 0.
  rewrite Z.land_0_r, Z.lor_0_l.
  change o0777 with (Z.ones 9). rewrite Z.land_ones by lia.
  now apply Z.mod_small.
Qed.

Lemma force_high_bits (m perm : Z) :
  0 <= m < 2 ^ 32 -> 0 <= perm < 2 ^ 9 ->
  Z.shiftr (Z.lor (Z.land m (u32 (Z.lnot o0777))) perm) 9 = Z.shiftr m 9.
Proof.
  intros Rm Rp. rewrite Z.shiftr_lor, Z.shiftr_land.
  rewrite (Z.shiftr_div_pow2 perm) by lia.
  rewrite (Z.div_small perm) by lia. rewrite Z.lor_0_r.
  change (Z.shiftr (u32 (Z.lnot o0777)) 9) with (Z.ones 23).
  rewrite Z.land_ones by lia. apply Z.mod_small.
  rewrite Z.shiftr_div_pow2 by lia. split.
  - apply Z.div_pos; lia.
  - apply Z.div_lt_upper_bound; lia.
Qed.

(** ** The attribute mapper *)

(** C8.  For every host stat record, [attr_from_stat] yields a mode whose
    low nine bits are 0775 when bit 0100 of the host mode is set and 0664
    otherwise, with the bits above them those of the host mode; uid 0; gid
    the sdcard group id.  Host mode 0600 gives 0664 and 0700 gives 0775. *)
Theorem attr_from_stat_policy (attr : fuse_attr) (s : stat) :
  let a := attr_from_stat attr s in
  Z.land (attr_mode a) o0777
    = (if Z.testbit (st_mode s) 6 then o0775 else o0664)
  /\ Z.shiftr (attr_mode a) 9 = Z.shiftr (u32 (st_mode s)) 9
  /\ attr_uid a = 0
  /\ attr_gid a = AID_SDCARD_RW
  /\ attr_mode (attr_from_stat attr (with_mode 384 s)) = o0664
  /\ attr_mode (attr_from_stat attr (with_mode 448 s)) = o0775.
Proof.
  assert (R : 0 <= u32 (st_mode s) < 2 ^ 32)
    by (apply Z.mod_pos_bound; lia).
  assert (B : Z.testbit (u32 (st_mode s)) 6 = Z.testbit (st_mode s) 6)
    by (unfold u32; apply Z.mod_pow2_bits_low; lia).
  cbv zeta. unfold attr_from_stat. cbn [attr_mode attr_uid attr_gid].
  rewrite land_o0100, B.
  repeat apply conj; try reflexivity.
  - destruct (Z.testbit (st_mode s) 6).
    + change (o0100 =? 0) with false. cbv iota.
      apply force_low_bits. unfold o0775. lia.
    + change (0 =? 0) with true. cbv iota.
      apply force_low_bits. unfold o0664. lia.
  - destruct (Z.testbit (st_mode s) 6).
    + change (o0100 =? 0) with false. cbv iota.
      apply force_high_bits; [exact R | unfold o0775; lia].
    + change (0 =? 0) with true. cbv iota.
      apply force_high_bits; [exact R | unfold o0664; lia].
Qed.

(** ** Reference counts *)

Lemma set_refcount_same (n : node) : set_refcount (refcount n) n = n.
Proof. now destruct n. Qed.

Lemma dec_refcount_live (np : ptr) (w : state) (n : node) :
  nodes w !! np = Some n -> 0 < refcount n < 2 ^ 32 ->
  dec_refcount np w = Ok (store np (set_refcount (refcount n - 1) n) w).
Proof.
  intros E R. unfold dec_refcount. rewrite (load_lookup _ _ _ E). simpl.
  destruct (Z.gtb_spec (refcount n) 0) as [_ | Hle]; [| lia].
  now rewrite u32_small by lia.
Qed.

Lemma dec_refcount_zero (np : ptr) (w : state) (n : node) :
  nodes w !! np = Some n -> refcount n = 0 -> dec_refcount np w = Ok w.
Proof.
  intros E R. unfold dec_refcount. rewrite (load_lookup _ _ _ E). simpl.
  now rewrite R.
Qed.

Lemma node_release_unfold (fuel : nat) (np : ptr) (w : state) :
  node_release (S fuel) np w =
  (let* w := dec_refcount np w in
   let* n := load np w in
   if refcount n =? 0 then
     let* p := load (parent n) w in
     let* w :=
       if child p =? np then
         let* c := load (child p) w in
         upd (parent n) (set_child (next c)) w
       else
         let* node2 := find_prev fuel w (child p) np in
         let* n := load np w in
         upd node2 (set_next (next n)) w in
     let* n := load np w in
     let* w := node_release fuel (parent n) w in
     let* w := upd np (set_parent NULL) w in
     let* w := upd np (set_next NULL) w in
     destroy np w
   else Ok w).
Proof. reflexivity. Qed.

(** A release of a node that keeps references is the decrement alone. *)
Lemma node_release_live (fuel : nat) (np : ptr) (w : state) (n : node) :
  nodes w !! np = Some n -> 1 < refcount n < 2 ^ 32 ->
  node_release (S fuel) np w
  = Ok (store np (set_refcount (refcount n - 1) n) w).
Proof.
  intros E R. rewrite node_release_unfold.
  rewrite (dec_refcount_live _ _ _ E) by lia. simpl.
  rewrite load_store_eq. simpl.
  destruct (Z.eqb_spec (refcount n - 1) 0) as [Hz | _]; [lia | reflexivity].
Qed.

Lemma forget_loop_live (fuel : nat) (k : nat) (np : ptr) (w : state)
    (n : node) :
  nodes w !! np = Some n -> Z.of_nat k < refcount n < 2 ^ 32 ->
  forget_loop (S fuel) k np w
  = Ok (store np (set_refcount (refcount n - Z.of_nat k) n) w).
Proof.
  revert w n. induction k as [| k IH]; intros w n E R.
  - simpl forget_loop. rewrite Z.sub_0_r, set_refcount_same.
    now rewrite (store_same _ _ _ E).
  - cbn [forget_loop]. rewrite (node_release_live _ _ _ _ E) by lia.
    simpl bind.
    rewrite (IH _ (set_refcount (refcount n - 1) n)).
    + rewrite store_store_eq. cbn [refcount set_refcount].
      replace (refcount n - 1 - Z.of_nat k)
        with (refcount n - Z.of_nat (S k)) by lia.
      reflexivity.
    + unfold store. simpl. apply lookup_insert_eq.
    + cbn [refcount set_refcount]. lia.
Qed.

(** *** No release wraps a count *)

Lemma bind_ok {A B : Type} (r : result A) (k : A -> result B) (b : B) :
  bind r k = Ok b -> exists a, r = Ok a /\ k a = Ok b.
Proof.
  destruct r as [a | |]; cbn [bind]; intros E; try discriminate E.
  now exists a.
Qed.

Lemma counts_fall_refl (w : state) : counts_fall w w.
Proof. intros q n' L. exists n'. split; [exact L | lia]. Qed.

Lemma counts_fall_trans (w1 w2 w3 : state) :
  counts_fall w1 w2 -> counts_fall w2 w3 -> counts_fall w1 w3.
Proof.
  intros F12 F23 q n3 L3.
  destruct (F23 _ _ L3) as (n2 & L2 & R23).
  destruct (F12 _ _ L2) as (n1 & L1 & R12).
  exists n1. split; [exact L1 | lia].
Qed.

Lemma upd_counts_fall (np : ptr) (f : node -> node) (w w' : state) :
  (forall n, refcount (f n) = refcount n) ->
  upd np f w = Ok w' -> counts_fall w w'.
Proof.
  intros Hf E. unfold upd, load in E.
  destruct (nodes w !! np) as [n |] eqn:L; [| discriminate E].
  cbn [bind] in E. injection E as <-. intros q n' L'.
  unfold store in L'. cbn [nodes set_nodes] in L'.
  destruct (decide (q = np)) as [-> | Hne].
  - rewrite lookup_insert_eq in L'. injection L' as <-.
    exists n. split; [exact L | rewrite Hf; lia].
  - rewrite lookup_insert_ne in L' by congruence.
    exists n'. split; [exact L' | lia].
Qed.

Lemma dec_refcount_counts_fall (np : ptr) (w w' : state) :
  dec_refcount np w = Ok w' -> counts_fall w w'.
Proof.
  intros E. unfold dec_refcount, load in E.
  destruct (nodes w !! np) as [n |] eqn:L; [| discriminate E].
  cbn [bind] in E.
  destruct (Z.gtb_spec (refcount n) 0) as [Hgt | Hle];
    injection E as <-; [| apply counts_fall_refl].
  intros q n' L'. unfold store in L'. cbn [nodes set_nodes] in L'.
  destruct (decide (q = np)) as [-> | Hne].
  - rewrite lookup_insert_eq in L'. injection L' as <-.
    exists n. split; [exact L |]. intros R.
    cbn [refcount set_refcount]. rewrite u32_small by lia. lia.
  - rewrite lookup_insert_ne in L' by congruence.
    exists n'. split; [exact L' | lia].
Qed.

Lemma destroy_counts_fall (np : ptr) (w w' : state) :
  destroy np w = Ok w' -> counts_fall w w'.
Proof.
  intros E. unfold destroy, load in E.
  destruct (nodes w !! np) as [n |]; [| discriminate E].
  cbn [bind] in E.
  destruct (negb (namelen n =? 0) && _); [discriminate E |].
  destruct (np =? root w); [discriminate E |]. injection E as <-.
  intros q n' L'. unfold free_node in L'. cbn [nodes set_nodes] in L'.
  destruct (decide (q = np)) as [-> | Hne].
  - rewrite lookup_delete_eq in L'. discriminate L'.
  - rewrite lookup_delete_ne in L' by congruence.
    exists n'. split; [exact L' | lia].
Qed.

Lemma node_release_counts_fall (fuel : nat) :
  forall (np : ptr) (w w' : state),
    node_release fuel np w = Ok w' -> counts_fall w w'.
Proof.
  induction fuel as [| fuel IH]; intros np w w' E; [discriminate E |].
  rewrite node_release_unfold in E.
  apply bind_ok in E as (w1 & E1 & E).
  apply bind_ok in E as (n1 & _ & E).
  apply dec_refcount_counts_fall in E1.
  destruct (refcount n1 =? 0);
    [| injection E as <-; exact E1].
  apply bind_ok in E as (p1 & _ & E).
  apply bind_ok in E as (w2 & E2 & E).
  apply bind_ok in E as (n2 & _ & E).
  apply bind_ok in E as (w3 & E3 & E).
  apply bind_ok in E as (w4 & E4 & E).
  apply bind_ok in E as (w5 & E5 & E).
  assert (F2 : counts_fall w1 w2).
  { destruct (child p1 =? np).
    - apply bind_ok in E2 as (c & _ & E2).
      now apply upd_counts_fall in E2.
    - apply bind_ok in E2 as (node2 & _ & E2).
      apply bind_ok in E2 as (n & _ & E2).
      now apply upd_counts_fall in E2. }
  apply IH in E3. apply upd_counts_fall in E4; [| reflexivity].
  apply upd_counts_fall in E5; [| reflexivity].
  apply destroy_counts_fall in E.
  repeat (eapply counts_fall_trans; [eassumption |]).
  apply counts_fall_refl.
Qed.

(** C10.  The decrement is guarded: [dec_refcount] leaves
    [max (refcount - 1) 0] in the node, which stays a 32-bit count; at zero
    it changes nothing.  Releasing a node that keeps references is that
    decrement, and no release, whatever it goes on to do, leaves the node
    with a count above the one it had or below zero. *)
Theorem dec_refcount_guarded (np : ptr) (w : state) (n : node) :
  nodes w !! np = Some n ->
  0 <= refcount n < 2 ^ 32 ->
  exists w' n',
    dec_refcount np w = Ok w'
    /\ nodes w' !! np = Some n'
    /\ refcount n' = Z.max (refcount n - 1) 0
    /\ 0 <= refcount n' < 2 ^ 32
    /\ (refcount n = 0 -> w' = w)
    /\ (forall fuel, 1 < refcount n ->
          node_release (S fuel) np w = Ok w')
    /\ (forall fuel w1 n1,
          node_release fuel np w = Ok w1 -> nodes w1 !! np = Some n1 ->
          0 <= refcount n1 <= refcount n).
Proof.
  intros E R.
  assert (W : forall fuel w1 n1,
             node_release fuel np w = Ok w1 -> nodes w1 !! np = Some n1 ->
             0 <= refcount n1 <= refcount n).
  { intros fuel w1 n1 E1 L1.
    destruct (node_release_counts_fall _ _ _ _ E1 _ _ L1) as (n0 & L0 & B).
    rewrite E in L0. injection L0 as <-. now apply B. }
  destruct (Z.eq_dec (refcount n) 0) as [Hz | Hnz].
  - exists w, n. rewrite (dec_refcount_zero _ _ _ E Hz).
    repeat apply conj; try easy; lia.
  - exists (store np (set_refcount (refcount n - 1) n) w),
      (set_refcount (refcount n - 1) n).
    rewrite (dec_refcount_live _ _ _ E) by lia.
    repeat apply conj; try easy.
    + unfold store. simpl. apply lookup_insert_eq.
    + simpl. lia.
    + simpl. lia.
    + simpl. lia.
    + intros fuel R1. apply (node_release_live _ _ _ _ E). lia.
Qed.

(** ** Initialisation *)

Lemma fuse_init_ok (h : host) (fd : Z) (path : string) (w : state)
    (junk : node) :
  nodes w !! root w = Some junk ->
  fuse_init h fd path w = Ok (init_state junk h fd path w).
Proof.
  intros E. destruct w as [g i f a r ns hs ds e lc tr].
  unfold fuse_init, init_state, rename_node, upd, load, store, set_nodes.
  simpl in *. rewrite E. simpl.
  repeat (rewrite lookup_insert_eq; simpl).
  unfold init_root. destruct (h_realloc h); simpl.
  - rewrite ?lookup_insert_eq. simpl. now rewrite !insert_insert_eq.
  - unfold set_errno. simpl. now rewrite !insert_insert_eq.
Qed.

Lemma fuse_init_inv (h : host) (fd : Z) (path : string) (w w' : state) :
  fuse_init h fd path w = Ok w' ->
  exists junk, nodes w !! root w = Some junk
               /\ w' = init_state junk h fd path w.
Proof.
  intros E. destruct (nodes w !! root w) as [junk |] eqn:L.
  - exists junk. split; [reflexivity |].
    rewrite (fuse_init_ok _ _ _ _ _ L) in E. now injection E.
  - exfalso. unfold fuse_init, upd, load in E. simpl in E.
    rewrite L in E. discriminate E.
Qed.

(** ** LOOKUP *)

(** A LOOKUP of a name the parent already has: the node gains a reference
    and the entry is written, whatever becomes of the write. *)
Lemma lookup_entry_existing (fuel : nat) (h : host) (dir : ptr)
    (nm : string) (uniq : Z) (w : state) (path : option string) (st : stat)
    (np : ptr) (n : node) :
  node_get_path w dir (Some nm) = Ok path ->
  h_lstat h path = SysOk st ->
  lookup_child_by_name fuel w dir nm = Ok np ->
  np <> NULL ->
  nodes w !! np = Some n ->
  lookup_entry fuel h dir nm uniq w
  = Ok (fuse_reply h uniq (entry_for (bump n) st) (store np (bump n) w)).
Proof.
  intros P L C N E. unfold lookup_entry, node_lookup.
  rewrite P. cbn [bind]. unfold sys. rewrite L, C. cbn [bind].
  destruct (Z.eqb_spec np NULL) as [-> | _]; [contradiction |].
  cbn [bind]. rewrite (load_lookup _ _ _ E).
  destruct (Z.eqb_spec np NULL) as [-> | _]; [contradiction |].
  cbn [bind].
  destruct (Z.eqb_spec np NULL) as [-> | _]; [contradiction |].
  rewrite (upd_lookup _ _ _ _ E). cbn [bind]. rewrite load_store_eq.
  reflexivity.
Qed.

Lemma lookup_entry_creates (fuel : nat) (h : host) (dir : ptr)
    (nm : string) (uniq : Z) (w : state) (path : option string) (st : stat)
    (p : node) (a : ptr) :
  nodes w !! dir = Some p ->
  node_get_path w dir (Some nm) = Ok path ->
  h_lstat h path = SysOk st ->
  lookup_child_by_name fuel w dir nm = Ok NULL ->
  h_calloc h = a -> a <> NULL -> nodes w !! a = None ->
  h_malloc_name h = true ->
  lookup_entry fuel h dir nm uniq w
  = Ok (fuse_reply h uniq (entry_for (created_node w dir p a nm) st)
          (created_state w dir p a nm)).
Proof.
  intros E P L C A N F M.
  assert (D : a <> dir) by (intros ->; rewrite E in F; discriminate F).
  unfold lookup_entry, node_lookup.
  rewrite P. cbn [bind]. unfold sys. rewrite L, C. cbn [bind].
  change (NULL =? NULL) with true. cbv iota.
  unfold node_create. rewrite A, M.
  assert (Z : (a =? NULL) = false) by (apply Z.eqb_neq; exact N).
  rewrite Z. cbn [negb bind]. unfold add_node_to_parent.
  destruct w as [g i f al r ns hs ds e lc tr].
  unfold upd, load, store, set_nodes, set_fuse_all, set_next_node_id,
    set_next_generation, created_state, created_node, adopt in *.
  simpl in *.
  repeat first [heap_step | rewrite E | rewrite Z].
  unfold fuse_reply, store, set_nodes, set_fuse_all, set_next_generation,
    set_next_node_id. simpl.
  do 3 f_equal.
  apply map_eq. intros k.
  destruct (decide (k = a)) as [-> | Ka];
    [| destruct (decide (k = dir)) as [-> | Kd]];
    repeat heap_step; reflexivity.
Qed.

(** ** Paths do not depend on reference counts or child links *)

Lemma path_loop_same (w w' : state) :
  same_names w w' ->
  forall fuel np room out r,
    path_loop fuel w np room out = Ok r ->
    path_loop fuel w' np room out = Ok r.
Proof.
  intros [_ HS]. induction fuel as [| fuel IH]; intros np room out r E.
  - simpl in *. destruct (np =? NULL); [exact E | discriminate E].
  - cbn [path_loop] in *. destruct (np =? NULL); [exact E |].
    unfold load in *. destruct (nodes w !! np) as [n |] eqn:L;
      [| discriminate E].
    destruct (HS _ _ L) as (n' & L' & En & El & Ep). rewrite L'.
    cbn [bind] in *. rewrite En, El, Ep.
    destruct (path_start (name n) (s32 (namelen n)) room out)
      as [[[room' out'] |] | |]; cbn [bind] in *;
      try exact E; try discriminate E.
    now apply IH.
Qed.

Lemma node_get_path_same (w w' : state) (np : ptr) (nm : option string)
    (r : option string) :
  same_names w w' ->
  node_get_path w np nm = Ok r -> node_get_path w' np nm = Ok r.
Proof.
  intros HS E. unfold node_get_path in *.
  destruct (match nm with
            | Some s => path_start (Some s) (s32 (strlen s))
                          (PATH_BUFFER_SIZE - 1) EmptyString
            | None => Ok (Some (PATH_BUFFER_SIZE - 1, EmptyString))
            end) as [[[room out] |] | |]; cbn [bind] in *;
    try exact E; try discriminate E.
  destruct (path_loop (Z.to_nat PATH_BUFFER_SIZE) w np room out)
    as [o | |] eqn:P; cbn [bind] in E; try discriminate E.
  rewrite (path_loop_same _ _ HS _ _ _ _ _ P). cbn [bind].
  unfold normalize_name in *. destruct HS as [-> _]. exact E.
Qed.

(** The fuel of [node_get_path] is never used up: every turn of the loop
    takes at least the byte of the slash out of the room that is left. *)
Lemma path_start_room (buf : option string) (len room : Z) (out : string)
    (room' : Z) (out' : string) :
  path_start buf len room out = Ok (Some (room', out')) ->
  0 <= room' < room.
Proof.
  unfold path_start, memcpy_src.
  destruct (Z.gtb_spec (len + 1) room) as [_ | Hle]; [discriminate |].
  destruct (Z.eqb_spec len 0) as [-> | Hnz].
  - cbn [bind]. intros E. injection E as <- _. lia.
  - destruct (Z.ltb_spec len 0) as [_ | Hge]; [discriminate |].
    destruct buf as [s |]; [| discriminate].
    destruct (len <=? strlen s + 1); [| discriminate].
    cbn [bind]. intros E. injection E as <- _. lia.
Qed.

Lemma path_start_total (buf : option string) (len room : Z)
    (out : string) :
  path_start buf len room out <> Diverge.
Proof.
  unfold path_start, memcpy_src.
  destruct (len + 1 >? room); [discriminate |].
  destruct (len =? 0); [discriminate |].
  destruct (len <? 0); [discriminate |].
  destruct buf as [s |]; [| discriminate].
  destruct (len <=? strlen s + 1); discriminate.
Qed.

Lemma path_loop_total (fuel : nat) :
  forall (w : state) (np : ptr) (room : Z) (out : string),
    0 <= room < Z.of_nat fuel ->
    path_loop fuel w np room out <> Diverge.
Proof.
  induction fuel as [| fuel IH]; intros w np room out R; [lia |].
  cbn [path_loop]. destruct (np =? NULL); [discriminate |].
  unfold load. destruct (nodes w !! np) as [n |]; cbn [bind];
    [| discriminate].
  pose proof (path_start_total (name n) (s32 (namelen n)) room out) as T.
  destruct (path_start (name n) (s32 (namelen n)) room out)
    as [[[room' out'] |] | |] eqn:E; cbn [bind];
    [| discriminate | discriminate | contradiction].
  apply IH. apply path_start_room in E. lia.
Qed.

Lemma node_get_path_total (w : state) (np : ptr) (nm : option string) :
  node_get_path w np nm <> Diverge.
Proof.
  unfold node_get_path.
  assert (T0 : match nm with
               | Some s => path_start (Some s) (s32 (strlen s))
                             (PATH_BUFFER_SIZE - 1) EmptyString
               | None => Ok (Some (PATH_BUFFER_SIZE - 1, EmptyString))
               end <> Diverge)
    by (destruct nm; [apply path_start_total | discriminate]).
  destruct (match nm with
            | Some s => path_start (Some s) (s32 (strlen s))
                          (PATH_BUFFER_SIZE - 1) EmptyString
            | None => Ok (Some (PATH_BUFFER_SIZE - 1, EmptyString))
            end) as [[[room out] |] | |] eqn:E; cbn [bind];
    [| discriminate | discriminate | contradiction].
  assert (R : 0 <= room < Z.of_nat (Z.to_nat PATH_BUFFER_SIZE)).
  { change (Z.of_nat (Z.to_nat PATH_BUFFER_SIZE)) with 1024.
    destruct nm as [s |].
    - apply path_start_room in E. unfold PATH_BUFFER_SIZE in E. lia.
    - injection E as <- _. unfold PATH_BUFFER_SIZE. lia. }
  pose proof (path_loop_total _ w np room out R) as T.
  destruct (path_loop (Z.to_nat PATH_BUFFER_SIZE) w np room out);
    cbn [bind]; [discriminate | discriminate | contradiction].
Qed.

(** ** The last release of a node *)

Lemma forget_loop_app (fuel : nat) (k1 k2 : nat) (np : ptr) (w : state) :
  forget_loop fuel (k1 + k2) np w
  = (let* w := forget_loop fuel k1 np w in forget_loop fuel k2 np w).
Proof.
  revert w. induction k1 as [| k1 IH]; intros w; [reflexivity |].
  cbn [Nat.add forget_loop].
  destruct (node_release fuel np w) as [w1 | |]; cbn [bind];
    [apply IH | reflexivity | reflexivity].
Qed.

(** The node [np] holds its last reference and is the first child of
    [dir], which has other references of its own: the release unlinks and
    frees [np] and takes from [dir] the reference it held for the child. *)
Lemma node_release_last (fuel : nat) (np dir : ptr) (w : state)
    (n d : node) (s : string) :
  nodes w !! np = Some n -> refcount n = 1 -> parent n = dir ->
  name n = Some s -> namelen n <= strlen s + 1 ->
  nodes w !! dir = Some d -> child d = np ->
  1 < refcount d < 2 ^ 32 ->
  np <> dir -> np <> root w ->
  node_release (S (S fuel)) np w
  = Ok (free_node np
          (store dir (set_refcount (refcount d - 1) (set_child (next n) d))
             w)).
Proof.
  intros En Rn Pn Nn Ln Ed Cd Rd D Rt.
  rewrite node_release_unfold.
  rewrite (dec_refcount_live _ _ _ En) by lia. cbn [bind].
  rewrite load_store_eq. cbn [bind refcount set_refcount].
  rewrite Rn. change (1 - 1 =? 0) with true. cbv iota.
  cbn [parent set_refcount]. rewrite Pn.
  rewrite load_store_ne by exact D. rewrite (load_lookup _ _ _ Ed).
  cbn [bind]. rewrite Cd, Z.eqb_refl. rewrite load_store_eq. cbn [bind].
  cbn [next set_refcount].
  rewrite (upd_lookup dir _ _ d)
    by (unfold store; simpl; now rewrite lookup_insert_ne by congruence).
  cbn [bind]. rewrite load_store_ne by congruence.
  rewrite load_store_eq. cbn [bind parent set_refcount]. rewrite Pn.
  rewrite (node_release_live _ _ _ (set_child (next n) d))
    by (first [ apply lookup_insert_eq | simpl; lia ]).
  cbn [bind refcount set_child].
  destruct w as [g i f al r ns hs ds e lc tr].
  unfold destroy, free_node, upd, load, store, set_nodes in *.
  simpl in *.
  repeat first [heap_step | rewrite Nn].
  destruct (Z.ltb_spec (strlen s + 1) (namelen n)) as [Hlt | _]; [lia |].
  rewrite andb_false_r.
  destruct (Z.eqb_spec np r) as [-> | _]; [contradiction |].
  do 2 f_equal. apply map_eq. intros k.
  destruct (decide (k = np)) as [-> | Kn];
    [| destruct (decide (k = dir)) as [-> | Kd]];
    repeat heap_step; reflexivity.
Qed.

(** ** The channel and the dispatcher *)

Lemma chan_write_frame (h : host) (m : fuse_out_header) (w : state) :
  nodes (chan_write h m w) = nodes w
  /\ root (chan_write h m w) = root w
  /\ force_lower_case (chan_write h m w) = force_lower_case w
  /\ next_node_id (chan_write h m w) = next_node_id w
  /\ next_generation (chan_write h m w) = next_generation w
  /\ handles (chan_write h m w) = handles w
  /\ replies (chan_write h m w) = replies w ++ [m].
Proof.
  unfold chan_write, sys, replies.
  destruct (h_write h m); simpl; rewrite map_app; repeat split.
Qed.

Lemma handle_fuse_request_dispatch (fuel : nat) (h : host)
    (hdr : fuse_in_header) (req : request) (len : Z) (w : state) :
  sizeof_fuse_in_header <= len -> hdr_len hdr = len ->
  hdr_nodeid hdr <> 0 -> lookup_by_inode w (hdr_nodeid hdr) <> NULL ->
  handle_fuse_request fuel h hdr req len w
  = dispatch fuel h hdr (lookup_by_inode w (hdr_nodeid hdr)) req w.
Proof.
  intros L E N R. unfold handle_fuse_request.
  destruct (Z.ltb_spec len sizeof_fuse_in_header) as [Hlt | _]; [lia |].
  rewrite E, Z.eqb_refl. cbn [negb orb].
  destruct (Z.eqb_spec (hdr_nodeid hdr) 0) as [Hz | _]; [contradiction |].
  destruct (Z.eqb_spec (lookup_by_inode w (hdr_nodeid hdr)) NULL)
    as [Hz | _]; [contradiction |].
  reflexivity.
Qed.


(** ** N lookups of one name *)

Lemma after_lookups_names (w : state) (dir : ptr) (p : node) (a : ptr)
    (nm : string) (k : Z) (w' : state) :
  nodes w !! dir = Some p -> nodes w !! a = None ->
  after_lookups w dir p a nm k w' -> same_names w w'.
Proof.
  intros E F (_ & Hl & Hn). split; [exact Hl |]. intros q n L.
  rewrite Hn.
  assert (q <> a) by (intros ->; rewrite F in L; discriminate L).
  rewrite lookup_insert_ne by congruence.
  destruct (decide (q = dir)) as [-> | Hd].
  - rewrite lookup_insert_eq. rewrite E in L. injection L as <-.
    exists (adopt a p). repeat split.
  - rewrite lookup_insert_ne by congruence. exists n. now repeat split.
Qed.


Lemma created_state_after (w : state) (dir : ptr) (p : node) (a : ptr)
    (nm : string) (h : host) (m : fuse_out_header) :
  a <> dir ->
  after_lookups w dir p a nm 1 (chan_write h m (created_state w dir p a nm)).
Proof.
  intros D. destruct (chan_write_frame h m (created_state w dir p a nm))
    as (Hn & Hr & Hl & _).
  unfold after_lookups. rewrite Hn, Hr, Hl. repeat split.
Qed.

Section Lookups.
Variables (fuel : nat) (len : Z) (hdr : fuse_in_header) (nm : string).
Variables (w : state) (dir : ptr) (p : node) (a : ptr).
Variable path : option string.

Hypothesis framed : sizeof_fuse_in_header <= len /\ hdr_len hdr = len.
Hypothesis addressed :
  hdr_nodeid hdr <> 0 /\ lookup_by_inode w (hdr_nodeid hdr) = dir.
Hypothesis dir_live : nodes w !! dir = Some p /\ dir <> NULL.
Hypothesis fresh : nodes w !! a = None /\ a <> NULL.
Hypothesis path_ok : node_get_path w dir (Some nm) = Ok path.


End Lookups.






(** ** No FORGET frees the root *)

Lemma root_stays_refl (w : state) : root_stays w w.
Proof. split; [reflexivity | trivial]. Qed.

Lemma root_stays_trans (w1 w2 w3 : state) :
  root_stays w1 w2 -> root_stays w2 w3 -> root_stays w1 w3.
Proof.
  intros [R12 L12] [R23 L23]. split; [congruence | auto].
Qed.

Lemma upd_root_stays (np : ptr) (f : node -> node) (w w' : state) :
  upd np f w = Ok w' -> root_stays w w'.
Proof.
  intros E. unfold upd, load in E.
  destruct (nodes w !! np) as [n |]; [| discriminate E].
  cbn [bind] in E. injection E as <-. split; [reflexivity |].
  unfold store. cbn [nodes root set_nodes]. intros L.
  destruct (decide (root w = np)) as [-> | Hne].
  - rewrite lookup_insert_eq. now eexists.
  - now rewrite lookup_insert_ne by congruence.
Qed.

Lemma dec_refcount_root_stays (np : ptr) (w w' : state) :
  dec_refcount np w = Ok w' -> root_stays w w'.
Proof.
  intros E. unfold dec_refcount in E. apply bind_ok in E as (n & L & E).
  destruct (refcount n >? 0); injection E as <-;
    [| apply root_stays_refl].
  apply (upd_root_stays np (fun _ => set_refcount (u32 (refcount n - 1)) n)).
  unfold upd. now rewrite L.
Qed.

Lemma destroy_root_stays (np : ptr) (w w' : state) :
  destroy np w = Ok w' -> root_stays w w'.
Proof.
  intros E. unfold destroy in E. apply bind_ok in E as (n & _ & E).
  destruct (negb (namelen n =? 0) && _); [discriminate E |].
  destruct (Z.eqb_spec np (root w)) as [_ | Hne]; [discriminate E |].
  injection E as <-. split; [reflexivity |].
  unfold free_node. cbn [nodes root set_nodes].
  now rewrite lookup_delete_ne by congruence.
Qed.

Lemma node_release_root_stays (fuel : nat) :
  forall (np : ptr) (w w' : state),
    node_release fuel np w = Ok w' -> root_stays w w'.
Proof.
  induction fuel as [| fuel IH]; intros np w w' E; [discriminate E |].
  rewrite node_release_unfold in E.
  apply bind_ok in E as (w1 & E1 & E).
  apply bind_ok in E as (n1 & _ & E).
  apply dec_refcount_root_stays in E1.
  destruct (refcount n1 =? 0);
    [| injection E as <-; exact E1].
  apply bind_ok in E as (p1 & _ & E).
  apply bind_ok in E as (w2 & E2 & E).
  apply bind_ok in E as (n2 & _ & E).
  apply bind_ok in E as (w3 & E3 & E).
  apply bind_ok in E as (w4 & E4 & E).
  apply bind_ok in E as (w5 & E5 & E).
  assert (F2 : root_stays w1 w2).
  { destruct (child p1 =? np).
    - apply bind_ok in E2 as (c & _ & E2).
      now apply upd_root_stays in E2.
    - apply bind_ok in E2 as (node2 & _ & E2).
      apply bind_ok in E2 as (n & _ & E2).
      now apply upd_root_stays in E2. }
  apply IH in E3. apply upd_root_stays in E4. apply upd_root_stays in E5.
  apply destroy_root_stays in E.
  repeat (eapply root_stays_trans; [eassumption |]).
  apply root_stays_refl.
Qed.

Lemma forget_loop_root_stays (fuel : nat) (k : nat) :
  forall (np : ptr) (w w' : state),
    forget_loop fuel k np w = Ok w' -> root_stays w w'.
Proof.
  induction k as [| k IH]; intros np w w' E.
  - injection E as <-. apply root_stays_refl.
  - cbn [forget_loop] in E. apply bind_ok in E as (w1 & E1 & E).
    apply node_release_root_stays in E1. apply IH in E.
    now apply (root_stays_trans _ w1).
Qed.

Lemma chan_write_root_stays (h : host) (m : fuse_out_header) (w : state) :
  root_stays w (chan_write h m w).
Proof.
  destruct (chan_write_frame h m w) as (Hn & Hr & _).
  split; [exact Hr | now rewrite Hn, Hr].
Qed.

Lemma forgets_root_stays (fuel : nat) (script : list read_result) :
  forall (w w' : state) (e : loop_end),
    Forall is_forget script ->
    handle_fuse_requests fuel script w = Ok (e, w') ->
    root_stays w w'.
Proof.
  induction script as [| r script IH]; intros w w' e Hf E.
  - injection E as <- <-. apply root_stays_refl.
  - pose proof (Forall_inv Hf) as Hr.
    pose proof (Forall_inv_tail Hf) as Hf'.
    destruct r as [x | len hdr req h]; cbn [handle_fuse_requests] in E.
    + assert (S0 : root_stays w (set_errno x w))
        by (split; [reflexivity | trivial]).
      destruct (x =? EINTR).
      * apply IH in E; [| exact Hf']. now apply (root_stays_trans _ _ _ S0).
      * injection E as <- <-. exact S0.
    + destruct req; try contradiction.
      apply bind_ok in E as (w1 & E1 & E). apply IH in E; [| exact Hf'].
      apply (root_stays_trans _ w1); [| exact E].
      unfold handle_fuse_request in E1.
      destruct ((len <? sizeof_fuse_in_header) || negb (hdr_len hdr =? len));
        [injection E1 as <-; apply root_stays_refl |].
      destruct (negb (hdr_nodeid hdr =? 0) && _).
      * injection E1 as <-. apply chan_write_root_stays.
      * cbn [dispatch] in E1. now apply forget_loop_root_stays in E1.
Qed.

Lemma init_state_frame (junk : node) (h : host) (fd0 : Z) (path : string)
    (w : state) :
  let w' := init_state junk h fd0 path w in
  root w' = root w
  /\ nodes w' = <[root w := init_root junk h path]> (nodes w)
  /\ next_node_id w' = 2 /\ next_generation w' = 0
  /\ wire w' = wire w.
Proof. unfold init_state. destruct (h_realloc h); repeat split. Qed.

(** C6 (amended).  No sequence of FORGET requests that the daemon gets
    through frees the root.  [fuse_init] seeds the root's reference count
    with 2, and a FORGET addressed to the root that releases it fewer than
    two times leaves the count positive, at [2 - nlookup], and nothing else
    changed. *)
Theorem root_outlives_one_release (fuel : nat) (h0 h : host) (fd0 : Z)
    (path : string) (w0 w : state) (hdr : fuse_in_header) (len k : Z) :
  fuse_init h0 fd0 path w0 = Ok w ->
  root w <> NULL ->
  sizeof_fuse_in_header <= len /\ hdr_len hdr = len ->
  hdr_nodeid hdr = FUSE_ROOT_ID ->
  0 <= k < 2 ->
  exists r,
    nodes w !! root w = Some r
    /\ refcount r = 2
    /\ handle_fuse_request (S fuel) h hdr (FUSE_FORGET k) len w
       = Ok (store (root w) (set_refcount (2 - k) r) w)
    /\ (forall fuel' script e w',
          Forall is_forget script ->
          handle_fuse_requests fuel' script w = Ok (e, w') ->
          root w' = root w /\ is_Some (nodes w' !! root w')).
Proof.
  intros I Rn [Fl Fe] An K.
  destruct (fuse_init_inv _ _ _ _ _ I) as (junk & _ & ->).
  destruct (init_state_frame junk h0 fd0 path w0) as (Hr & Hn & _).
  exists (init_root junk h0 path).
  assert (L : nodes (init_state junk h0 fd0 path w0)
              !! root (init_state junk h0 fd0 path w0)
              = Some (init_root junk h0 path))
    by (rewrite Hn, Hr; apply lookup_insert_eq).
  split; [exact L |]. split; [reflexivity |]. split.
  - assert (R : lookup_by_inode (init_state junk h0 fd0 path w0)
                  (hdr_nodeid hdr)
                = root (init_state junk h0 fd0 path w0))
      by (unfold lookup_by_inode; now rewrite An).
    rewrite handle_fuse_request_dispatch
      by (first [ exact Fl | exact Fe | now rewrite An | now rewrite R ]).
    rewrite R. cbn [dispatch].
    rewrite (forget_loop_live _ _ _ _ _ L)
      by (cbn [refcount init_root]; lia).
    rewrite Z2Nat.id by lia. reflexivity.
  - intros fuel' script e w' Hf E.
    destruct (forgets_root_stays _ _ _ _ _ Hf E) as [Er El].
    split; [exact Er |]. apply El. rewrite L. now eexists.
Qed.

(** C2 (amended).  [fuse_init] starts [next_node_id] at 2 and
    [next_generation] at 0, and a LOOKUP that creates a node advances both
    by one.  The node's generation is the counter's value, but its node id
    is not: the reply carries the address of the node as [nodeid], the
    counter's value as [generation] (0 for the first lookup of a session),
    and [attr.ino] equal to that [nodeid]. *)
Theorem created_node_ids (fuel : nat) (h : host) (hdr : fuse_in_header)
    (len : Z) (nm : string) (w : state) (dir : ptr) (p : node) (a : ptr)
    (path : option string) (st : stat) :
  sizeof_fuse_in_header <= len /\ hdr_len hdr = len ->
  hdr_nodeid hdr <> 0 /\ lookup_by_inode w (hdr_nodeid hdr) = dir ->
  nodes w !! dir = Some p /\ dir <> NULL ->
  lookup_child_by_name fuel w dir nm = Ok NULL ->
  node_get_path w dir (Some nm) = Ok path ->
  h_lstat h path = SysOk st ->
  h_calloc h = a /\ h_malloc_name h = true ->
  nodes w !! a = None /\ a <> NULL ->
  (forall h0 fd0 rootpath w0 w',
      fuse_init h0 fd0 rootpath w0 = Ok w' ->
      next_node_id w' = 2 /\ next_generation w' = 0)
  /\ exists w1,
      handle_fuse_request fuel h hdr (FUSE_LOOKUP nm) len w = Ok w1
      /\ next_node_id w1 = u64 (next_node_id w + 1)
      /\ next_generation w1 = u64 (next_generation w + 1)
      /\ (exists n, nodes w1 !! a = Some n
                    /\ nid n = ptr_to_id a /\ gen n = next_generation w)
      /\ replies w1
         = replies w ++
           [{| error := 0; unique := hdr_unique hdr;
               data := Some (entry_out
                 {| e_nodeid := ptr_to_id a;
                    e_generation := next_generation w;
                    e_entry_valid := 10; e_attr_valid := 10;
                    e_attr := set_attr_ino (ptr_to_id a)
                                (attr_from_stat zero_attr st) |}) |}].
Proof.
  intros [Fl Fe] [An Ar] [E Dn] C P L [Ca Cm] [F N]. split.
  - intros h0 fd0 rootpath w0 w' I.
    destruct (fuse_init_inv _ _ _ _ _ I) as (junk & _ & ->).
    now destruct (init_state_frame junk h0 fd0 rootpath w0)
      as (_ & _ & Hi & Hg & _).
  - rewrite handle_fuse_request_dispatch
      by (first [ exact Fl | exact Fe | exact An | now rewrite Ar ]).
    rewrite Ar. cbn [dispatch].
    rewrite (lookup_entry_creates _ _ _ _ _ _ _ _ _ _ E P L C Ca N F Cm).
    eexists. split; [reflexivity |]. unfold fuse_reply.
    match goal with
    | |- context [chan_write h ?m ?s] =>
        destruct (chan_write_frame h m s) as (Hn & _ & _ & Hi & Hg & _ & Hw)
    end.
    rewrite Hi, Hg, Hn, Hw. repeat apply conj; try reflexivity.
    exists (created_node w dir p a nm). split; [| split; reflexivity].
    unfold created_state, store. cbn [nodes set_fuse_all set_nodes].
    apply lookup_insert_eq.
Qed.

(** C1 (what the code does).  A LOOKUP of a name the directory already has,
    whose reply cannot be written: the write is lost and the node keeps the
    reference the handler added before replying. *)
Theorem lookup_reply_failure_keeps_reference (fuel : nat) (h : host)
    (hdr : fuse_in_header) (len : Z) (nm : string) (w : state) (dir : ptr)
    (np : ptr) (n : node) (path : option string) (st : stat) (e : Z) :
  sizeof_fuse_in_header <= len /\ hdr_len hdr = len ->
  hdr_nodeid hdr <> 0 /\ lookup_by_inode w (hdr_nodeid hdr) = dir ->
  dir <> NULL ->
  node_get_path w dir (Some nm) = Ok path ->
  h_lstat h path = SysOk st ->
  lookup_child_by_name fuel w dir nm = Ok np ->
  np <> NULL -> nodes w !! np = Some n ->
  (forall m, h_write h m = SysErr e) ->
  exists w1,
    handle_fuse_request fuel h hdr (FUSE_LOOKUP nm) len w = Ok w1
    /\ refcount <$> nodes w1 !! np = Some (u32 (refcount n + 1))
    /\ wire w1
       = wire w ++
         [Lost {| error := 0; unique := hdr_unique hdr;
                  data := Some (entry_for (bump n) st) |}].
Proof.
  intros [Fl Fe] [An Ar] Dn P L C N E W.
  rewrite handle_fuse_request_dispatch
    by (first [ exact Fl | exact Fe | exact An | now rewrite Ar ]).
  rewrite Ar. cbn [dispatch].
  rewrite (lookup_entry_existing _ _ _ _ _ _ _ _ _ _ P L C N E).
  eexists. split; [reflexivity |].
  unfold fuse_reply, chan_write, sys. rewrite W.
  cbn [nodes wire set_wire set_errno store set_nodes].
  rewrite lookup_insert_eq. split; reflexivity.
Qed.

(** C4 (what the code does).  A WRITE whose [pwrite64] succeeds writes two
    messages for the one request: the reply with the byte count, and then
    the header of the code at [oops] with [-ENOSYS]. *)
Theorem write_replies_twice (fuel : nat) (h : host) (hdr : fuse_in_header)
    (len fh size offset : Z) (bytes : list byte) (w : state) (f res : Z) :
  sizeof_fuse_in_header <= len /\ hdr_len hdr = len ->
  hdr_nodeid hdr <> 0 /\ lookup_by_inode w (hdr_nodeid hdr) <> NULL ->
  handles w !! id_to_ptr fh = Some f ->
  h_pwrite h f bytes size offset = SysOk res ->
  exists w1,
    handle_fuse_request fuel h hdr (FUSE_WRITE fh size offset bytes) len w
    = Ok w1
    /\ replies w1
       = replies w ++
         [{| error := 0; unique := hdr_unique hdr;
             data := Some (write_out (u32 res)) |};
          {| error := - ENOSYS; unique := hdr_unique hdr; data := None |}].
Proof.
  intros [Fl Fe] [An Ar] Hh Hp.
  rewrite handle_fuse_request_dispatch
    by (first [ exact Fl | exact Fe | exact An | exact Ar ]).
  cbn [dispatch]. unfold handle_write. rewrite Hh. unfold sys at 1.
  rewrite Hp. eexists. split; [reflexivity |]. unfold oops, fuse_reply.
  match goal with
  | |- context [chan_write h ?m2 (chan_write h ?m1 w)] =>
      destruct (chan_write_frame h m2 (chan_write h m1 w))
        as (_ & _ & _ & _ & _ & _ & ->);
      destruct (chan_write_frame h m1 w) as (_ & _ & _ & _ & _ & _ & ->)
  end.
  now rewrite <- app_assoc.
Qed.

(** A run in which the loop returned: the script holds a read error other
    than [EINTR], everything before it was gone through with the loop still
    reading, and the loop returned at that error. *)
Lemma handle_fuse_requests_returned (fuel : nat) (s : list read_result) :
  forall (w w' : state),
    handle_fuse_requests fuel s w = Ok (Returned, w') ->
    exists s1 e s2 w1,
      s = s1 ++ ReadErr e :: s2
      /\ e <> EINTR
      /\ handle_fuse_requests fuel s1 w = Ok (Reading, w1)
      /\ w' = set_errno e w1.
Proof.
  induction s as [| [x | len hdr req h] s IH]; intros w w' E.
  - discriminate E.
  - cbn [handle_fuse_requests] in E.
    destruct (Z.eqb_spec x EINTR) as [-> | Nx].
    + apply IH in E as (s1 & e & s2 & w1 & -> & Ne & R & ->).
      exists (ReadErr EINTR :: s1), e, s2, w1.
      repeat split; assumption.
    + injection E as <-. exists [], x, s, w. repeat split. exact Nx.
  - cbn [handle_fuse_requests] in E. apply bind_ok in E as (w0 & E0 & E).
    apply IH in E as (s1 & e & s2 & w1 & -> & Ne & R & ->).
    exists (ReadMsg len hdr req h :: s1), e, s2, w1.
    repeat split; try assumption.
    cbn [handle_fuse_requests]. now rewrite E0.
Qed.

(** C7 (amended).  A message whose declared length is below the header
    size or above the size of the request buffer gets no reply and changes
    nothing; the loop does not end there but reads the next message.  The
    loop returns on a read error other than [EINTR], and only there: after
    [EINTR] it reads again, and whenever it returned, it did so at such an
    error, with the script before it gone through. *)
Theorem framing_error_is_skipped (fuel : nat) (h : host)
    (hdr : fuse_in_header) (req : request) (len : Z)
    (script : list read_result) (w : state) :
  0 <= len <= read_count ->
  hdr_len hdr < sizeof_fuse_in_header \/ request_buffer_size < hdr_len hdr ->
  handle_fuse_request fuel h hdr req len w = Ok w
  /\ handle_fuse_requests fuel (ReadMsg len hdr req h :: script) w
     = handle_fuse_requests fuel script w
  /\ (forall e, e <> EINTR ->
        handle_fuse_requests fuel (ReadErr e :: script) w
        = Ok (Returned, set_errno e w))
  /\ handle_fuse_requests fuel (ReadErr EINTR :: script) w
     = handle_fuse_requests fuel script (set_errno EINTR w)
  /\ (forall s w0 w',
        handle_fuse_requests fuel s w0 = Ok (Returned, w') ->
        exists s1 e s2 w1,
          s = s1 ++ ReadErr e :: s2
          /\ e <> EINTR
          /\ handle_fuse_requests fuel s1 w0 = Ok (Reading, w1)
          /\ w' = set_errno e w1).
Proof.
  intros Rl D.
  assert (E : handle_fuse_request fuel h hdr req len w = Ok w).
  { unfold handle_fuse_request.
    destruct (Z.ltb_spec len sizeof_fuse_in_header) as [_ | Hge];
      [reflexivity |].
    destruct (Z.eqb_spec (hdr_len hdr) len) as [He | _]; [| reflexivity].
    exfalso. unfold read_count, request_buffer_size in *. lia. }
  split; [exact E |]. split; [| split; [| split]].
  - cbn [handle_fuse_requests]. now rewrite E.
  - intros e Ne. cbn [handle_fuse_requests].
    destruct (Z.eqb_spec e EINTR) as [-> | _]; [contradiction | reflexivity].
  - cbn [handle_fuse_requests]. now rewrite Z.eqb_refl.
  - intros s w0 w'. apply handle_fuse_requests_returned.
Qed.

(** ** One reply for a request *)

Lemma quiet_trans (w1 w2 w3 : state) :
  quiet w1 w2 -> quiet w2 w3 -> quiet w1 w3.
Proof. unfold quiet. congruence. Qed.

Lemma quiet_one_more (w1 w2 w3 : state) :
  quiet w1 w2 -> one_more w2 w3 -> one_more w1 w3.
Proof.
  unfold quiet, one_more, replies. intros E [m Em]. exists m. congruence.
Qed.

Lemma chan_write_one_more (h : host) (m : fuse_out_header) (w : state) :
  one_more w (chan_write h m w).
Proof.
  exists m. now destruct (chan_write_frame h m w) as (_ & _ & _ & _ & _ & _ & E).
Qed.

Lemma sys_quiet {A : Type} (r : sysres A) (w w' : state) (o : option A) :
  sys r w = (o, w') -> quiet w w'.
Proof. destruct r; intros E; injection E as _ <-; reflexivity. Qed.

Lemma upd_quiet (np : ptr) (f : node -> node) (w w' : state) :
  upd np f w = Ok w' -> quiet w w'.
Proof.
  intros E. unfold upd in E. apply bind_ok in E as (n & _ & E).
  injection E as <-. reflexivity.
Qed.

Lemma dec_refcount_quiet (np : ptr) (w w' : state) :
  dec_refcount np w = Ok w' -> quiet w w'.
Proof.
  intros E. unfold dec_refcount in E. apply bind_ok in E as (n & _ & E).
  destruct (refcount n >? 0); injection E as <-; reflexivity.
Qed.

Lemma add_node_to_parent_quiet (np dir : ptr) (w w' : state) :
  add_node_to_parent np dir w = Ok w' -> quiet w w'.
Proof.
  intros E. unfold add_node_to_parent in E.
  apply bind_ok in E as (w1 & E1 & E). apply bind_ok in E as (p & _ & E).
  apply bind_ok in E as (w2 & E2 & E). apply bind_ok in E as (w3 & E3 & E).
  apply upd_quiet in E1, E2, E3, E. unfold quiet in *. congruence.
Qed.

Lemma node_create_quiet (h : host) (dir : ptr) (nm : string) (i g : Z)
    (w w' : state) (np : ptr) :
  node_create h dir nm i g w = Ok (np, w') -> quiet w w'.
Proof.
  intros E. unfold node_create in E.
  destruct (h_calloc h =? NULL); [injection E as _ <-; reflexivity |].
  destruct (negb (h_malloc_name h)); [injection E as _ <-; reflexivity |].
  apply bind_ok in E as (w1 & E1 & E). apply bind_ok in E as (w2 & E2 & E).
  apply bind_ok in E as (w3 & E3 & E). apply bind_ok in E as (w4 & E4 & E).
  apply bind_ok in E as (w5 & E5 & E). injection E as _ <-.
  apply upd_quiet in E1, E2, E4, E5. apply add_node_to_parent_quiet in E3.
  unfold quiet in *. cbn [wire store set_nodes] in *. congruence.
Qed.

Lemma rename_node_quiet (h : host) (np : ptr) (nm : string) (w w' : state)
    (b : bool) :
  rename_node h np nm w = Ok (b, w') -> quiet w w'.
Proof.
  intros E. unfold rename_node in E. apply bind_ok in E as (w1 & E1 & E).
  apply upd_quiet in E1.
  destruct (negb (h_realloc h)); [injection E as _ <-; exact E1 |].
  apply bind_ok in E as (w2 & E2 & E). injection E as _ <-.
  apply upd_quiet in E2. now apply (quiet_trans _ w1).
Qed.

Lemma remove_child_loop_quiet (fuel : nat) :
  forall (dir : ptr) (id : Z) (prev np : ptr) (w w' : state) (r : ptr),
    remove_child_loop fuel dir id prev np w = Ok (r, w') -> quiet w w'.
Proof.
  induction fuel as [| fuel IH]; intros dir id prev np w w' r E.
  - cbn [remove_child_loop] in E.
    destruct (np =? NULL); [injection E as _ <-; reflexivity | discriminate].
  - cbn [remove_child_loop] in E.
    destruct (np =? NULL); [injection E as _ <-; reflexivity |].
    apply bind_ok in E as (n & _ & E).
    destruct (nid n =? id); [| now apply IH in E].
    apply bind_ok in E as (w1 & E1 & E). apply bind_ok in E as (w2 & E2 & E).
    apply bind_ok in E as (w3 & E3 & E). apply bind_ok in E as (w4 & E4 & E).
    injection E as _ <-.
    assert (Q1 : quiet w w1)
      by (destruct (prev =? NULL); now apply upd_quiet in E1).
    apply upd_quiet in E2, E3. apply dec_refcount_quiet in E4.
    unfold quiet in *. congruence.
Qed.

Lemma node_lookup_quiet (fuel : nat) (h : host) (dir : ptr) (nm : string)
    (attr attr' : fuse_attr) (w w' : state) (np : ptr) :
  node_lookup fuel h dir nm attr w = Ok (np, attr', w') -> quiet w w'.
Proof.
  intros E. unfold node_lookup in E. apply bind_ok in E as (path & _ & E).
  destruct (sys (h_lstat h path) w) as [[st |] w1] eqn:S1;
    apply sys_quiet in S1; [| injection E as _ _ <-; exact S1].
  apply bind_ok in E as (c & _ & E).
  apply bind_ok in E as ([np2 w2] & E2 & E).
  assert (Q : quiet w1 w2).
  { destruct (c =? NULL); [| injection E2 as _ <-; reflexivity].
    apply bind_ok in E2 as ([np3 w3] & E3 & E2).
    apply node_create_quiet in E3.
    destruct (np3 =? NULL); [injection E2 as _ <-; exact E3 |].
    apply bind_ok in E2 as (w4 & E4 & E2).
    apply bind_ok in E2 as (w5 & E5 & E2). injection E2 as _ <-.
    apply upd_quiet in E4, E5. unfold quiet in *.
    cbn [wire set_fuse_all set_next_node_id set_next_generation] in *.
    congruence. }
  destruct (np2 =? NULL).
  - injection E as _ _ <-. now apply (quiet_trans _ w1).
  - apply bind_ok in E as (n & _ & E). injection E as _ _ <-.
    now apply (quiet_trans _ w1).
Qed.

Lemma node_get_attr_quiet (h : host) (np : ptr) (attr attr' : fuse_attr)
    (w w' : state) (r : Z) :
  node_get_attr h np attr w = Ok (r, attr', w') -> quiet w w'.
Proof.
  intros E. unfold node_get_attr in E. apply bind_ok in E as (path & _ & E).
  destruct (sys (h_lstat h path) w) as [[st |] w1] eqn:S1;
    apply sys_quiet in S1; [| injection E as _ _ <-; exact S1].
  apply bind_ok in E as (n & _ & E). injection E as _ _ <-. exact S1.
Qed.

Lemma lookup_entry_one_more (fuel : nat) (h : host) (dir : ptr)
    (nm : string) (uniq : Z) (w w' : state) :
  lookup_entry fuel h dir nm uniq w = Ok w' -> one_more w w'.
Proof.
  intros E. unfold lookup_entry in E.
  apply bind_ok in E as ([[np attr] w1] & E1 & E).
  apply node_lookup_quiet in E1.
  destruct (np =? NULL).
  - injection E as <-. apply (quiet_one_more _ _ _ E1).
    apply chan_write_one_more.
  - apply bind_ok in E as (w2 & E2 & E). apply bind_ok in E as (n & _ & E).
    injection E as <-. apply upd_quiet in E2.
    apply (quiet_one_more _ _ _ (quiet_trans _ _ _ E1 E2)).
    apply chan_write_one_more.
Qed.

Lemma handle_rename_one_more (fuel : nat) (h : host) (hdr : fuse_in_header)
    (np : ptr) (newdir : Z) (oldname newname : string) (w w' : state) :
  handle_rename fuel h hdr np newdir oldname newname w = Ok w' ->
  one_more w w'.
Proof.
  intros E. unfold handle_rename in E.
  apply bind_ok in E as (target & _ & E).
  destruct (target =? NULL);
    [injection E as <-; apply chan_write_one_more |].
  apply bind_ok in E as (oldpath & _ & E).
  destruct (lookup_by_inode w newdir =? NULL);
    [injection E as <-; apply chan_write_one_more |].
  apply bind_ok in E as (newpath & _ & E).
  apply bind_ok in E as (t & _ & E).
  apply bind_ok in E as ([removed w1] & E1 & E).
  unfold remove_child in E1. apply bind_ok in E1 as (p & _ & E1).
  apply remove_child_loop_quiet in E1.
  destruct (removed =? NULL).
  { injection E as <-. apply (quiet_one_more _ _ _ E1).
    apply chan_write_one_more. }
  apply bind_ok in E as ([renamed w2] & E2 & E).
  apply rename_node_quiet in E2.
  destruct (negb renamed).
  { injection E as <-. apply (quiet_one_more _ _ _ (quiet_trans _ _ _ E1 E2)).
    apply chan_write_one_more. }
  apply bind_ok in E as (w3 & E3 & E). apply add_node_to_parent_quiet in E3.
  destruct (sys (h_rename h oldpath newpath) w3) as [res w4] eqn:S4.
  apply sys_quiet in S4. injection E as <-.
  apply (quiet_one_more _ w4); [| apply chan_write_one_more].
  unfold quiet in *. congruence.
Qed.

(** Every request but FORGET and WRITE that is framed, addressed to a node
    and handled to the end has written exactly one message; a FORGET has
    written none. *)
Lemma dispatch_replies (fuel : nat) (h : host) (hdr : fuse_in_header)
    (np : ptr) (req : request) (w w' : state) :
  dispatch fuel h hdr np req w = Ok w' ->
  match req with
  | FUSE_FORGET _ => quiet w w'
  | FUSE_WRITE _ _ _ _ => True
  | _ => one_more w w'
  end.
Proof.
  intros E. destruct req; cbn [dispatch] in E.
  - now apply lookup_entry_one_more in E.
  - revert w E. induction (Z.to_nat nlookup) as [| k IH]; intros w E.
    + injection E as <-. reflexivity.
    + cbn [forget_loop] in E. apply bind_ok in E as (w1 & E1 & E).
      apply IH in E. apply (quiet_trans _ w1); [| exact E].
      clear E IH. revert np w w1 E1.
      induction fuel as [| fuel IHf]; intros np w w1 E1; [discriminate E1 |].
      rewrite node_release_unfold in E1.
      apply bind_ok in E1 as (w2 & E2 & E1).
      apply bind_ok in E1 as (n1 & _ & E1).
      apply dec_refcount_quiet in E2.
      destruct (refcount n1 =? 0); [| injection E1 as <-; exact E2].
      apply bind_ok in E1 as (p1 & _ & E1).
      apply bind_ok in E1 as (w3 & E3 & E1).
      apply bind_ok in E1 as (n2 & _ & E1).
      apply bind_ok in E1 as (w4 & E4 & E1).
      apply bind_ok in E1 as (w5 & E5 & E1).
      apply bind_ok in E1 as (w6 & E6 & E1).
      assert (Q3 : quiet w2 w3).
      { destruct (child p1 =? np).
        - apply bind_ok in E3 as (c & _ & E3). now apply upd_quiet in E3.
        - apply bind_ok in E3 as (node2 & _ & E3).
          apply bind_ok in E3 as (n & _ & E3). now apply upd_quiet in E3. }
      apply IHf in E4. apply upd_quiet in E5, E6.
      unfold destroy in E1. apply bind_ok in E1 as (n3 & _ & E1).
      destruct (negb (namelen n3 =? 0) && _); [discriminate E1 |].
      destruct (np =? root w6); [discriminate E1 |]. injection E1 as <-.
      unfold quiet in *. cbn [wire free_node set_nodes] in *. congruence.
  - apply bind_ok in E as ([[r attr] w1] & E1 & E).
    apply node_get_attr_quiet in E1. injection E as <-.
    apply (quiet_one_more _ _ _ E1). apply chan_write_one_more.
  - unfold handle_setattr in E. apply bind_ok in E as (path & _ & E).
    destruct (if Z.land valid FATTR_SIZE =? 0 then (Some tt, w)
              else sys (h_truncate h path size) w) as [res w1] eqn:S1.
    assert (Q1 : quiet w w1).
    { destruct (Z.land valid FATTR_SIZE =? 0);
        [injection S1 as _ <-; reflexivity | now apply sys_quiet in S1]. }
    apply bind_ok in E as ([[r attr] w2] & E2 & E).
    apply node_get_attr_quiet in E2.
    destruct res; injection E as <-;
      apply (quiet_one_more _ _ _ (quiet_trans _ _ _ Q1 E2));
      apply chan_write_one_more.
  - apply bind_ok in E as (path & _ & E).
    destruct (sys (h_mknod h path (force_mode mode o0664) rdev) w)
      as [[u |] w1] eqn:S1; apply sys_quiet in S1.
    + apply lookup_entry_one_more in E. now apply (quiet_one_more _ w1).
    + injection E as <-. apply (quiet_one_more _ _ _ S1).
      apply chan_write_one_more.
  - apply bind_ok in E as (path & _ & E).
    destruct (sys (h_mkdir h path (force_mode mode o0775)) w)
      as [[u |] w1] eqn:S1; apply sys_quiet in S1.
    + apply lookup_entry_one_more in E. now apply (quiet_one_more _ w1).
    + injection E as <-. apply (quiet_one_more _ _ _ S1).
      apply chan_write_one_more.
  - apply bind_ok in E as (path & _ & E).
    destruct (sys (h_unlink h path) w) as [res w1] eqn:S1.
    apply sys_quiet in S1. injection E as <-.
    apply (quiet_one_more _ _ _ S1). apply chan_write_one_more.
  - apply bind_ok in E as (path & _ & E).
    destruct (sys (h_rmdir h path) w) as [res w1] eqn:S1.
    apply sys_quiet in S1. injection E as <-.
    apply (quiet_one_more _ _ _ S1). apply chan_write_one_more.
  - now apply handle_rename_one_more in E.
  - unfold handle_open in E.
    destruct (h_malloc h =? NULL).
    { injection E as <-.
      apply (quiet_one_more _ (set_errno ENOMEM w)); [reflexivity |].
      apply chan_write_one_more. }
    apply bind_ok in E as (path & _ & E).
    destruct (sys (h_open h path flags) w) as [[f |] w1] eqn:S1;
      apply sys_quiet in S1; injection E as <-.
    + apply (quiet_one_more _ (set_handles (<[h_malloc h:=f]> (handles w1))
                                 w1)); [exact S1 |].
      apply chan_write_one_more.
    + apply (quiet_one_more _ _ _ S1). apply chan_write_one_more.
  - unfold handle_read in E.
    destruct (size >? 128 * 1024);
      [injection E as <-; apply chan_write_one_more |].
    destruct (handles w !! id_to_ptr fh) as [f |]; [| discriminate E].
    destruct (sys (h_pread h f size offset) w) as [[bs |] w1] eqn:S1;
      apply sys_quiet in S1; injection E as <-;
      apply (quiet_one_more _ _ _ S1); apply chan_write_one_more.
  - exact I.
  - unfold handle_statfs in E. apply bind_ok in E as (r & _ & E).
    destruct (sys (h_statfs h (name r)) w) as [[st |] w1] eqn:S1;
      apply sys_quiet in S1; injection E as <-;
      apply (quiet_one_more _ _ _ S1); apply chan_write_one_more.
  - destruct (handles w !! id_to_ptr fh); [| discriminate E].
    injection E as <-.
    apply (quiet_one_more _ (set_handles (delete (id_to_ptr fh) (handles w))
                               w)); [reflexivity |].
    apply chan_write_one_more.
  - injection E as <-. apply chan_write_one_more.
  - unfold handle_opendir in E.
    destruct (h_malloc h =? NULL).
    { injection E as <-.
      apply (quiet_one_more _ (set_errno ENOMEM w)); [reflexivity |].
      apply chan_write_one_more. }
    apply bind_ok in E as (path & _ & E).
    destruct (sys (h_opendir h path) w) as [[d |] w1] eqn:S1;
      apply sys_quiet in S1; injection E as <-.
    + apply (quiet_one_more _ (set_dirhandles
                                 (<[h_malloc h:=d]> (dirhandles w1)) w1));
        [exact S1 |].
      apply chan_write_one_more.
    + apply (quiet_one_more _ _ _ S1). apply chan_write_one_more.
  - unfold handle_readdir in E.
    destruct (dirhandles w !! id_to_ptr fh) as [d |]; [| discriminate E].
    destruct (h_readdir h d); injection E as <-; apply chan_write_one_more.
  - destruct (dirhandles w !! id_to_ptr fh); [| discriminate E].
    injection E as <-.
    apply (quiet_one_more _ (set_dirhandles
                               (delete (id_to_ptr fh) (dirhandles w)) w));
      [reflexivity |].
    apply chan_write_one_more.
  - injection E as <-. apply chan_write_one_more.
  - injection E as <-. apply chan_write_one_more.
Qed.

(** ** OPEN, READ and WRITE on a failing host call *)

Lemma open_failure_reply (h : host) (hdr : fuse_in_header) (np : ptr)
    (flags : Z) (w : state) (path : option string) (e : Z) :
  h_malloc h <> NULL ->
  node_get_path w np None = Ok path ->
  h_open h path flags = SysErr e ->
  exists w1,
    handle_open h hdr np flags w = Ok w1
    /\ replies w1
       = replies w ++ [{| error := e; unique := hdr_unique hdr;
                          data := None |}].
Proof.
  intros M P O. unfold handle_open.
  destruct (Z.eqb_spec (h_malloc h) NULL) as [Hz | _]; [contradiction |].
  rewrite P. cbn [bind]. unfold sys. rewrite O.
  eexists. split; [reflexivity |]. unfold fuse_status.
  match goal with
  | |- context [chan_write h ?m ?s] =>
      destruct (chan_write_frame h m s) as (_ & _ & _ & _ & _ & _ & ->)
  end.
  reflexivity.
Qed.

Lemma read_failure_reply (h : host) (hdr : fuse_in_header)
    (fh size offset : Z) (w : state) (f e : Z) :
  size <= 128 * 1024 ->
  handles w !! id_to_ptr fh = Some f ->
  h_pread h f size offset = SysErr e ->
  exists w1,
    handle_read h hdr fh size offset w = Ok w1
    /\ replies w1
       = replies w ++ [{| error := e; unique := hdr_unique hdr;
                          data := None |}].
Proof.
  intros S Hh R. unfold handle_read.
  destruct (Z.gtb_spec size (128 * 1024)) as [Hgt | _]; [lia |].
  rewrite Hh. unfold sys. rewrite R.
  eexists. split; [reflexivity |]. unfold fuse_status.
  match goal with
  | |- context [chan_write h ?m ?s] =>
      destruct (chan_write_frame h m s) as (_ & _ & _ & _ & _ & _ & ->)
  end.
  reflexivity.
Qed.

Lemma write_failure_reply (h : host) (hdr : fuse_in_header)
    (fh size offset : Z) (bytes : list byte) (w : state) (f e : Z) :
  handles w !! id_to_ptr fh = Some f ->
  h_pwrite h f bytes size offset = SysErr e ->
  exists w1,
    handle_write h hdr fh size offset bytes w = Ok w1
    /\ replies w1
       = replies w ++ [{| error := e; unique := hdr_unique hdr;
                          data := None |}].
Proof.
  intros Hh R. unfold handle_write. rewrite Hh. unfold sys. rewrite R.
  eexists. split; [reflexivity |]. unfold fuse_status.
  match goal with
  | |- context [chan_write h ?m ?s] =>
      destruct (chan_write_frame h m s) as (_ & _ & _ & _ & _ & _ & ->)
  end.
  reflexivity.
Qed.

End Properties.

(** * Further properties *)

Section Coverage.
Context {H : headers} {Pf : platform}.

(** ** Strings and the path builder *)

Lemma strlen_append (a b : string) :
  strlen (String.append a b) = strlen a + strlen b.
Proof.
  unfold strlen. induction a as [| c a IH].
  - change (String.append EmptyString b) with b. cbn [String.length]. lia.
  - change (String.append (String c a) b) with (String c (String.append a b)).
    cbn [String.length]. lia.
Qed.

Lemma strlen_nonneg (s : string) : 0 <= strlen s.
Proof. unfold strlen. lia. Qed.

Lemma length_substring_0 (n : nat) (s : string) :
  (n <= String.length s)%nat -> String.length (substring 0 n s) = n.
Proof.
  revert s. induction n as [| n IH]; intros s L.
  - destruct s; reflexivity.
  - destruct s as [| c s]; simpl in *; [lia |]. rewrite IH by lia.
    reflexivity.
Qed.

Lemma strlen_lower (s : string) : strlen (lower s) = strlen s.
Proof.
  unfold strlen. induction s as [| c s IH]; simpl; [reflexivity |].
  lia.
Qed.

Lemma strlen_cstr (s : string) : strlen (cstr s) <= strlen s.
Proof.
  unfold strlen. induction s as [| c s IH]; simpl; [lia |].
  destruct (Ascii.eqb c zero); simpl; lia.
Qed.

Lemma memcpy_src_length (buf : option string) (len : Z) (s : string) :
  memcpy_src buf len = Ok s -> strlen s = len.
Proof.
  unfold memcpy_src.
  destruct (Z.eqb_spec len 0) as [-> | Hnz].
  - intros E. injection E as <-. reflexivity.
  - destruct (Z.ltb_spec len 0) as [_ | Hge]; [discriminate |].
    destruct buf as [b |]; [| discriminate].
    destruct (Z.leb_spec len (strlen b + 1)) as [Hle | _]; [| discriminate].
    intros E. injection E as <-. unfold strlen in *.
    rewrite length_substring_0.
    + lia.
    + pose proof (strlen_append b (String zero EmptyString)) as A.
      unfold strlen in A. cbn [String.length] in A. lia.
Qed.

Lemma path_start_length (buf : option string) (len room : Z) (out : string)
    (room' : Z) (out' : string) :
  path_start buf len room out = Ok (Some (room', out')) ->
  room' + strlen out' = room + strlen out.
Proof.
  unfold path_start.
  destruct (len + 1 >? room); [discriminate |].
  destruct (memcpy_src buf len) as [s | |] eqn:M; cbn [bind];
    try discriminate.
  intros E. injection E as <- <-. apply memcpy_src_length in M.
  change (String "/" (String.append s out))
    with (String.append (String "/" s) out).
  rewrite strlen_append. unfold strlen in *. cbn [String.length String.append]. lia.
Qed.

Lemma path_loop_length (fuel : nat) :
  forall (w : state) (np : Z) (room : Z) (out r : string),
    0 <= room ->
    path_loop fuel w np room out = Ok (Some r) ->
    strlen r <= room + strlen out.
Proof.
  induction fuel as [| fuel IH]; intros w np room out r R E.
  - cbn [path_loop] in E. destruct (np =? NULL); [| discriminate E].
    injection E as <-. lia.
  - cbn [path_loop] in E. destruct (np =? NULL).
    { injection E as <-. lia. }
    apply bind_ok in E as (n & _ & E). apply bind_ok in E as (x & Ex & E).
    destruct x as [[room' out'] |]; [| discriminate E].
    pose proof (path_start_room _ _ _ _ _ _ Ex).
    pose proof (path_start_length _ _ _ _ _ _ Ex).
    apply IH in E; lia.
Qed.

Lemma s32_small (x : Z) : 0 <= x < 2 ^ 31 -> s32 x = x.
Proof.
  intros R. unfold s32. rewrite Z.mod_small by lia.
  destruct (Z.ltb_spec x (2 ^ 31)); lia.
Qed.

Lemma substring_0_append (s t : string) :
  substring 0 (String.length s) (String.append s t) = s.
Proof.
  induction s as [| c s IH].
  - destruct t; reflexivity.
  - change (String.append (String c s) t) with (String c (String.append s t)).
    cbn [String.length substring]. now rewrite IH.
Qed.

Lemma memcpy_src_whole (s : string) :
  memcpy_src (Some s) (strlen s) = Ok s.
Proof.
  unfold memcpy_src.
  destruct (Z.eqb_spec (strlen s) 0) as [E | N].
  - destruct s; [reflexivity | unfold strlen in E; simpl in E; lia].
  - pose proof (strlen_nonneg s).
    destruct (Z.ltb_spec (strlen s) 0); [lia |].
    destruct (Z.leb_spec (strlen s) (strlen s + 1)); [| lia].
    unfold strlen. rewrite Nat2Z.id. now rewrite substring_0_append.
Qed.

Lemma path_start_shape (buf : option string) (len room : Z) (out : string)
    (room' : Z) (out' : string) :
  path_start buf len room out = Ok (Some (room', out')) ->
  exists s, memcpy_src buf len = Ok s
            /\ len + 1 <= room
            /\ room' = room - len - 1
            /\ out' = String "/" (String.append s out).
Proof.
  unfold path_start.
  destruct (Z.gtb_spec (len + 1) room) as [| L]; [discriminate |].
  destruct (memcpy_src buf len) as [s | |]; cbn [bind]; try discriminate.
  intros E. injection E as <- <-. exists s. auto.
Qed.

Lemma path_start_ok (buf : option string) (len room : Z) (out s : string) :
  memcpy_src buf len = Ok s -> len + 1 <= room ->
  path_start buf len room out
  = Ok (Some (room - len - 1, String "/" (String.append s out))).
Proof.
  intros M L. unfold path_start.
  destruct (Z.gtb_spec (len + 1) room); [lia |]. now rewrite M.
Qed.

Lemma append_assoc (a b c : string) :
  String.append (String.append a b) c = String.append a (String.append b c).
Proof.
  induction a as [| x a IH].
  - reflexivity.
  - change (String.append (String x a) b) with (String x (String.append a b)).
    change (String.append (String x (String.append a b)) c)
      with (String x (String.append (String.append a b) c)).
    now rewrite IH.
Qed.

Lemma append_nil_r (a : string) : String.append a EmptyString = a.
Proof.
  induction a as [| x a IH]; [reflexivity |].
  change (String.append (String x a) EmptyString)
    with (String x (String.append a EmptyString)).
  now rewrite IH.
Qed.

Lemma tolower_idem (c : ascii) : tolower (tolower c) = tolower c.
Proof.
  destruct c as [[] [] [] [] [] [] [] []]; reflexivity.
Qed.

Lemma tolower_upper_case (c : ascii) : upper_case (tolower c) = false.
Proof.
  destruct c as [[] [] [] [] [] [] [] []]; reflexivity.
Qed.

Lemma tolower_zero (c : ascii) :
  Ascii.eqb (tolower c) zero = Ascii.eqb c zero.
Proof.
  destruct c as [[] [] [] [] [] [] [] []]; reflexivity.
Qed.

Lemma lower_append (a b : string) :
  lower (String.append a b) = String.append (lower a) (lower b).
Proof.
  induction a as [| x a IH]; [reflexivity |].
  change (String.append (String x a) b) with (String x (String.append a b)).
  cbn [lower]. rewrite IH. reflexivity.
Qed.

Lemma lower_idem (s : string) : lower (lower s) = lower s.
Proof.
  induction s as [| c s IH]; [reflexivity |].
  cbn [lower]. now rewrite tolower_idem, IH.
Qed.

Lemma lower_no_upper_case (s : string) : no_upper_case (lower s) = true.
Proof.
  induction s as [| c s IH]; [reflexivity |].
  cbn [lower no_upper_case]. now rewrite tolower_upper_case, IH.
Qed.

Lemma cstr_lower (s : string) : cstr (lower s) = lower (cstr s).
Proof.
  induction s as [| c s IH]; [reflexivity |].
  cbn [lower cstr]. rewrite tolower_zero.
  destruct (Ascii.eqb c zero); [reflexivity |].
  cbn [lower]. now rewrite IH.
Qed.

Lemma cstr_idem (s : string) : cstr (cstr s) = cstr s.
Proof.
  induction s as [| c s IH]; [reflexivity |].
  cbn [cstr]. destruct (Ascii.eqb c zero) eqn:E; [reflexivity |].
  cbn [cstr]. now rewrite E, IH.
Qed.

(** A C string cut out of [a] followed by [b] stops inside [a], or takes
    all of [a] and goes on in [b]. *)
Lemma cstr_append (a b : string) :
  cstr (String.append a b) = cstr a
  \/ (cstr a = a /\ cstr (String.append a b) = String.append a (cstr b)).
Proof.
  induction a as [| x a IH].
  - right. split; reflexivity.
  - change (String.append (String x a) b) with (String x (String.append a b)).
    cbn [cstr]. destruct (Ascii.eqb x zero); [left; reflexivity |].
    destruct IH as [-> | [E ->]]; [left; reflexivity |].
    right. rewrite E. split; reflexivity.
Qed.

Lemma strlen_normalize_name (w : state) (s : string) :
  strlen (normalize_name w s) = strlen s.
Proof.
  unfold normalize_name. destruct (force_lower_case w); [| reflexivity].
  apply strlen_lower.
Qed.

Lemma normalize_name_append (w : state) (a b : string) :
  normalize_name w (String.append a b)
  = String.append (normalize_name w a) (normalize_name w b).
Proof.
  unfold normalize_name. destruct (force_lower_case w); [| reflexivity].
  apply lower_append.
Qed.

Lemma node_get_path_inv (w : state) (np : Z) (nm : option string)
    (p : string) :
  node_get_path w np nm = Ok (Some p) ->
  exists room out r,
    0 <= room /\ room + strlen out = PATH_BUFFER_SIZE - 1
    /\ match nm with
       | Some s =>
           path_start (Some s) (s32 (strlen s)) (PATH_BUFFER_SIZE - 1)
             EmptyString = Ok (Some (room, out))
       | None => room = PATH_BUFFER_SIZE - 1 /\ out = EmptyString
       end
    /\ path_loop (Z.to_nat PATH_BUFFER_SIZE) w np room out = Ok (Some r)
    /\ p = normalize_name w (cstr r).
Proof.
  unfold node_get_path. cbv zeta. intros E.
  apply bind_ok in E as (x & Ex & E).
  destruct x as [[room out] |]; [| discriminate E].
  apply bind_ok in E as (r & Er & E).
  destruct r as [r |]; [| discriminate E].
  cbn [option_map] in E. injection E as <-.
  exists room, out, r. destruct nm as [s |].
  - pose proof (path_start_room _ _ _ _ _ _ Ex).
    pose proof (path_start_length _ _ _ _ _ _ Ex) as L.
    change (strlen EmptyString) with 0 in L.
    repeat split; try assumption; lia.
  - injection Ex as <- <-. unfold PATH_BUFFER_SIZE.
    change (strlen EmptyString) with 0.
    repeat split; try assumption; lia.
Qed.

(** X1.  A path that [node_get_path] returns fits the caller's buffer: it is
    at most [PATH_BUFFER_SIZE - 1] bytes long, whatever the node, the tree
    and the name. *)
Theorem node_get_path_fits (w : state) (np : Z) (nm : option string)
    (p : string) :
  node_get_path w np nm = Ok (Some p) ->
  strlen p <= PATH_BUFFER_SIZE - 1.
Proof.
  intros E. apply node_get_path_inv in E
    as (room & out & r & R & L & _ & E & ->).
  rewrite strlen_normalize_name.
  pose proof (strlen_cstr r).
  pose proof (path_loop_length _ _ _ _ _ _ R E). lia.
Qed.

(** X2.  A name of [PATH_BUFFER_SIZE - 1] bytes or more gets no path:
    [node_get_path] returns null for it, below any node, without reading
    the tree. *)
Theorem node_get_path_name_too_long (w : state) (np : Z) (nm : string) :
  PATH_BUFFER_SIZE - 1 <= strlen nm < 2 ^ 31 ->
  node_get_path w np (Some nm) = Ok None.
Proof.
  intros R. unfold node_get_path, path_start. cbv zeta.
  rewrite s32_small by (pose proof (strlen_nonneg nm); lia).
  destruct (Z.gtb_spec (strlen nm + 1) (PATH_BUFFER_SIZE - 1)); [| lia].
  reflexivity.
Qed.

(** A run of bytes without a zero byte stays whole in front of what
    follows it. *)
Lemma cstr_whole_append (a b : string) :
  cstr a = a -> cstr (String.append a b) = String.append a (cstr b).
Proof.
  induction a as [| x a IH]; intros E; [reflexivity |].
  change (String.append (String x a) b) with (String x (String.append a b)).
  cbn [cstr] in *. destruct (Ascii.eqb x zero); [discriminate E |].
  injection E as E. now rewrite (IH E).
Qed.

(** What the loop writes in front of the buffer holds no zero byte, unless
    a node of the tree has one among the [namelen] bytes of its name. *)
Lemma path_loop_parts (fuel : nat) :
  forall (w : state) (np : Z) (room room' : Z) (out out' r : string),
    path_loop fuel w np room out = Ok (Some r) ->
    room <= room' ->
    exists P,
      r = String.append P out
      /\ path_loop fuel w np room' out' = Ok (Some (String.append P out'))
      /\ (cstr P = P
          \/ exists a n s,
               nodes w !! a = Some n
               /\ memcpy_src (name n) (s32 (namelen n)) = Ok s
               /\ cstr s <> s).
Proof.
  induction fuel as [| fuel IH]; intros w np room room' out out' r E L.
  - cbn [path_loop] in *. destruct (np =? NULL); [| discriminate E].
    injection E as <-. exists EmptyString. repeat split. now left.
  - cbn [path_loop] in *. destruct (np =? NULL).
    { injection E as <-. exists EmptyString. repeat split. now left. }
    apply bind_ok in E as (n & En & E). rewrite En. cbn [bind].
    assert (Ln : nodes w !! np = Some n).
    { unfold load in En. destruct (nodes w !! np); [| discriminate En].
      now injection En as ->. }
    apply bind_ok in E as (x & Ex & E).
    destruct x as [[room1 out1] |]; [| discriminate E].
    apply path_start_shape in Ex as (s & M & L1 & -> & ->).
    rewrite (path_start_ok _ _ _ out' s M) by lia. cbn [bind].
    destruct (IH w (parent n) _ (room' - s32 (namelen n) - 1) _
                (String "/" (String.append s out')) r E)
      as (P & -> & E' & Z0); [lia |].
    exists (String.append P (String "/" s)). rewrite E'.
    change (String "/" (String.append s out))
      with (String.append (String "/" s) out).
    change (String "/" (String.append s out'))
      with (String.append (String "/" s) out').
    rewrite !append_assoc. repeat split.
    destruct Z0 as [Z0 | Z0]; [| now right].
    destruct (string_dec (cstr s) s) as [Zs | Zs].
    + left. rewrite (cstr_whole_append _ _ Z0). cbn [cstr].
      change (Ascii.eqb "/" zero) with false. cbv iota. now rewrite Zs.
    + right. exists np, n, s. auto.
Qed.

(** X3.  The path of a name below a directory is the path of the directory,
    a slash and the name, both normalized.  The one exception needs a node
    with a zero byte among the [namelen] bytes of its name: the path of the
    name is then the path of the directory alone. *)
Theorem child_path_extends (w : state) (dir : Z) (nm q : string) :
  strlen nm < 2 ^ 31 ->
  node_get_path w dir (Some nm) = Ok (Some q) ->
  exists p,
    node_get_path w dir None = Ok (Some p)
    /\ (q = String.append p (String "/" (normalize_name w (cstr nm)))
        \/ (q = p
            /\ exists a n s,
                 nodes w !! a = Some n
                 /\ memcpy_src (name n) (s32 (namelen n)) = Ok s
                 /\ cstr s <> s)).
Proof.
  intros R E. apply node_get_path_inv in E
    as (room & out & r & R0 & L & S & E & ->).
  rewrite s32_small in S by (pose proof (strlen_nonneg nm); lia).
  apply path_start_shape in S as (s & M & L1 & -> & ->).
  rewrite memcpy_src_whole in M. injection M as <-.
  rewrite append_nil_r in E.
  destruct (path_loop_parts _ _ _ _ (PATH_BUFFER_SIZE - 1) _ EmptyString _ E)
    as (P & -> & E' & Z0); [pose proof (strlen_nonneg nm); lia |].
  rewrite append_nil_r in E'.
  exists (normalize_name w (cstr P)). split.
  - unfold node_get_path. cbv zeta. cbn [bind]. rewrite E'. reflexivity.
  - assert (K : cstr P = P ->
                normalize_name w (cstr (String.append P (String "/" nm)))
                = String.append (normalize_name w (cstr P))
                    (String "/" (normalize_name w (cstr nm)))).
    { intros EP. rewrite (cstr_whole_append _ _ EP), EP.
      rewrite normalize_name_append. f_equal.
      unfold normalize_name. destruct (force_lower_case w); reflexivity. }
    destruct Z0 as [EP | Z0]; [left; now apply K |].
    destruct (cstr_append P (String "/" nm)) as [-> | [EP _]].
    + right. split; [reflexivity | exact Z0].
    + left. now apply K.
Qed.

(** X4.  With [force_lower_case] set, no path that [node_get_path] returns
    holds an upper-case letter. *)
Theorem node_get_path_lower_case (w : state) (np : Z) (nm : option string)
    (p : string) :
  force_lower_case w = true ->
  node_get_path w np nm = Ok (Some p) ->
  no_upper_case p = true.
Proof.
  intros F E. apply node_get_path_inv in E
    as (room & out & r & _ & _ & _ & _ & ->).
  unfold normalize_name. rewrite F. apply lower_no_upper_case.
Qed.

(** ** Names in need of normalizing *)

Lemma plain_char_zero (c : ascii) :
  (plain_char c =? 0) = Ascii.eqb c zero.
Proof.
  unfold plain_char.
  destruct c as [[] [] [] [] [] [] [] []]; destruct char_signed; reflexivity.
Qed.

(** A byte that [tolower] of the library leaves is not an upper-case
    letter, whatever the platform. *)
Lemma tolower_int_fixed (c : ascii) :
  (plain_char c =? tolower_int (plain_char c)) = true -> tolower c = c.
Proof.
  destruct c as [[] [] [] [] [] [] [] []]; try reflexivity;
    unfold plain_char; destruct char_signed; intros E; cbv in E;
    discriminate E.
Qed.

Lemma tolower_int_regular (c : ascii) :
  char_signed = false \/ high_byte c = false
  \/ (forall x, tolower_other x = x) ->
  tolower c = c ->
  (plain_char c =? tolower_int (plain_char c)) = true.
Proof.
  intros R E. unfold plain_char, tolower_int.
  destruct c as [[] [] [] [] [] [] [] []]; try discriminate E;
    destruct char_signed; try reflexivity;
    destruct R as [R | [R | R]]; try discriminate R;
    cbn; rewrite R; apply Z.eqb_refl.
Qed.

Lemma tolower_int_high (c : ascii) :
  char_signed = true ->
  (forall x, -128 <= x < -1 -> tolower_other x <> x) ->
  high_byte c = true ->
  (plain_char c =? tolower_int (plain_char c)) = false.
Proof.
  intros S M Hc. unfold plain_char, tolower_int, high_byte, EOF in *.
  rewrite S. apply andb_true_iff in Hc as (H1 & H2).
  apply N.leb_le in H1, H2. set (n := N_of_ascii c) in *.
  destruct (Z.leb_spec 128 (Z.of_N n)); [| lia]. cbn [andb].
  destruct (Z.leb_spec 0 (Z.of_N n - 256)); [lia |]. cbn [andb].
  destruct (Z.eqb_spec (Z.of_N n - 256) (-1)); [lia |].
  apply Z.eqb_neq. intros E. symmetry in E. revert E. apply M. lia.
Qed.

Lemma high_byte_tolower (c : ascii) : high_byte (tolower c) = high_byte c.
Proof.
  destruct c as [[] [] [] [] [] [] [] []]; reflexivity.
Qed.

Lemma no_high_byte_lower (s : string) :
  no_high_byte (lower s) = no_high_byte s.
Proof.
  induction s as [| c s IH]; [reflexivity |].
  cbn [lower no_high_byte]. now rewrite high_byte_tolower, IH.
Qed.

Lemma name_needs_normalizing_sound (s : string) :
  name_needs_normalizing s = false -> lower (cstr s) = cstr s.
Proof.
  induction s as [| c s IH]; [reflexivity |].
  cbn [name_needs_normalizing cstr]. rewrite plain_char_zero.
  destruct (Ascii.eqb c zero); [reflexivity |].
  destruct (plain_char c =? tolower_int (plain_char c)) eqn:M;
    cbn [negb]; [| discriminate].
  intros E. cbn [lower]. now rewrite (tolower_int_fixed c M), (IH E).
Qed.

Lemma name_needs_normalizing_regular (s : string) :
  char_signed = false \/ no_high_byte (cstr s) = true
  \/ (forall x, tolower_other x = x) ->
  lower (cstr s) = cstr s ->
  name_needs_normalizing s = false.
Proof.
  induction s as [| c s IH]; [reflexivity |].
  cbn [name_needs_normalizing cstr]. rewrite plain_char_zero.
  destruct (Ascii.eqb c zero); [reflexivity |].
  cbn [lower no_high_byte]. intros R E. injection E as Ec Es.
  rewrite (tolower_int_regular c); [| | exact Ec].
  - cbn [negb]. apply IH; [| exact Es].
    destruct R as [R | [R | R]]; auto.
    apply andb_true_iff in R as (_ & R). auto.
  - destruct R as [R | [R | R]]; auto.
    apply andb_true_iff in R as (R & _). apply negb_true_iff in R. auto.
Qed.

Lemma name_needs_normalizing_high (s : string) :
  char_signed = true ->
  (forall x, -128 <= x < -1 -> tolower_other x <> x) ->
  no_high_byte (cstr s) = false ->
  name_needs_normalizing s = true.
Proof.
  intros S M. induction s as [| c s IH]; [discriminate |].
  cbn [name_needs_normalizing cstr]. rewrite plain_char_zero.
  destruct (Ascii.eqb c zero); [discriminate |].
  cbn [no_high_byte]. intros E.
  destruct (high_byte c) eqn:Hc.
  - now rewrite (tolower_int_high c S M Hc).
  - destruct (plain_char c =? tolower_int (plain_char c)); [| reflexivity].
    cbn [negb]. apply IH. exact E.
Qed.

(** X5.  A name for which [name_needs_normalizing] says no has no letter
    in upper case, on every platform.  Where plain [char] is unsigned,
    where the name has no byte from 0x80 to 0xfe, or where [tolower]
    returns a negative argument as it is, it says no exactly for the names
    that lower-casing leaves as they are, and so for every name that
    [normalize_name] has lower-cased.  Where plain [char] is signed and
    [tolower] moves the negative arguments, it says yes for every name
    with such a byte, normalized or not. *)
Theorem name_needs_normalizing_iff (s : string) :
  (name_needs_normalizing s = false -> lower (cstr s) = cstr s)
  /\ (char_signed = false \/ no_high_byte (cstr s) = true
      \/ (forall x, tolower_other x = x) ->
      (name_needs_normalizing s = false <-> lower (cstr s) = cstr s)
      /\ forall w,
           force_lower_case w = true ->
           name_needs_normalizing (normalize_name w s) = false)
  /\ (char_signed = true ->
      (forall x, -128 <= x < -1 -> tolower_other x <> x) ->
      no_high_byte (cstr s) = false ->
      name_needs_normalizing s = true
      /\ forall w, name_needs_normalizing (normalize_name w s) = true).
Proof.
  split; [apply name_needs_normalizing_sound |]. split.
  - intros R. split.
    + split; [apply name_needs_normalizing_sound |].
      now apply name_needs_normalizing_regular.
    + intros w F. unfold normalize_name. rewrite F.
      apply name_needs_normalizing_regular.
      * rewrite cstr_lower, no_high_byte_lower. exact R.
      * now rewrite cstr_lower, lower_idem.
  - intros S M E. split; [now apply name_needs_normalizing_high |].
    intros w. apply name_needs_normalizing_high; [exact S | exact M |].
    unfold normalize_name. destruct (force_lower_case w); [| exact E].
    now rewrite cstr_lower, no_high_byte_lower.
Qed.

Lemma path_loop_fuel (fuel : nat) :
  forall (fuel' : nat) (w : state) (np : Z) (room : Z) (out : string)
         (r : option string),
    path_loop fuel w np room out = Ok r ->
    0 <= room < Z.of_nat fuel' ->
    path_loop fuel' w np room out = Ok r.
Proof.
  induction fuel as [| fuel IH]; intros fuel' w np room out r E R.
  - destruct fuel' as [| fuel']; [lia |].
    cbn [path_loop] in *. destruct (np =? NULL); [exact E | discriminate E].
  - destruct fuel' as [| fuel']; [lia |].
    cbn [path_loop] in *. destruct (np =? NULL); [exact E |].
    apply bind_ok in E as (n & En & E). rewrite En. cbn [bind].
    apply bind_ok in E as (x & Ex & E). rewrite Ex. cbn [bind].
    destruct x as [[room1 out1] |]; [| exact E].
    apply IH; [exact E |]. apply path_start_room in Ex. lia.
Qed.

Lemma s32_u32_s32 (x : Z) : 0 <= x < 2 ^ 31 -> s32 (u32 (s32 x)) = x.
Proof.
  intros R. rewrite (s32_small x R), (u32_small x) by lia.
  now apply s32_small.
Qed.

(** X6.  The node that a LOOKUP creates has as its own path the path the
    LOOKUP gave to [lstat]: later requests on the node reach the same host
    file. *)
Theorem created_node_path (fuel : nat) (h : host) (dir : Z) (nm : string)
    (uniq : Z) (w : state) (path : option string) (st : stat) (p : node)
    (a : Z) :
  nodes w !! dir = Some p ->
  strlen nm < 2 ^ 31 ->
  node_get_path w dir (Some nm) = Ok path ->
  h_lstat h path = SysOk st ->
  lookup_child_by_name fuel w dir nm = Ok NULL ->
  h_calloc h = a /\ h_malloc_name h = true ->
  nodes w !! a = None /\ a <> NULL ->
  exists w1,
    lookup_entry fuel h dir nm uniq w = Ok w1
    /\ node_get_path w1 a None = Ok path.
Proof.
  intros E R P L C [A M] [F N].
  assert (D : a <> dir) by (intros ->; rewrite E in F; discriminate F).
  rewrite (lookup_entry_creates fuel h dir nm uniq w path st p a)
    by assumption.
  eexists. split; [reflexivity |]. unfold fuse_reply.
  match goal with
  | |- node_get_path (chan_write ?h0 ?m ?s) _ _ = _ =>
      pose proof (created_state_after w dir p a nm h0 m D) as AL;
      set (w1 := chan_write h0 m s) in *
  end.
  pose proof (after_lookups_names _ _ _ _ _ _ _ E F AL) as SN.
  destruct AL as (_ & Hl & Hn).
  assert (R' : 0 <= strlen nm < 2 ^ 31)
    by (pose proof (strlen_nonneg nm); lia).
  unfold node_get_path in *. cbv zeta in *. cbn [bind].
  change (Z.to_nat PATH_BUFFER_SIZE) with (S (Z.to_nat 1023)).
  cbn [path_loop].
  assert (Z : (a =? NULL) = false) by (apply Z.eqb_neq; exact N).
  rewrite Z. unfold load. rewrite Hn, lookup_insert_eq. cbn [bind].
  cbn [name namelen parent set_refcount created_node].
  rewrite s32_u32_s32 by exact R'. rewrite s32_small in P by exact R'.
  destruct (path_start (Some nm) (strlen nm) (PATH_BUFFER_SIZE - 1)
              EmptyString) as [[[room out] |] | |] eqn:S0;
    cbn [bind] in *; try discriminate P; [| exact P].
  apply bind_ok in P as (r & Pr & P).
  apply (path_loop_same _ _ SN) in Pr.
  apply (path_loop_fuel _ (Z.to_nat 1023)) in Pr.
  - rewrite Pr. cbn [bind]. unfold normalize_name in *. rewrite Hl. exact P.
  - apply path_start_room in S0. unfold PATH_BUFFER_SIZE in S0. lia.
Qed.

(** ** Child lists *)

Lemma segment_nil (w : state) (c c' : Z) :
  segment w c [] c' = true <-> c = c'.
Proof. cbn [segment]. apply Z.eqb_eq. Qed.

Lemma segment_cons (w : state) (c a : Z) (l : list Z) (c' : Z) :
  segment w c (a :: l) c' = true
  <-> c = a /\ a <> NULL
      /\ exists n, nodes w !! a = Some n /\ segment w (next n) l c' = true.
Proof.
  cbn [segment]. rewrite !andb_true_iff, negb_true_iff, Z.eqb_eq, Z.eqb_neq.
  split.
  - intros [[E N] C]. destruct (nodes w !! a) as [n |]; [| discriminate C].
    eauto.
  - intros (E & N & n & -> & C). auto.
Qed.

Lemma segment_app (w : state) (l1 l2 : list Z) (c' : Z) :
  forall c, segment w c (l1 ++ l2) c' = true
            <-> exists m, segment w c l1 m = true
                          /\ segment w m l2 c' = true.
Proof.
  induction l1 as [| a l1 IH]; intros c.
  - cbn [app]. split.
    + intros C. exists c. split; [now apply segment_nil | exact C].
    + intros (m & E & C). apply segment_nil in E as ->. exact C.
  - cbn [app]. rewrite segment_cons. split.
    + intros (-> & N & n & L & C). apply IH in C as (m & C1 & C2).
      exists m. split; [| exact C2]. apply segment_cons. eauto.
    + intros (m & C1 & C2). apply segment_cons in C1 as (-> & N & n & L & C1).
      split; [reflexivity |]. split; [exact N |]. exists n.
      split; [exact L |]. apply IH. eauto.
Qed.

Lemma chain_nil (w : state) (c : Z) : chain w c [] = true <-> c = NULL.
Proof. apply segment_nil. Qed.

Lemma chain_cons (w : state) (c a : Z) (l : list Z) :
  chain w c (a :: l) = true
  <-> c = a /\ a <> NULL
      /\ exists n, nodes w !! a = Some n /\ chain w (next n) l = true.
Proof. apply segment_cons. Qed.

Lemma chain_functional (w : state) (l1 : list Z) :
  forall c l2, chain w c l1 = true -> chain w c l2 = true -> l1 = l2.
Proof.
  induction l1 as [| a l1 IH]; intros c [| b l2] C1 C2.
  - reflexivity.
  - apply chain_nil in C1. apply chain_cons in C2 as (-> & N & _).
    contradiction.
  - apply chain_nil in C2. apply chain_cons in C1 as (-> & N & _).
    contradiction.
  - apply chain_cons in C1 as (-> & _ & n & L & C1).
    apply chain_cons in C2 as (<- & _ & n' & L' & C2).
    rewrite L in L'. injection L' as <-. f_equal. now apply (IH (next n)).
Qed.

Lemma chain_suffix (w : state) (l1 : list Z) (a : Z) (l2 : list Z) :
  forall c, chain w c (l1 ++ a :: l2) = true -> chain w a (a :: l2) = true.
Proof.
  intros c C. apply segment_app in C as (m & _ & C).
  pose proof C as C'. apply segment_cons in C' as (-> & _). exact C.
Qed.

Lemma chain_NoDup (w : state) (l : list Z) :
  forall c, chain w c l = true -> NoDup l.
Proof.
  induction l as [| a l IH]; intros c C; [constructor |].
  pose proof C as C0.
  apply chain_cons in C as (-> & N & n & L & C).
  constructor; [| now apply (IH (next n))].
  intros I. apply list_elem_of_split in I as (l1 & l2 & ->).
  pose proof (chain_suffix w (a :: l1) a l2 a C0) as C1.
  pose proof (chain_functional _ _ _ _ C0 C1) as E.
  apply (f_equal (@length Z)) in E. cbn [length] in E.
  rewrite length_app in E. cbn [length] in E. lia.
Qed.

(** A sibling list is read through [next] only. *)
Lemma segment_ext (w w' : state) (l : list Z) (c' : Z) :
  (forall a, a ∈ l -> next <$> nodes w' !! a = next <$> nodes w !! a) ->
  forall c, segment w c l c' = true -> segment w' c l c' = true.
Proof.
  induction l as [| a l IH]; intros E c C; [exact C |].
  apply segment_cons in C as (-> & N & n & L & C). apply segment_cons.
  split; [reflexivity |]. split; [exact N |].
  pose proof (E a (list_elem_of_here _ _)) as Ea. rewrite L in Ea.
  destruct (nodes w' !! a) as [n' |]; [| discriminate Ea].
  cbn in Ea. injection Ea as Ea. exists n'. split; [reflexivity |].
  rewrite Ea. apply IH; [| exact C]. intros b I. apply E.
  now apply list_elem_of_further.
Qed.

Lemma segment_live (w : state) (l : list Z) (c' : Z) :
  forall c a, segment w c l c' = true -> a ∈ l ->
              a <> NULL /\ is_Some (nodes w !! a).
Proof.
  induction l as [| b l IH]; intros c a C I.
  - inversion I.
  - apply segment_cons in C as (-> & N & n & L & C).
    apply elem_of_cons in I as [-> | I]; [eauto |].
    now apply (IH (next n)).
Qed.

Lemma find_child_by_name_chain (w : state) (nm : string) (l : list Z) :
  forall (fuel : nat) (c : Z),
    chain w c l = true -> named w l = true ->
    (length l <= fuel)%nat ->
    find_child_by_name fuel w c nm = Ok (first_with (has_name w nm) l).
Proof.
  induction l as [| a l IH]; intros fuel c C N F.
  - apply chain_nil in C as ->. destruct fuel; reflexivity.
  - apply chain_cons in C as (-> & Z & n & L & C).
    cbn [named forallb] in N. apply andb_true_iff in N as (N1 & N).
    rewrite L in N1. apply bool_decide_eq_true in N1 as [s Es].
    destruct fuel as [| fuel]; [cbn [length] in F; lia |].
    cbn [find_child_by_name]. apply Z.eqb_neq in Z. rewrite Z.
    rewrite (load_lookup _ _ _ L). cbn [bind]. rewrite Es.
    unfold first_with. cbn [List.find]. unfold has_name at 1.
    rewrite L, Es. destruct (String.eqb nm s); [reflexivity |].
    apply IH; [exact C | exact N | cbn [length] in F; lia].
Qed.

Lemma find_child_by_inode_chain (w : state) (id : Z) (l : list Z) :
  forall (fuel : nat) (c : Z),
    chain w c l = true ->
    (length l <= fuel)%nat ->
    find_child_by_inode fuel w c id = Ok (first_with (has_id w id) l).
Proof.
  induction l as [| a l IH]; intros fuel c C F.
  - apply chain_nil in C as ->. destruct fuel; reflexivity.
  - apply chain_cons in C as (-> & Z & n & L & C).
    destruct fuel as [| fuel]; [cbn [length] in F; lia |].
    cbn [find_child_by_inode]. apply Z.eqb_neq in Z. rewrite Z.
    rewrite (load_lookup _ _ _ L). cbn [bind].
    unfold first_with. cbn [List.find]. unfold has_id at 1.
    rewrite L. destruct (nid n =? id); [reflexivity |].
    apply IH; [exact C | cbn [length] in F; lia].
Qed.

(** X7.  On a well-formed child list of named nodes, [lookup_child_by_name]
    returns the first child that has the name and [lookup_child_by_inode]
    the first that has the id, null when there is none; with fuel for
    the length of the list neither faults nor runs on. *)
Theorem lookup_child_finds_first (fuel : nat) (w : state) (dir : Z)
    (p : node) (l : list Z) (nm : string) (id : Z) :
  nodes w !! dir = Some p ->
  chain w (child p) l = true ->
  named w l = true ->
  (length l <= fuel)%nat ->
  lookup_child_by_name fuel w dir nm = Ok (first_with (has_name w nm) l)
  /\ lookup_child_by_inode fuel w dir id = Ok (first_with (has_id w id) l).
Proof.
  intros E C N F. unfold lookup_child_by_name, lookup_child_by_inode.
  rewrite (load_lookup _ _ _ E). cbn [bind]. split.
  - now apply find_child_by_name_chain.
  - now apply find_child_by_inode_chain.
Qed.

Lemma remove_child_loop_chain (w : state) (dir id t : Z) (l2 : list Z)
    (l1 : list Z) :
  forall (fuel : nat) (prev c : Z),
    chain w c (l1 ++ t :: l2) = true ->
    forallb (fun a => negb (has_id w id a)) l1 = true ->
    has_id w id t = true ->
    (length l1 < fuel)%nat ->
    remove_child_loop fuel dir id prev c w
    = unlink dir (List.last l1 prev) t w.
Proof.
  induction l1 as [| a l1 IH]; intros fuel prev c C N T F.
  - cbn [app] in C. apply chain_cons in C as (-> & Z & n & L & C).
    destruct fuel as [| fuel]; [cbn [length] in F; lia |].
    cbn [remove_child_loop List.last]. apply Z.eqb_neq in Z. rewrite Z.
    unfold unlink. rewrite (load_lookup _ _ _ L). cbn [bind].
    unfold has_id in T. rewrite L in T. rewrite T. reflexivity.
  - cbn [app] in C. apply chain_cons in C as (-> & Z & n & L & C).
    destruct fuel as [| fuel]; [cbn [length] in F; lia |].
    cbn [remove_child_loop]. apply Z.eqb_neq in Z. rewrite Z.
    rewrite (load_lookup _ _ _ L). cbn [bind].
    cbn [forallb] in N. apply andb_true_iff in N as (N1 & N).
    unfold has_id in N1. rewrite L in N1. apply negb_true_iff in N1.
    rewrite N1. rewrite (IH fuel a (next n) C N T)
      by (cbn [length] in F; lia).
    f_equal. destruct l1 as [| b l1]; [reflexivity |].
    cbn [List.last]. clear. revert b. induction l1 as [| b' l1 IH2];
      intros b; [reflexivity |]. apply IH2.
Qed.

Ltac heap :=
  first
    [ rewrite lookup_insert_eq
    | rewrite lookup_insert_ne by congruence
    | rewrite lookup_delete_eq
    | rewrite lookup_delete_ne by congruence
    | progress cbn [bind nodes set_nodes refcount child next parent
                    set_child set_next set_parent set_refcount] ].

Lemma absent_spec (a : Z) (l : list Z) : absent a l = true <-> a ∉ l.
Proof.
  unfold absent. induction l as [| b l IH]; cbn [forallb].
  - split; [intros _ I; inversion I | reflexivity].
  - rewrite andb_true_iff, negb_true_iff, Z.eqb_neq, IH, not_elem_of_cons.
    split; intros [? ?]; split; congruence.
Qed.

Lemma nodes_store_eq (a : Z) (n : node) (w : state) :
  nodes (store a n w) !! a = Some n.
Proof. unfold store. destruct w. apply lookup_insert_eq. Qed.

Lemma nodes_store_ne (a b : Z) (n : node) (w : state) :
  a <> b -> nodes (store a n w) !! b = nodes w !! b.
Proof. intros N. unfold store. destruct w. now apply lookup_insert_ne. Qed.

Lemma nodes_free_eq (a : Z) (w : state) : nodes (free_node a w) !! a = None.
Proof. unfold free_node. destruct w. apply lookup_delete_eq. Qed.

Lemma nodes_free_ne (a b : Z) (w : state) :
  a <> b -> nodes (free_node a w) !! b = nodes w !! b.
Proof. intros N. unfold free_node. destruct w. now apply lookup_delete_ne. Qed.

Ltac look :=
  repeat first
    [ rewrite nodes_store_eq
    | rewrite nodes_store_ne by congruence
    | rewrite nodes_free_eq
    | rewrite nodes_free_ne by congruence ];
  first [ eassumption | reflexivity ].

Ltac run :=
  repeat first
    [ progress cbn [bind]
    | erewrite load_lookup by look
    | erewrite upd_lookup by look ].

Lemma nodes_store (a : Z) (n : node) (w : state) :
  nodes (store a n w) = <[a := n]> (nodes w).
Proof. now destruct w. Qed.

Lemma nodes_free (a : Z) (w : state) :
  nodes (free_node a w) = delete a (nodes w).
Proof. now destruct w. Qed.

(** Two states that differ in their nodes at most. *)
Lemma heap_ext (w1 w2 : state) :
  set_nodes ∅ w1 = set_nodes ∅ w2 -> nodes w1 = nodes w2 -> w1 = w2.
Proof.
  destruct w1, w2. unfold set_nodes. cbn. intros E ->.
  now injection E as -> -> -> -> -> -> -> -> -> ->.
Qed.

Ltac same_heap w :=
  apply heap_ext;
  [ now destruct w
  | rewrite ?nodes_free, ?nodes_store; apply map_eq; intros k ].

Lemma unlink_first (w : state) (dir t : Z) (p nt : node) :
  nodes w !! dir = Some p -> nodes w !! t = Some nt -> t <> dir ->
  0 < refcount p < 2 ^ 32 ->
  unlink dir NULL t w
  = Ok (t, store dir (set_refcount (refcount p - 1)
                        (set_child (next nt) p))
             (store t (set_parent NULL (set_next NULL nt)) w)).
Proof.
  intros E T D R. unfold unlink. run.
  change (NULL =? NULL) with true. cbv iota. run.
  erewrite dec_refcount_live; [| look | exact R]. run.
  do 2 f_equal. same_heap w.
  destruct (decide (k = dir)) as [-> | Kd];
    [| destruct (decide (k = t)) as [-> | Kt]];
    repeat heap; reflexivity.
Qed.

Lemma unlink_later (w : state) (dir prev t : Z) (p np nt : node) :
  nodes w !! dir = Some p -> nodes w !! t = Some nt ->
  nodes w !! prev = Some np ->
  t <> dir -> prev <> dir -> prev <> t -> prev <> NULL ->
  0 < refcount p < 2 ^ 32 ->
  unlink dir prev t w
  = Ok (t, store dir (set_refcount (refcount p - 1) p)
             (store t (set_parent NULL (set_next NULL nt))
                (store prev (set_next (next nt) np) w))).
Proof.
  intros E T P D1 D2 D3 N R. unfold unlink. run.
  apply Z.eqb_neq in N. rewrite N. run.
  erewrite dec_refcount_live; [| look | exact R]. run.
  do 2 f_equal. same_heap w.
  destruct (decide (k = dir)) as [-> | Kd];
    [| destruct (decide (k = t)) as [-> | Kt];
       [| destruct (decide (k = prev)) as [-> | Kp]]];
    repeat heap; reflexivity.
Qed.

Lemma absent_app (a : Z) (l1 l2 : list Z) :
  absent a (l1 ++ l2) = true <-> (a ∉ l1) /\ (a ∉ l2).
Proof. rewrite absent_spec, not_elem_of_app. reflexivity. Qed.

(** X8.  [remove_child] takes the first child that carries the id out of
    the list, wherever it stands: the children before and after it keep
    their order, the node loses its [next] and [parent], the parent gives
    one reference back, and no other node is touched. *)
Theorem remove_child_unlinks (fuel : nat) (w : state) (dir id t : Z)
    (p nt : node) (l1 l2 : list Z) :
  nodes w !! dir = Some p ->
  chain w (child p) (l1 ++ t :: l2) = true ->
  absent dir (l1 ++ t :: l2) = true ->
  forallb (fun a => negb (has_id w id a)) l1 = true ->
  nodes w !! t = Some nt -> nid nt = id ->
  0 < refcount p < 2 ^ 32 ->
  (length l1 < fuel)%nat ->
  exists w' p',
    remove_child fuel dir id w = Ok (t, w')
    /\ nodes w' !! dir = Some p'
    /\ p' = set_refcount (refcount p - 1) (set_child (child p') p)
    /\ chain w' (child p') (l1 ++ l2) = true
    /\ nodes w' !! t = Some (set_parent NULL (set_next NULL nt))
    /\ (forall q, last l1 = Some q ->
          nodes w' !! q = set_next (next nt) <$> nodes w !! q)
    /\ (forall q, q <> dir -> q <> t -> last l1 <> Some q ->
          nodes w' !! q = nodes w !! q).
Proof.
  intros E C A N T I R F.
  pose proof (chain_NoDup _ _ _ C) as ND.
  apply absent_app in A as (A1 & A2).
  apply not_elem_of_cons in A2 as (Dt & A2).
  apply NoDup_app in ND as (ND1 & ND12 & ND2).
  apply NoDup_cons in ND2 as (Nt2 & ND2).
  assert (Ht : has_id w id t = true)
    by (unfold has_id; rewrite T; now apply Z.eqb_eq).
  unfold remove_child. rewrite (load_lookup _ _ _ E). cbn [bind].
  rewrite (remove_child_loop_chain w dir id t l2 l1 fuel NULL _ C N Ht F).
  apply segment_app in C as (m & C1 & C2).
  apply segment_cons in C2 as (-> & _ & nt' & T' & C2).
  rewrite T in T'. injection T' as <-.
  destruct l1 as [| pred l1 _] using rev_ind.
  - apply segment_nil in C1. cbn [List.last app].
    rewrite (unlink_first w dir t p nt E T) by (congruence || exact R).
    eexists. eexists. split; [reflexivity |].
    split; [look |]. split; [destruct p; reflexivity |].
    cbn [child set_refcount set_child]. split.
    { apply (segment_ext w); [| exact C2]. intros a Ia.
      assert (a <> t) by (intros ->; contradiction).
      assert (a <> dir) by (intros ->; contradiction).
      now rewrite !nodes_store_ne by congruence. }
    split; [now rewrite nodes_store_ne, nodes_store_eq by congruence |].
    split; [intros q Q; discriminate Q |].
    intros q Q1 Q2 _. now rewrite !nodes_store_ne by congruence.
  - apply segment_app in C1 as (m & C0 & C1).
    apply segment_cons in C1 as (-> & Np & np & P & C1).
    apply segment_nil in C1.
    apply NoDup_app in ND1 as (ND0 & ND01 & _).
    apply not_elem_of_app in A1 as (A0 & Ap).
    apply not_elem_of_cons in Ap as (Dp & _).
    assert (Pt : pred <> t).
    { intros ->. apply (ND12 t); [| left].
      apply elem_of_app. right. left. }
    rewrite List.last_last.
    rewrite (unlink_later w dir pred t p np nt E T P)
      by (congruence || exact R).
    eexists. eexists. split; [reflexivity |].
    split; [look |]. split; [destruct p; reflexivity |].
    cbn [child set_refcount]. split.
    { rewrite <- app_assoc. apply segment_app. exists pred. split.
      - apply (segment_ext w); [| exact C0]. intros a Ia.
        assert (a <> t).
        { intros ->. apply (ND12 t); [| left]. apply elem_of_app. now left. }
        assert (a <> dir) by (intros ->; contradiction).
        assert (a <> pred).
        { intros ->. apply (ND01 pred Ia). left. }
        now rewrite !nodes_store_ne by congruence.
      - cbn [app]. apply segment_cons. split; [reflexivity |].
        split; [exact Np |]. eexists. split; [look |].
        cbn [next set_next].
        apply (segment_ext w); [| exact C2]. intros a Ia.
        assert (a <> t) by (intros ->; contradiction).
        assert (a <> dir) by (intros ->; contradiction).
        assert (a <> pred).
        { intros ->. apply (ND12 pred); [| now right].
          apply elem_of_app. right. left. }
        now rewrite !nodes_store_ne by congruence. }
    split; [now rewrite nodes_store_ne, nodes_store_eq by congruence |].
    split.
    + intros q Q. rewrite last_snoc in Q. injection Q as <-.
      rewrite !nodes_store_ne, nodes_store_eq by congruence.
      rewrite P. reflexivity.
    + intros q Q1 Q2 Q3. rewrite last_snoc in Q3.
      assert (q <> pred) by congruence.
      now rewrite !nodes_store_ne by congruence.
Qed.

Lemma find_prev_chain (w : state) (t pred : Z) (l : list Z) :
  forall (fuel : nat) (c : Z),
    segment w c (l ++ [pred]) t = true ->
    t ∉ l ++ [pred] ->
    (length l < fuel)%nat ->
    find_prev fuel w c t = Ok pred.
Proof.
  induction l as [| a l IH]; intros fuel c C N F.
  - cbn [app] in C. apply segment_cons in C as (-> & _ & n & L & C).
    apply segment_nil in C. destruct fuel as [| fuel]; [lia |].
    cbn [find_prev]. rewrite (load_lookup _ _ _ L). cbn [bind].
    now rewrite C, Z.eqb_refl.
  - cbn [app] in C. apply segment_cons in C as (-> & _ & n & L & C).
    destruct fuel as [| fuel]; [cbn [length] in F; lia |].
    cbn [find_prev]. rewrite (load_lookup _ _ _ L). cbn [bind].
    cbn [app] in N. apply not_elem_of_cons in N as (_ & N).
    assert (Hn : next n <> t).
    { intros Hn. apply N. rewrite <- Hn.
      destruct l as [| b l]; cbn [app] in C |- *;
        apply segment_cons in C as (-> & _); left. }
    apply Z.eqb_neq in Hn. rewrite Hn.
    apply IH; [exact C | exact N | cbn [length] in F; lia].
Qed.

Lemma root_store (a : Z) (n : node) (w : state) :
  root (store a n w) = root w.
Proof. now destruct w. Qed.

Lemma destroy_ok (a : Z) (w : state) (n : node) (s : string) :
  nodes w !! a = Some n -> name n = Some s -> namelen n <= strlen s + 1 ->
  a <> root w ->
  destroy a w = Ok (free_node a w).
Proof.
  intros L N B R. unfold destroy. rewrite (load_lookup _ _ _ L).
  cbn [bind]. rewrite N.
  destruct (Z.ltb_spec (strlen s + 1) (namelen n)); [lia |].
  rewrite andb_false_r.
  destruct (Z.eqb_spec a (root w)); [contradiction | reflexivity].
Qed.

(** The node [t] holds its last reference and comes after [pred] in the
    child list of [dir], which has other references of its own. *)
Lemma node_release_later (fuel : nat) (w : state) (dir t pred : Z)
    (p nt np : node) (s : string) (l : list Z) :
  nodes w !! t = Some nt -> refcount nt = 1 -> parent nt = dir ->
  name nt = Some s -> namelen nt <= strlen s + 1 ->
  nodes w !! dir = Some p ->
  segment w (child p) (l ++ [pred]) t = true ->
  t ∉ l ++ [pred] ->
  nodes w !! pred = Some np ->
  1 < refcount p < 2 ^ 32 ->
  t <> dir -> pred <> dir -> t <> root w ->
  (length l < fuel)%nat ->
  node_release (S fuel) t w
  = Ok (free_node t
          (store dir (set_refcount (refcount p - 1) p)
             (store pred (set_next (next nt) np) w))).
Proof.
  intros T Rt Pt Nt Bt E C N P Rp D1 D2 D3 F.
  assert (Pn : pred <> t).
  { intros ->. apply N. apply elem_of_app. right. left. }
  assert (Hc : child p <> t).
  { intros Hc. apply N. rewrite <- Hc.
    destruct l as [| b l]; cbn [app] in C |- *;
      apply segment_cons in C as (-> & _); left. }
  rewrite node_release_unfold.
  rewrite (dec_refcount_live _ _ _ T) by lia. run.
  cbn [refcount set_refcount parent]. rewrite Rt, Pt.
  change (1 - 1 =? 0) with true. cbv iota. run.
  apply Z.eqb_neq in Hc. rewrite Hc.
  rewrite (find_prev_chain _ t pred l); [| | exact N | exact F].
  2:{ apply (segment_ext w); [| exact C]. intros a Ia.
      assert (a <> t) by (intros ->; contradiction).
      now rewrite nodes_store_ne by congruence. }
  run. cbn [next set_refcount parent]. rewrite Pt.
  destruct fuel as [| fuel]; [lia |].
  erewrite node_release_live; [| look | exact Rp]. run.
  erewrite destroy_ok; [| look | exact Nt | exact Bt |].
  2:{ now rewrite !root_store. }
  f_equal. same_heap w.
  destruct (decide (k = t)) as [-> | Kt];
    [| destruct (decide (k = dir)) as [-> | Kd];
       [| destruct (decide (k = pred)) as [-> | Kp]]];
    repeat heap; reflexivity.
Qed.

(** The last release of a child at any place of the list. *)
Lemma node_release_any (fuel : nat) (w : state) (dir t : Z)
    (p nt : node) (s : string) (l1 l2 : list Z) :
  nodes w !! t = Some nt ->
  refcount nt = 1 /\ parent nt = dir ->
  name nt = Some s /\ namelen nt <= strlen s + 1 ->
  nodes w !! dir = Some p ->
  chain w (child p) (l1 ++ t :: l2) = true ->
  absent dir (l1 ++ t :: l2) = true ->
  1 < refcount p < 2 ^ 32 ->
  t <> root w ->
  (length l1 < fuel)%nat ->
  exists w' p',
    node_release (S fuel) t w = Ok w'
    /\ nodes w' !! t = None
    /\ nodes w' !! dir = Some p'
    /\ p' = set_refcount (refcount p - 1) (set_child (child p') p)
    /\ chain w' (child p') (l1 ++ l2) = true
    /\ (forall q, last l1 = Some q ->
          nodes w' !! q = set_next (next nt) <$> nodes w !! q)
    /\ (forall q, q <> dir -> q <> t -> last l1 <> Some q ->
          nodes w' !! q = nodes w !! q).
Proof.
  intros T [Rt Pt] [Nt Bt] E C A Rp D3 F.
  pose proof (chain_NoDup _ _ _ C) as ND.
  apply absent_app in A as (A1 & A2).
  apply not_elem_of_cons in A2 as (Dt & A2).
  apply NoDup_app in ND as (ND1 & ND12 & ND2).
  apply NoDup_cons in ND2 as (Nt2 & ND2).
  apply segment_app in C as (m & C1 & C2).
  pose proof C2 as C2'.
  apply segment_cons in C2 as (-> & _ & nt' & T' & C2).
  rewrite T in T'. injection T' as <-.
  destruct l1 as [| pred l1 _] using rev_ind.
  - apply segment_nil in C1. destruct fuel as [| fuel]; [cbn in F; lia |].
    rewrite (node_release_last fuel t dir w nt p s T Rt Pt Nt Bt E C1 Rp)
      by congruence.
    eexists. eexists. split; [reflexivity |].
    split; [look |].
    split; [now rewrite nodes_free_ne, nodes_store_eq by congruence |].
    split; [destruct p; reflexivity |].
    cbn [child set_refcount set_child app]. split.
    { apply (segment_ext w); [| exact C2]. intros a Ia.
      assert (a <> t) by (intros ->; contradiction).
      assert (a <> dir) by (intros ->; contradiction).
      now rewrite nodes_free_ne, nodes_store_ne by congruence. }
    split; [intros q Q; discriminate Q |].
    intros q Q1 Q2 _.
    now rewrite nodes_free_ne, nodes_store_ne by congruence.
  - pose proof C1 as C1'.
    apply segment_app in C1 as (m & C0 & C1).
    apply segment_cons in C1 as (-> & Np & np & P & C1).
    apply segment_nil in C1.
    apply NoDup_app in ND1 as (ND0 & ND01 & _).
    assert (Ap := A1).
    apply not_elem_of_app in Ap as (A0 & Ap).
    apply not_elem_of_cons in Ap as (Dp & _).
    assert (N1 : t ∉ l1 ++ [pred]).
    { intros I. apply (ND12 t I). left. }
    assert (Pt' : pred <> t).
    { intros ->. apply N1. apply elem_of_app. right. left. }
    rewrite length_app in F. cbn [length] in F.
    rewrite (node_release_later fuel w dir t pred p nt np s l1
               T Rt Pt Nt Bt E C1' N1 P Rp)
      by (congruence || lia).
    eexists. eexists. split; [reflexivity |].
    split; [look |].
    split; [now rewrite nodes_free_ne, nodes_store_eq by congruence |].
    split; [destruct p; reflexivity |].
    cbn [child set_refcount]. split.
    { rewrite <- app_assoc. apply segment_app. exists pred. split.
      - apply (segment_ext w); [| exact C0]. intros a Ia.
        assert (a <> t).
        { intros ->. apply N1. apply elem_of_app. now left. }
        assert (a <> dir) by (intros ->; contradiction).
        assert (a <> pred).
        { intros ->. apply (ND01 pred Ia). left. }
        now rewrite nodes_free_ne, !nodes_store_ne by congruence.
      - cbn [app]. apply segment_cons. split; [reflexivity |].
        split; [exact Np |]. eexists. split; [look |].
        cbn [next set_next].
        apply (segment_ext w); [| exact C2]. intros a Ia.
        assert (a <> t) by (intros ->; contradiction).
        assert (a <> dir) by (intros ->; contradiction).
        assert (a <> pred).
        { intros ->. apply (ND12 pred); [| now right].
          apply elem_of_app. right. left. }
        now rewrite nodes_free_ne, !nodes_store_ne by congruence. }
    split.
    + intros q Q. rewrite last_snoc in Q. injection Q as <-.
      rewrite nodes_free_ne, nodes_store_ne, nodes_store_eq by congruence.
      rewrite P. reflexivity.
    + intros q Q1 Q2 Q3. rewrite last_snoc in Q3.
      assert (q <> pred) by congruence.
      now rewrite nodes_free_ne, !nodes_store_ne by congruence.
Qed.

(** X9.  The release of the last reference of a child, wherever it stands
    in the list of its parent (which has references of its own), and the
    FORGET of one lookup that asks for it: the node is unlinked and freed,
    its siblings keep their order, the parent gives one reference back,
    and no other node is touched. *)
Theorem node_release_unlinks (fuel : nat) (h : host) (hdr : fuse_in_header)
    (w : state) (dir t : Z) (p nt : node) (s : string) (l1 l2 : list Z) :
  nodes w !! t = Some nt ->
  refcount nt = 1 /\ parent nt = dir ->
  name nt = Some s /\ namelen nt <= strlen s + 1 ->
  nodes w !! dir = Some p ->
  chain w (child p) (l1 ++ t :: l2) = true ->
  absent dir (l1 ++ t :: l2) = true ->
  1 < refcount p < 2 ^ 32 ->
  t <> root w ->
  (length l1 < fuel)%nat ->
  exists w' p',
    node_release (S fuel) t w = Ok w'
    /\ dispatch (S fuel) h hdr t (FUSE_FORGET 1) w = Ok w'
    /\ nodes w' !! t = None
    /\ nodes w' !! dir = Some p'
    /\ p' = set_refcount (refcount p - 1) (set_child (child p') p)
    /\ chain w' (child p') (l1 ++ l2) = true
    /\ (forall q, last l1 = Some q ->
          nodes w' !! q = set_next (next nt) <$> nodes w !! q)
    /\ (forall q, q <> dir -> q <> t -> last l1 <> Some q ->
          nodes w' !! q = nodes w !! q).
Proof.
  intros T Rt Nt E C A Rp D3 F.
  destruct (node_release_any fuel w dir t p nt s l1 l2 T Rt Nt E C A Rp D3 F)
    as (w' & p' & R & Rest).
  exists w', p'. split; [exact R |]. split; [| exact Rest].
  cbn [dispatch]. change (Z.to_nat 1) with 1%nat. cbn [forget_loop].
  rewrite R. reflexivity.
Qed.

(** ** RENAME *)

Lemma replies_store (a : Z) (n : node) (w : state) :
  replies (store a n w) = replies w.
Proof. now destruct w. Qed.

Lemma nodes_set_errno (e : Z) (w : state) : nodes (set_errno e w) = nodes w.
Proof. now destruct w. Qed.

Lemma replies_set_errno (e : Z) (w : state) :
  replies (set_errno e w) = replies w.
Proof. now destruct w. Qed.

Lemma errno_set_errno (e : Z) (w : state) : errno (set_errno e w) = e.
Proof. now destruct w. Qed.

(** X10.  A RENAME that gets past its allocations moves the node in the
    tree whatever the host's [rename] returns: the node leaves the old
    list as [remove_child] leaves it, takes the new name and stands first
    below the new parent, which gains a reference; the reply carries the
    host's status.  No child of the new parent that already has the new
    name is looked for. *)
Theorem rename_moves_node (fuel : nat) (h : host) (hdr : fuse_in_header)
    (dir newdir : Z) (oldname newname : string) (w w0 : state)
    (t : Z) (nt t0 q0 : node) (oldpath newpath : option string) :
  let newparent := lookup_by_inode w newdir in
  lookup_child_by_name fuel w dir oldname = Ok t ->
  t <> NULL /\ nodes w !! t = Some nt ->
  node_get_path w dir (Some oldname) = Ok oldpath ->
  newparent <> NULL /\ newparent <> t ->
  node_get_path w newparent (Some newname) = Ok newpath ->
  remove_child fuel dir (nid nt) w = Ok (t, w0) ->
  nodes w0 !! t = Some t0 /\ nodes w0 !! newparent = Some q0 ->
  h_realloc h = true ->
  exists w',
    handle_rename fuel h hdr dir newdir oldname newname w = Ok w'
    /\ nodes w'
       = <[newparent := set_refcount (u32 (refcount q0 + 1)) (set_child t q0)]>
           (<[t := moved_node t0 newname newparent (child q0)]> (nodes w0))
    /\ replies w'
       = replies w ++
         [{| error := status_reply (h_rename h oldpath newpath);
             unique := hdr_unique hdr; data := None |}].
Proof.
  intros newparent L [Nt T] Po [Nn D] Pn Rm [T0 Q0] Ra.
  assert (Q : replies w0 = replies w).
  { unfold remove_child in Rm. apply bind_ok in Rm as (p & _ & Rm).
    apply remove_child_loop_quiet in Rm. unfold replies. now rewrite Rm. }
  rewrite <- Q. clear Q.
  unfold handle_rename. fold newparent. rewrite L. cbn [bind].
  apply Z.eqb_neq in Nt, Nn. rewrite Nt, Po. cbn [bind].
  rewrite Nn, Pn. run. rewrite Rm. cbn [bind]. rewrite Nt.
  unfold rename_node. run. rewrite Ra. cbn [negb]. run.
  unfold add_node_to_parent. run.
  unfold fuse_status. clear L Po Pn Rm T. subst newparent.
  set (newparent := lookup_by_inode w newdir) in *. clearbody newparent.
  cbn [negb].
  destruct (h_rename h oldpath newpath) as [u | e];
    cbn [sys status_reply status_of];
    (eexists; split; [reflexivity |]);
    match goal with
    | |- context [chan_write ?a ?b ?c] =>
        destruct (chan_write_frame a b c)
          as (-> & _ & _ & _ & _ & _ & ->)
    end;
    rewrite ?errno_set_errno, ?nodes_set_errno, ?replies_set_errno,
      !nodes_store, !replies_store;
    (split; [| reflexivity]);
    unfold moved_node; apply map_eq; intros k;
    (destruct (decide (k = newparent)) as [-> | Kd];
     [| destruct (decide (k = t)) as [-> | Kt]]);
    repeat heap; reflexivity.
Qed.

(** ** The replies of a request *)

Lemma quiet_answers (uniq : Z) (w w' : state) :
  quiet w w' -> answers uniq 0 w w'.
Proof.
  intros Q. exists []. unfold replies. rewrite Q, app_nil_r. auto.
Qed.

Lemma answers_after_quiet (uniq : Z) (k : nat) (w1 w2 w3 : state) :
  quiet w1 w2 -> answers uniq k w2 w3 -> answers uniq k w1 w3.
Proof.
  intros Q (ms & E & L & F). exists ms. unfold replies in *.
  rewrite <- Q. auto.
Qed.

Lemma chan_write_answers (h : host) (m : fuse_out_header) (uniq : Z)
    (w : state) :
  unique m = uniq -> answers uniq 1 w (chan_write h m w).
Proof.
  intros U. exists [m].
  destruct (chan_write_frame h m w) as (_ & _ & _ & _ & _ & _ & E).
  split; [exact E |]. split; [reflexivity |]. now constructor.
Qed.

Lemma answers_trans (uniq : Z) (j k : nat) (w1 w2 w3 : state) :
  answers uniq j w1 w2 -> answers uniq k w2 w3 ->
  answers uniq (j + k) w1 w3.
Proof.
  intros (m1 & E1 & L1 & F1) (m2 & E2 & L2 & F2). exists (m1 ++ m2).
  rewrite E2, E1, app_assoc, length_app. split; [reflexivity |].
  split; [lia |]. now apply Forall_app.
Qed.

Lemma lookup_entry_answers (fuel : nat) (h : host) (dir : Z)
    (nm : string) (uniq : Z) (w w' : state) :
  lookup_entry fuel h dir nm uniq w = Ok w' -> answers uniq 1 w w'.
Proof.
  intros E. unfold lookup_entry in E.
  apply bind_ok in E as ([[np attr] w1] & E1 & E).
  apply node_lookup_quiet in E1.
  destruct (np =? NULL).
  - injection E as <-. apply (answers_after_quiet _ _ _ _ _ E1).
    now apply chan_write_answers.
  - apply bind_ok in E as (w2 & E2 & E). apply bind_ok in E as (n & _ & E).
    injection E as <-. apply upd_quiet in E2.
    apply (answers_after_quiet _ _ _ _ _ (quiet_trans _ _ _ E1 E2)).
    now apply chan_write_answers.
Qed.

Lemma handle_rename_answers (fuel : nat) (h : host) (hdr : fuse_in_header)
    (np : Z) (newdir : Z) (oldname newname : string) (w w' : state) :
  handle_rename fuel h hdr np newdir oldname newname w = Ok w' ->
  answers (hdr_unique hdr) 1 w w'.
Proof.
  intros E. unfold handle_rename in E.
  apply bind_ok in E as (target & _ & E).
  destruct (target =? NULL);
    [injection E as <-; now apply chan_write_answers |].
  apply bind_ok in E as (oldpath & _ & E).
  destruct (lookup_by_inode w newdir =? NULL);
    [injection E as <-; now apply chan_write_answers |].
  apply bind_ok in E as (newpath & _ & E).
  apply bind_ok in E as (t & _ & E).
  apply bind_ok in E as ([removed w1] & E1 & E).
  unfold remove_child in E1. apply bind_ok in E1 as (p & _ & E1).
  apply remove_child_loop_quiet in E1.
  destruct (removed =? NULL).
  { injection E as <-. apply (answers_after_quiet _ _ _ _ _ E1).
    now apply chan_write_answers. }
  apply bind_ok in E as ([renamed w2] & E2 & E).
  apply rename_node_quiet in E2.
  destruct (negb renamed).
  { injection E as <-.
    apply (answers_after_quiet _ _ _ _ _ (quiet_trans _ _ _ E1 E2)).
    now apply chan_write_answers. }
  apply bind_ok in E as (w3 & E3 & E). apply add_node_to_parent_quiet in E3.
  destruct (sys (h_rename h oldpath newpath) w3) as [res w4] eqn:S4.
  apply sys_quiet in S4. injection E as <-.
  apply (answers_after_quiet _ _ _ w4); [| now apply chan_write_answers].
  unfold quiet in *. congruence.
Qed.

Lemma node_release_quiet (fuel : nat) :
  forall (np : Z) (w w' : state),
    node_release fuel np w = Ok w' -> quiet w w'.
Proof.
  induction fuel as [| fuel IHf]; intros np w w1 E1; [discriminate E1 |].
  rewrite node_release_unfold in E1.
  apply bind_ok in E1 as (w2 & E2 & E1).
  apply bind_ok in E1 as (n1 & _ & E1).
  apply dec_refcount_quiet in E2.
  destruct (refcount n1 =? 0); [| injection E1 as <-; exact E2].
  apply bind_ok in E1 as (p1 & _ & E1).
  apply bind_ok in E1 as (w3 & E3 & E1).
  apply bind_ok in E1 as (n2 & _ & E1).
  apply bind_ok in E1 as (w4 & E4 & E1).
  apply bind_ok in E1 as (w5 & E5 & E1).
  apply bind_ok in E1 as (w6 & E6 & E1).
  assert (Q3 : quiet w2 w3).
  { destruct (child p1 =? np).
    - apply bind_ok in E3 as (c & _ & E3). now apply upd_quiet in E3.
    - apply bind_ok in E3 as (node2 & _ & E3).
      apply bind_ok in E3 as (n & _ & E3). now apply upd_quiet in E3. }
  apply IHf in E4. apply upd_quiet in E5, E6.
  unfold destroy in E1. apply bind_ok in E1 as (n3 & _ & E1).
  destruct (negb (namelen n3 =? 0) && _); [discriminate E1 |].
  destruct (np =? root w6); [discriminate E1 |]. injection E1 as <-.
  unfold quiet in *. cbn [wire free_node set_nodes] in *. congruence.
Qed.

Lemma forget_loop_quiet (fuel : nat) (k : nat) :
  forall (np : Z) (w w' : state),
    forget_loop fuel k np w = Ok w' -> quiet w w'.
Proof.
  induction k as [| k IH]; intros np w w' E.
  - injection E as <-. reflexivity.
  - cbn [forget_loop] in E. apply bind_ok in E as (w1 & E1 & E).
    apply IH in E. apply node_release_quiet in E1.
    now apply (quiet_trans _ w1).
Qed.

Lemma dispatch_answers (fuel : nat) (h : host) (hdr : fuse_in_header)
    (np : Z) (req : request) (w w' : state) :
  dispatch fuel h hdr np req w = Ok w' ->
  exists k, reply_count req k /\ answers (hdr_unique hdr) k w w'.
Proof.
  intros E.
  destruct req; cbn [dispatch] in E; cbn [reply_count];
    try (exists 1%nat; split; [reflexivity |]).
  - now apply lookup_entry_answers in E.
  - exists 0%nat. split; [reflexivity |]. apply quiet_answers.
    now apply forget_loop_quiet in E.
  - apply bind_ok in E as ([[r attr] w1] & E1 & E).
    apply node_get_attr_quiet in E1. injection E as <-.
    apply (answers_after_quiet _ _ _ _ _ E1). now apply chan_write_answers.
  - unfold handle_setattr in E. apply bind_ok in E as (path & _ & E).
    destruct (if Z.land valid FATTR_SIZE =? 0 then (Some tt, w)
              else sys (h_truncate h path size) w) as [res w1] eqn:S1.
    assert (Q1 : quiet w w1).
    { destruct (Z.land valid FATTR_SIZE =? 0);
        [injection S1 as _ <-; reflexivity | now apply sys_quiet in S1]. }
    apply bind_ok in E as ([[r attr] w2] & E2 & E).
    apply node_get_attr_quiet in E2.
    destruct res; injection E as <-;
      apply (answers_after_quiet _ _ _ _ _ (quiet_trans _ _ _ Q1 E2));
      now apply chan_write_answers.
  - apply bind_ok in E as (path & _ & E).
    destruct (sys (h_mknod h path (force_mode mode o0664) rdev) w)
      as [[u |] w1] eqn:S1; apply sys_quiet in S1.
    + apply lookup_entry_answers in E.
      now apply (answers_after_quiet _ _ _ w1).
    + injection E as <-. apply (answers_after_quiet _ _ _ _ _ S1).
      now apply chan_write_answers.
  - apply bind_ok in E as (path & _ & E).
    destruct (sys (h_mkdir h path (force_mode mode o0775)) w)
      as [[u |] w1] eqn:S1; apply sys_quiet in S1.
    + apply lookup_entry_answers in E.
      now apply (answers_after_quiet _ _ _ w1).
    + injection E as <-. apply (answers_after_quiet _ _ _ _ _ S1).
      now apply chan_write_answers.
  - apply bind_ok in E as (path & _ & E).
    destruct (sys (h_unlink h path) w) as [res w1] eqn:S1.
    apply sys_quiet in S1. injection E as <-.
    apply (answers_after_quiet _ _ _ _ _ S1). now apply chan_write_answers.
  - apply bind_ok in E as (path & _ & E).
    destruct (sys (h_rmdir h path) w) as [res w1] eqn:S1.
    apply sys_quiet in S1. injection E as <-.
    apply (answers_after_quiet _ _ _ _ _ S1). now apply chan_write_answers.
  - now apply handle_rename_answers in E.
  - unfold handle_open in E.
    destruct (h_malloc h =? NULL).
    { injection E as <-.
      apply (answers_after_quiet _ _ _ (set_errno ENOMEM w)); [reflexivity |].
      now apply chan_write_answers. }
    apply bind_ok in E as (path & _ & E).
    destruct (sys (h_open h path flags) w) as [[f |] w1] eqn:S1;
      apply sys_quiet in S1; injection E as <-.
    + apply (answers_after_quiet _ _ _
               (set_handles (<[h_malloc h:=f]> (handles w1)) w1));
        [exact S1 |].
      now apply chan_write_answers.
    + apply (answers_after_quiet _ _ _ _ _ S1).
      now apply chan_write_answers.
  - unfold handle_read in E.
    destruct (size >? 128 * 1024);
      [injection E as <-; now apply chan_write_answers |].
    destruct (handles w !! id_to_ptr fh) as [f |]; [| discriminate E].
    destruct (sys (h_pread h f size offset) w) as [[bs |] w1] eqn:S1;
      apply sys_quiet in S1; injection E as <-;
      apply (answers_after_quiet _ _ _ _ _ S1);
      now apply chan_write_answers.
  - unfold handle_write in E.
    destruct (handles w !! id_to_ptr fh) as [f |]; [| discriminate E].
    destruct (sys (h_pwrite h f bytes size offset) w) as [[res |] w1] eqn:S1;
      apply sys_quiet in S1; injection E as <-.
    + exists 2%nat. split; [now right |].
      apply (answers_after_quiet _ _ _ _ _ S1).
      apply (answers_trans _ 1 1 _ (fuse_reply h (hdr_unique hdr)
                                      (write_out (u32 res)) w1));
        now apply chan_write_answers.
    + exists 1%nat. split; [now left |].
      apply (answers_after_quiet _ _ _ _ _ S1).
      now apply chan_write_answers.
  - unfold handle_statfs in E. apply bind_ok in E as (r & _ & E).
    destruct (sys (h_statfs h (name r)) w) as [[st |] w1] eqn:S1;
      apply sys_quiet in S1; injection E as <-;
      apply (answers_after_quiet _ _ _ _ _ S1);
      now apply chan_write_answers.
  - destruct (handles w !! id_to_ptr fh); [| discriminate E].
    injection E as <-.
    apply (answers_after_quiet _ _ _
             (set_handles (delete (id_to_ptr fh) (handles w)) w));
      [reflexivity |].
    now apply chan_write_answers.
  - injection E as <-. now apply chan_write_answers.
  - unfold handle_opendir in E.
    destruct (h_malloc h =? NULL).
    { injection E as <-.
      apply (answers_after_quiet _ _ _ (set_errno ENOMEM w)); [reflexivity |].
      now apply chan_write_answers. }
    apply bind_ok in E as (path & _ & E).
    destruct (sys (h_opendir h path) w) as [[d |] w1] eqn:S1;
      apply sys_quiet in S1; injection E as <-.
    + apply (answers_after_quiet _ _ _
               (set_dirhandles (<[h_malloc h:=d]> (dirhandles w1)) w1));
        [exact S1 |].
      now apply chan_write_answers.
    + apply (answers_after_quiet _ _ _ _ _ S1).
      now apply chan_write_answers.
  - unfold handle_readdir in E.
    destruct (dirhandles w !! id_to_ptr fh) as [d |]; [| discriminate E].
    destruct (h_readdir h d); injection E as <-;
      now apply chan_write_answers.
  - destruct (dirhandles w !! id_to_ptr fh); [| discriminate E].
    injection E as <-.
    apply (answers_after_quiet _ _ _
             (set_dirhandles (delete (id_to_ptr fh) (dirhandles w)) w));
      [reflexivity |].
    now apply chan_write_answers.
  - injection E as <-. now apply chan_write_answers.
  - injection E as <-. now apply chan_write_answers.
Qed.

(** ** Requests *)

Lemma lookup_by_inode_live (w : state) (id : Z) :
  root w <> NULL -> id <> 0 -> lookup_by_inode w id <> NULL.
Proof.
  intros R N. unfold lookup_by_inode, id_to_ptr.
  destruct (id =? FUSE_ROOT_ID); assumption.
Qed.

(** X11.  Every message the daemon writes while it handles a request
    carries the [unique] of that request; a framed request gets one
    message, but a FORGET none and a WRITE one or two; a request that is
    not framed gets none. *)
Theorem request_replies (fuel : nat) (h : host) (hdr : fuse_in_header)
    (req : request) (len : Z) (w w' : state) :
  root w <> NULL ->
  handle_fuse_request fuel h hdr req len w = Ok w' ->
  exists ms,
    replies w' = replies w ++ ms
    /\ Forall (fun m => unique m = hdr_unique hdr) ms
    /\ (if framed hdr len then reply_count req (length ms) else ms = []).
Proof.
  intros R E. unfold handle_fuse_request in E. unfold framed.
  destruct ((len <? sizeof_fuse_in_header) || negb (hdr_len hdr =? len)).
  - injection E as <-. exists []. now rewrite app_nil_r.
  - cbn [negb].
    destruct (Z.eqb_spec (hdr_nodeid hdr) 0) as [Z | NZ]; cbn [negb andb] in E.
    + apply dispatch_answers in E as (k & K & ms & E & L & F).
      exists ms. rewrite L. auto.
    + pose proof (lookup_by_inode_live w _ R NZ) as N.
      apply Z.eqb_neq in N. rewrite N in E.
      apply dispatch_answers in E as (k & K & ms & E & L & F).
      exists ms. rewrite L. auto.
Qed.

(** X12.  A SETATTR whose [valid] has not [FATTR_SIZE] is a GETATTR: the
    same calls, the same reply, the same state. *)
Theorem setattr_without_size (fuel : nat) (h : host) (hdr : fuse_in_header)
    (np : Z) (valid size : Z) (w : state) :
  Z.land valid FATTR_SIZE = 0 ->
  dispatch fuel h hdr np (FUSE_SETATTR valid size) w
  = dispatch fuel h hdr np FUSE_GETATTR w.
Proof.
  intros V. cbn [dispatch]. unfold handle_setattr, node_get_attr.
  rewrite V. change (0 =? 0) with true. cbv iota.
  destruct (node_get_path w np None) as [path | |]; reflexivity.
Qed.

(** X13.  GETATTR does not look at what [node_get_attr] returns: when
    [lstat] fails the reply is a success with the attributes all zero;
    so is the reply of a SETATTR that truncated, or had nothing to
    truncate. *)
Theorem getattr_hides_lstat_failure (fuel : nat) (h : host)
    (hdr : fuse_in_header) (np : Z) (valid size : Z) (w : state)
    (path : option string) (e : Z) :
  node_get_path w np None = Ok path ->
  h_lstat h path = SysErr e ->
  let reply := {| error := 0; unique := hdr_unique hdr;
                  data := Some (attr_out 10 zero_attr) |} in
  (exists w1,
      dispatch fuel h hdr np FUSE_GETATTR w = Ok w1
      /\ replies w1 = replies w ++ [reply])
  /\ ((Z.land valid FATTR_SIZE = 0
       \/ exists u, h_truncate h path size = SysOk u) ->
      exists w1,
        dispatch fuel h hdr np (FUSE_SETATTR valid size) w = Ok w1
        /\ replies w1 = replies w ++ [reply]).
Proof.
  intros P L reply.
  assert (G : exists w1,
             dispatch fuel h hdr np FUSE_GETATTR w = Ok w1
             /\ replies w1 = replies w ++ [reply]).
  { cbn [dispatch]. unfold node_get_attr. rewrite P. cbn [bind].
    rewrite L. cbn [sys bind]. eexists. split; [reflexivity |].
    unfold fuse_reply.
    match goal with
    | |- context [chan_write ?a ?b ?c] =>
        destruct (chan_write_frame a b c) as (_ & _ & _ & _ & _ & _ & ->)
    end.
    now rewrite replies_set_errno. }
  split; [exact G |]. intros [V | [u T]].
  - cbn [dispatch]. unfold handle_setattr, node_get_attr.
    rewrite P. cbn [bind]. rewrite V. change (0 =? 0) with true. cbv iota.
    rewrite P. cbn [bind]. rewrite L. cbn [sys bind].
    eexists. split; [reflexivity |]. unfold fuse_reply.
    match goal with
    | |- context [chan_write ?a ?b ?c] =>
        destruct (chan_write_frame a b c) as (_ & _ & _ & _ & _ & _ & ->)
    end.
    now rewrite replies_set_errno.
  - cbn [dispatch]. unfold handle_setattr, node_get_attr.
    rewrite P. cbn [bind]. rewrite T.
    destruct (Z.land valid FATTR_SIZE =? 0); cbn [sys]; rewrite P;
      cbn [bind]; rewrite L; cbn [sys bind];
      (eexists; split; [reflexivity |]); unfold fuse_reply;
      match goal with
      | |- context [chan_write ?a ?b ?c] =>
          destruct (chan_write_frame a b c) as (_ & _ & _ & _ & _ & _ & ->)
      end;
      now rewrite replies_set_errno.
Qed.

Ltac written :=
  unfold fuse_reply, fuse_status, oops;
  repeat match goal with
    | |- context [replies (chan_write ?a ?b ?c)] =>
        let E := fresh in
        destruct (chan_write_frame a b c) as (_ & _ & _ & _ & _ & _ & E);
        rewrite E; clear E
    | |- context [nodes (chan_write ?a ?b ?c)] =>
        let E := fresh in
        destruct (chan_write_frame a b c) as (E & _); rewrite E; clear E
    | |- context [handles (chan_write ?a ?b ?c)] =>
        let E := fresh in
        destruct (chan_write_frame a b c) as (_ & _ & _ & _ & _ & E & _);
        rewrite E; clear E
    end.

(** X14.  When [truncate] fails, SETATTR replies the [errno] it finds after
    the [lstat] that follows: that of [truncate] if [lstat] succeeds,
    that of [lstat] if it fails too. *)
Theorem setattr_reports_last_errno (fuel : nat) (h : host)
    (hdr : fuse_in_header) (np : Z) (valid size : Z) (w : state)
    (path : option string) (e : Z) (n : node) :
  Z.land valid FATTR_SIZE <> 0 ->
  node_get_path w np None = Ok path ->
  nodes w !! np = Some n ->
  h_truncate h path size = SysErr e ->
  exists w1,
    dispatch fuel h hdr np (FUSE_SETATTR valid size) w = Ok w1
    /\ replies w1
       = replies w ++
         [{| error := match h_lstat h path with
                      | SysOk _ => - e
                      | SysErr e' => - e'
                      end;
             unique := hdr_unique hdr; data := None |}].
Proof.
  intros V P L T. cbn [dispatch]. unfold handle_setattr, node_get_attr.
  rewrite P. cbn [bind]. apply Z.eqb_neq in V. rewrite V, T. cbn [sys].
  assert (P' : node_get_path (set_errno e w) np None = Ok path).
  { apply (node_get_path_same w); [| exact P]. split; [now destruct w |].
    intros q nq Q. exists nq. now rewrite nodes_set_errno. }
  rewrite P'. cbn [bind].
  destruct (h_lstat h path) as [st | e']; cbn [sys bind].
  - unfold load. rewrite nodes_set_errno, L. cbn [bind].
    eexists. split; [reflexivity |]. written.
    now rewrite errno_set_errno, replies_set_errno.
  - eexists. split; [reflexivity |]. written.
    now rewrite errno_set_errno, !replies_set_errno.
Qed.

Lemma land_high_mask (m1 m2 : Z) :
  Z.shiftr m1 9 = Z.shiftr m2 9 ->
  Z.land m1 (u32 (Z.lnot o0777)) = Z.land m2 (u32 (Z.lnot o0777)).
Proof.
  intros E. change (u32 (Z.lnot o0777)) with (Z.shiftl 8388607 9).
  apply Z.bits_inj'. intros k K. rewrite !Z.land_spec.
  destruct (Z.ltb_spec k 9) as [Lo | Hi].
  - rewrite Z.shiftl_spec_low by lia. now rewrite !andb_false_r.
  - f_equal. replace k with (k - 9 + 9) by lia.
    rewrite <- !Z.shiftr_spec by lia. now rewrite E.
Qed.

Lemma u32_range (x : Z) : 0 <= u32 x < 2 ^ 32.
Proof. unfold u32. apply Z.mod_pos_bound. lia. Qed.

(** X15.  MKNOD and MKDIR do not let the nine permission bits of the
    requested mode through: two modes that agree above them are the same
    request, and [mknod], resp. [mkdir], of the host is called at the one
    mode that has the requested bits above them and 0664, resp. 0775, in
    them; what it answers there decides the request. *)
Theorem create_ignores_permission_bits (fuel : nat) (h : host)
    (hdr : fuse_in_header) (np : Z) (m1 m2 rdev : Z) (nm : string)
    (w : state) :
  Z.shiftr (u32 m1) 9 = Z.shiftr (u32 m2) 9 ->
  dispatch fuel h hdr np (FUSE_MKNOD m1 rdev nm) w
  = dispatch fuel h hdr np (FUSE_MKNOD m2 rdev nm) w
  /\ dispatch fuel h hdr np (FUSE_MKDIR m1 nm) w
     = dispatch fuel h hdr np (FUSE_MKDIR m2 nm) w
  /\ (forall path,
        node_get_path w np (Some nm) = Ok path ->
        exists mode,
          Z.land mode o0777 = o0664
          /\ Z.shiftr mode 9 = Z.shiftr (u32 m1) 9
          /\ dispatch fuel h hdr np (FUSE_MKNOD m1 rdev nm) w
             = match h_mknod h path mode rdev with
               | SysErr e =>
                   Ok (fuse_status h (hdr_unique hdr) (- e) (set_errno e w))
               | SysOk _ => lookup_entry fuel h np nm (hdr_unique hdr) w
               end)
  /\ (forall path,
        node_get_path w np (Some nm) = Ok path ->
        exists mode,
          Z.land mode o0777 = o0775
          /\ Z.shiftr mode 9 = Z.shiftr (u32 m1) 9
          /\ dispatch fuel h hdr np (FUSE_MKDIR m1 nm) w
             = match h_mkdir h path mode with
               | SysErr e =>
                   Ok (fuse_status h (hdr_unique hdr) (- e) (set_errno e w))
               | SysOk _ => lookup_entry fuel h np nm (hdr_unique hdr) w
               end).
Proof.
  intros E. pose proof (u32_range m1) as R. split; [| split; [| split]].
  - cbn [dispatch]. unfold force_mode. now rewrite (land_high_mask _ _ E).
  - cbn [dispatch]. unfold force_mode. now rewrite (land_high_mask _ _ E).
  - intros path P. exists (force_mode m1 o0664). unfold force_mode.
    split; [apply force_low_bits; unfold o0664; lia |].
    split; [apply force_high_bits; [exact R | unfold o0664; lia] |].
    cbn [dispatch]. rewrite P. cbn [bind]. unfold force_mode.
    destruct (h_mknod h path _ rdev) as [u | e]; reflexivity.
  - intros path P. exists (force_mode m1 o0775). unfold force_mode.
    split; [apply force_low_bits; unfold o0775; lia |].
    split; [apply force_high_bits; [exact R | unfold o0775; lia] |].
    cbn [dispatch]. rewrite P. cbn [bind]. unfold force_mode.
    destruct (h_mkdir h path _) as [u | e]; reflexivity.
Qed.

Lemma handles_set_handles (m : gmap Z Z) (w : state) :
  handles (set_handles m w) = m.
Proof. now destruct w. Qed.

Lemma nodes_set_handles (m : gmap Z Z) (w : state) :
  nodes (set_handles m w) = nodes w.
Proof. now destruct w. Qed.

Lemma replies_set_handles (m : gmap Z Z) (w : state) :
  replies (set_handles m w) = replies w.
Proof. now destruct w. Qed.

(** X16.  An OPEN that succeeds replies the address of its handle as [fh]
    and keeps the descriptor under it; a RELEASE of that [fh], sent to
    whatever node, replies 0 and leaves the handles and the nodes as
    they were before the OPEN. *)
Theorem open_release_round_trip (fuel : nat) (h h' : host)
    (hdr hdr' : fuse_in_header) (np np' : Z) (flags f : Z) (w : state)
    (path : option string) :
  h_malloc h <> NULL ->
  handles w !! h_malloc h = None ->
  node_get_path w np None = Ok path ->
  h_open h path flags = SysOk f ->
  exists w1 w2,
    dispatch fuel h hdr np (FUSE_OPEN flags) w = Ok w1
    /\ replies w1
       = replies w ++
         [{| error := 0; unique := hdr_unique hdr;
             data := Some (open_out (ptr_to_id (h_malloc h)) (Some 0)) |}]
    /\ handles w1 !! h_malloc h = Some f
    /\ dispatch fuel h' hdr' np' (FUSE_RELEASE (ptr_to_id (h_malloc h))) w1
       = Ok w2
    /\ handles w2 = handles w
    /\ nodes w2 = nodes w
    /\ replies w2
       = replies w1 ++
         [{| error := 0; unique := hdr_unique hdr'; data := None |}].
Proof.
  intros N F P O. cbn [dispatch]. unfold handle_open.
  apply Z.eqb_neq in N. rewrite N, P. cbn [bind]. rewrite O. cbn [sys].
  eexists. eexists. split; [reflexivity |].
  split; [written; now rewrite replies_set_handles |].
  split; [written; rewrite handles_set_handles; apply lookup_insert_eq |].
  unfold id_to_ptr, ptr_to_id.
  assert (E : handles
                (fuse_reply h (hdr_unique hdr) (open_out (h_malloc h) (Some 0))
                   (set_handles (<[h_malloc h:=f]> (handles w)) w))
              !! h_malloc h = Some f)
    by (written; rewrite handles_set_handles; apply lookup_insert_eq).
  rewrite E. split; [reflexivity |].
  split; [| split].
  - written. rewrite !handles_set_handles. now apply delete_insert_id.
  - written. rewrite nodes_set_handles. written.
    now rewrite nodes_set_handles.
  - written. rewrite replies_set_handles. written. reflexivity.
Qed.

Lemma handle_fuse_request_node (fuel : nat) (h : host)
    (hdr : fuse_in_header) (req : request) (len : Z) (w : state) :
  framed hdr len = true ->
  hdr_nodeid hdr <> 0 -> hdr_nodeid hdr <> FUSE_ROOT_ID ->
  handle_fuse_request fuel h hdr req len w
  = dispatch fuel h hdr (id_to_ptr (hdr_nodeid hdr)) req w.
Proof.
  intros F N R. unfold handle_fuse_request, framed in *.
  apply negb_true_iff in F. rewrite F. unfold lookup_by_inode.
  apply Z.eqb_neq in N, R. rewrite N, R. unfold id_to_ptr.
  change NULL with 0. rewrite N. reflexivity.
Qed.

Lemma path_loop_dangling (w : state) (np : Z) (room : Z) (out : string) :
  np <> NULL -> nodes w !! np = None ->
  path_loop (Z.to_nat PATH_BUFFER_SIZE) w np room out = Fault.
Proof.
  intros N D. change (Z.to_nat PATH_BUFFER_SIZE) with (S (Z.to_nat 1023)).
  cbn [path_loop]. apply Z.eqb_neq in N. rewrite N.
  unfold load. now rewrite D.
Qed.

(** X17.  A node id other than 0 and 1 is used as a pointer without a
    check: on an id that names no live node GETATTR, SETATTR, LOOKUP and
    FORGET are undefined behaviour, not an ENOENT. *)
Theorem stale_node_id_is_dereferenced (fuel : nat) (h : host)
    (hdr : fuse_in_header) (len : Z) (w : state) (valid size : Z)
    (nm : string) (k : Z) :
  framed hdr len = true ->
  hdr_nodeid hdr <> 0 /\ hdr_nodeid hdr <> FUSE_ROOT_ID ->
  nodes w !! id_to_ptr (hdr_nodeid hdr) = None ->
  strlen nm < PATH_BUFFER_SIZE - 1 ->
  0 < k ->
  handle_fuse_request (S fuel) h hdr FUSE_GETATTR len w = Fault
  /\ handle_fuse_request (S fuel) h hdr (FUSE_SETATTR valid size) len w
     = Fault
  /\ handle_fuse_request (S fuel) h hdr (FUSE_LOOKUP nm) len w = Fault
  /\ handle_fuse_request (S fuel) h hdr (FUSE_FORGET k) len w = Fault.
Proof.
  intros F [N R] D Ln K.
  rewrite !handle_fuse_request_node by assumption.
  set (np := id_to_ptr (hdr_nodeid hdr)) in *.
  assert (Nn : np <> NULL) by exact N.
  assert (P : node_get_path w np None = Fault).
  { unfold node_get_path. cbv zeta. cbn [bind].
    now rewrite path_loop_dangling. }
  cbn [dispatch]. repeat split.
  - unfold node_get_attr. now rewrite P.
  - unfold handle_setattr. now rewrite P.
  - unfold lookup_entry, node_lookup, node_get_path. cbv zeta.
    pose proof (strlen_nonneg nm).
    rewrite s32_small by (unfold PATH_BUFFER_SIZE in Ln; lia).
    rewrite (path_start_ok _ _ _ _ nm) by (apply memcpy_src_whole || lia).
    cbn [bind]. now rewrite path_loop_dangling.
  - destruct (Z.to_nat k) as [| j] eqn:E; [lia |].
    cbn [forget_loop node_release]. unfold dec_refcount, load.
    now rewrite D.
Qed.

(** X18.  A FORGET for more lookups than the node has references releases
    the node after it was freed: undefined behaviour. *)
Theorem forget_beyond_refcount (fuel : nat) (h : host)
    (hdr : fuse_in_header) (w : state) (dir t : Z) (p nt : node)
    (s : string) (l1 l2 : list Z) (k : Z) :
  nodes w !! t = Some nt ->
  1 <= refcount nt < 2 ^ 32 /\ parent nt = dir ->
  name nt = Some s /\ namelen nt <= strlen s + 1 ->
  nodes w !! dir = Some p ->
  chain w (child p) (l1 ++ t :: l2) = true ->
  absent dir (l1 ++ t :: l2) = true ->
  1 < refcount p < 2 ^ 32 ->
  t <> root w ->
  (length l1 < fuel)%nat ->
  refcount nt < k ->
  dispatch (S fuel) h hdr t (FUSE_FORGET k) w = Fault.
Proof.
  intros T [Rt Pt] Nm E C A Rp D3 F K. cbn [dispatch].
  assert (Dt : t <> dir).
  { apply absent_app in A as (_ & A).
    apply not_elem_of_cons in A as (A & _). congruence. }
  set (r := Z.to_nat (refcount nt - 1)).
  replace (Z.to_nat k) with (r + S (S (Z.to_nat (k - refcount nt - 1))))%nat
    by (unfold r; lia).
  rewrite forget_loop_app.
  rewrite (forget_loop_live fuel r t w nt T) by (unfold r; lia).
  cbn [bind forget_loop].
  set (nt1 := set_refcount (refcount nt - Z.of_nat r) nt).
  destruct (node_release_any fuel (store t nt1 w) dir t p nt1 s l1 l2)
    as (w' & p' & R & Gone & _); try assumption.
  - apply nodes_store_eq.
  - split; [cbn; unfold r; lia | exact Pt].
  - now rewrite nodes_store_ne by congruence.
  - apply (segment_ext w); [| exact C]. intros a _.
    destruct (decide (a = t)) as [-> | Na].
    + now rewrite nodes_store_eq, T.
    + now rewrite nodes_store_ne by congruence.
  - rewrite R. cbn [bind node_release]. unfold dec_refcount, load.
    now rewrite Gone.
Qed.

(** X19.  A LOOKUP of what [lstat] does not find replies [-ENOENT]
    whatever the [errno], and changes neither the nodes nor the
    counters. *)
Theorem lookup_failure_is_enoent (fuel : nat) (h : host) (dir : Z)
    (nm : string) (uniq : Z) (w : state) (path : option string) (e : Z) :
  node_get_path w dir (Some nm) = Ok path ->
  h_lstat h path = SysErr e ->
  exists w1,
    lookup_entry fuel h dir nm uniq w = Ok w1
    /\ replies w1
       = replies w ++ [{| error := - ENOENT; unique := uniq; data := None |}]
    /\ nodes w1 = nodes w
    /\ next_node_id w1 = next_node_id w.
Proof.
  intros P L. unfold lookup_entry, node_lookup. rewrite P. cbn [bind].
  rewrite L. cbn [sys bind]. change (NULL =? NULL) with true. cbv iota.
  eexists. split; [reflexivity |]. unfold fuse_status.
  destruct (chan_write_frame h
              {| error := - ENOENT; unique := uniq; data := None |}
              (set_errno e w)) as (-> & _ & _ & -> & _ & _ & ->).
  rewrite replies_set_errno, nodes_set_errno. now destruct w.
Qed.

(** X20.  A LOOKUP that finds the file but no memory for a node replies
    [-ENOENT], leaves the nodes as they were and has used up a node id
    and a generation. *)
Theorem lookup_out_of_memory (fuel : nat) (h : host) (dir : Z)
    (nm : string) (uniq : Z) (w : state) (path : option string)
    (st : stat) :
  node_get_path w dir (Some nm) = Ok path ->
  h_lstat h path = SysOk st ->
  lookup_child_by_name fuel w dir nm = Ok NULL ->
  h_calloc h = NULL
  \/ (h_malloc_name h = false /\ nodes w !! h_calloc h = None) ->
  exists w1,
    lookup_entry fuel h dir nm uniq w = Ok w1
    /\ replies w1
       = replies w ++ [{| error := - ENOENT; unique := uniq; data := None |}]
    /\ nodes w1 = nodes w
    /\ next_node_id w1 = u64 (next_node_id w + 1)
    /\ next_generation w1 = u64 (next_generation w + 1).
Proof.
  intros P L C M. unfold lookup_entry, node_lookup. rewrite P. cbn [bind].
  rewrite L. cbn [sys bind]. rewrite C. cbn [bind].
  change (NULL =? NULL) with true. cbv iota. unfold node_create.
  destruct (Z.eqb_spec (h_calloc h) NULL) as [Z | NZ].
  - cbn [bind]. change (NULL =? NULL) with true. cbv iota. cbn [bind].
    change (NULL =? NULL) with true. cbv iota.
    eexists. split; [reflexivity |]. unfold fuse_status.
    match goal with
    | |- context [chan_write ?a ?b ?c] =>
        destruct (chan_write_frame a b c) as (-> & _ & _ & -> & -> & _ & ->)
    end.
    now destruct w.
  - destruct M as [M | [M F]]; [contradiction |]. rewrite M.
    cbn [negb bind]. change (NULL =? NULL) with true. cbv iota. cbn [bind].
    change (NULL =? NULL) with true. cbv iota.
    eexists. split; [reflexivity |]. unfold fuse_status.
    match goal with
    | |- context [chan_write ?a ?b ?c] =>
        destruct (chan_write_frame a b c) as (-> & _ & _ & -> & -> & _ & ->)
    end.
    destruct w as [g i fd0 al r ns hs ds e lc tr]. cbn in *.
    repeat split. rewrite delete_insert_eq. now apply delete_id.
Qed.

Lemma node_lookup_found (fuel : nat) (h : host) (dir : Z) (nm : string)
    (w w' : state) (np : Z) (attr : fuse_attr) :
  node_lookup fuel h dir nm zero_attr w = Ok (np, attr, w') ->
  np <> NULL ->
  exists st n, nodes w' !! np = Some n
               /\ attr = set_attr_ino (nid n) (attr_from_stat zero_attr st).
Proof.
  intros E N. unfold node_lookup in E. apply bind_ok in E as (path & _ & E).
  destruct (sys (h_lstat h path) w) as [[st |] w1];
    [| injection E as <- _ _; contradiction].
  apply bind_ok in E as (c & _ & E).
  apply bind_ok in E as ([np2 w2] & _ & E).
  destruct (np2 =? NULL); [injection E as <- _ _; contradiction |].
  apply bind_ok in E as (n & L & E). injection E as <- <- <-.
  exists st, n. split; [| reflexivity]. unfold load in L.
  destruct (nodes w2 !! np2); [now injection L as -> | discriminate L].
Qed.

(** X21.  What [lookup_entry] (LOOKUP, MKNOD, MKDIR) replies: one message
    with the [unique] given, either [-ENOENT] or an entry for a live
    node, with the node's id and generation, [ino] equal to the node id,
    owner 0, group [AID_SDCARD_RW] and both validities 10. *)
Theorem lookup_reply_shape (fuel : nat) (h : host) (dir : Z) (nm : string)
    (uniq : Z) (w w1 : state) :
  lookup_entry fuel h dir nm uniq w = Ok w1 ->
  exists m,
    replies w1 = replies w ++ [m]
    /\ unique m = uniq
    /\ ((error m = - ENOENT /\ data m = None)
        \/ (error m = 0
            /\ exists e np n,
                 data m = Some (entry_out e)
                 /\ np <> NULL /\ nodes w1 !! np = Some n
                 /\ e_nodeid e = nid n /\ e_generation e = gen n
                 /\ attr_ino (e_attr e) = e_nodeid e
                 /\ attr_uid (e_attr e) = 0
                 /\ attr_gid (e_attr e) = AID_SDCARD_RW
                 /\ e_entry_valid e = 10 /\ e_attr_valid e = 10)).
Proof.
  intros E. unfold lookup_entry in E.
  apply bind_ok in E as ([[np attr] w2] & E2 & E).
  pose proof (node_lookup_quiet _ _ _ _ _ _ _ _ _ E2) as Q.
  destruct (Z.eqb_spec np NULL) as [Z | NZ].
  - injection E as <-. eexists. unfold fuse_status.
    destruct (chan_write_frame h
                {| error := - ENOENT; unique := uniq; data := None |} w2)
      as (_ & _ & _ & _ & _ & _ & ->).
    unfold replies. rewrite Q. split; [reflexivity |].
    split; [reflexivity |]. left. split; reflexivity.
  - destruct (node_lookup_found _ _ _ _ _ _ _ _ E2 NZ) as (st & n & L & ->).
    rewrite (upd_lookup _ _ _ _ L) in E. cbn [bind] in E.
    rewrite load_store_eq in E. cbn [bind] in E. injection E as <-.
    eexists. unfold fuse_reply.
    match goal with
    | |- context [chan_write ?a ?b ?c] =>
        destruct (chan_write_frame a b c) as (Hn & _ & _ & _ & _ & _ & ->)
    end.
    rewrite replies_store. unfold replies at 2. rewrite <- Q.
    split; [reflexivity |]. split; [reflexivity |]. right.
    split; [reflexivity |].
    eexists. exists np. eexists. split; [reflexivity |].
    split; [exact NZ |]. split; [rewrite Hn; apply nodes_store_eq |].
    repeat split.
Qed.

(** A child list is searched through [name] and [next] only. *)
Lemma find_child_by_name_same (w w' : state) (nm : string) :
  (forall q n, nodes w !! q = Some n ->
     exists n', nodes w' !! q = Some n'
                /\ name n' = name n /\ next n' = next n) ->
  forall fuel c r,
    find_child_by_name fuel w c nm = Ok r ->
    find_child_by_name fuel w' c nm = Ok r.
Proof.
  intros HS. induction fuel as [| fuel IH]; intros c r E.
  - cbn [find_child_by_name] in *.
    destruct (c =? NULL); [exact E | discriminate E].
  - cbn [find_child_by_name] in *. destruct (c =? NULL); [exact E |].
    unfold load in *. destruct (nodes w !! c) as [n |] eqn:L;
      [| discriminate E].
    destruct (HS _ _ L) as (n' & -> & En & Ex). cbn [bind] in *.
    rewrite En, Ex. destruct (name n) as [s |]; [| exact E].
    destruct (String.eqb nm s); [exact E | now apply IH].
Qed.

(** X22.  After a LOOKUP created a node, a look-up of the name in the
    parent finds that node, and a look-up of any other name finds what
    it found before. *)
Theorem created_child_found (fuel : nat) (h : host) (dir : Z) (nm : string)
    (uniq : Z) (w : state) (path : option string) (st : stat) (p : node)
    (a : Z) :
  nodes w !! dir = Some p ->
  node_get_path w dir (Some nm) = Ok path ->
  h_lstat h path = SysOk st ->
  lookup_child_by_name fuel w dir nm = Ok NULL ->
  h_calloc h = a /\ h_malloc_name h = true ->
  nodes w !! a = None /\ a <> NULL ->
  exists w1,
    lookup_entry fuel h dir nm uniq w = Ok w1
    /\ lookup_child_by_name (S fuel) w1 dir nm = Ok a
    /\ (forall nm' r,
          nm' <> nm ->
          lookup_child_by_name fuel w dir nm' = Ok r ->
          lookup_child_by_name (S fuel) w1 dir nm' = Ok r)
    /\ (forall l,
          chain w (child p) l = true ->
          exists p1,
            nodes w1 !! dir = Some p1
            /\ chain w1 (child p1) (a :: l) = true
            /\ refcount p1 = u32 (refcount p + 1)).
Proof.
  intros E P L C [A M] [F N].
  assert (D : a <> dir) by (intros ->; rewrite E in F; discriminate F).
  rewrite (lookup_entry_creates fuel h dir nm uniq w path st p a)
    by assumption.
  eexists. split; [reflexivity |]. unfold fuse_reply.
  match goal with
  | |- context [chan_write ?h0 ?m ?s] =>
      pose proof (created_state_after w dir p a nm h0 m D) as AL;
      set (w1 := chan_write h0 m s) in *
  end.
  destruct AL as (_ & _ & Hn).
  assert (Ld : nodes w1 !! dir = Some (adopt a p))
    by (rewrite Hn, lookup_insert_ne, lookup_insert_eq by congruence;
        reflexivity).
  assert (La : nodes w1 !! a
               = Some (set_refcount 1 (created_node w dir p a nm)))
    by (rewrite Hn, lookup_insert_eq; reflexivity).
  assert (Z : (a =? NULL) = false) by now apply Z.eqb_neq.
  assert (Step : forall x,
             lookup_child_by_name (S fuel) w1 dir x
             = if String.eqb x nm then Ok a
               else find_child_by_name fuel w1 (child p) x).
  { intros x. unfold lookup_child_by_name.
    rewrite (load_lookup _ _ _ Ld). cbn [bind child adopt set_refcount
                                          set_child find_child_by_name].
    rewrite Z, (load_lookup _ _ _ La). reflexivity. }
  split; [| split].
  - now rewrite Step, String.eqb_refl.
  - intros nm' r Ne Q. rewrite Step.
    apply String.eqb_neq in Ne. rewrite Ne.
    unfold lookup_child_by_name in Q. rewrite (load_lookup _ _ _ E) in Q.
    cbn [bind] in Q. apply (find_child_by_name_same w); [| exact Q].
    intros q n Lq. rewrite Hn.
    assert (q <> a) by (intros ->; rewrite F in Lq; discriminate Lq).
    rewrite lookup_insert_ne by congruence.
    destruct (decide (q = dir)) as [-> | Qd].
    + rewrite lookup_insert_eq. rewrite E in Lq. injection Lq as <-.
      eexists. split; [reflexivity |]. split; reflexivity.
    + rewrite lookup_insert_ne by congruence. eauto.
  - intros l Cl. exists (adopt a p). split; [exact Ld |].
    split; [| reflexivity]. apply segment_cons. split; [reflexivity |].
    split; [exact N |]. eexists. split; [exact La |].
    cbn [next set_refcount created_node].
    apply (segment_ext w); [| exact Cl]. intros b Ib. rewrite Hn.
    destruct (segment_live _ _ _ _ _ Cl Ib) as (_ & [nb Lb]).
    assert (b <> a) by (intros ->; rewrite F in Lb; discriminate Lb).
    rewrite lookup_insert_ne by congruence.
    destruct (decide (b = dir)) as [-> | Bd].
    + now rewrite lookup_insert_eq, E.
    + now rewrite lookup_insert_ne by congruence.
Qed.

(** X28.  [fuse_init] does not look at what [rename_node] returns: when
    [realloc] fails there, the root is left with a length and no name, and
    the first path built through it copies from a null pointer. *)
Theorem fuse_init_without_memory (fuel : nat) (h h' : host) (fd0 : Z)
    (path : string) (w w1 : state) (hdr : fuse_in_header) :
  h_realloc h = false ->
  fuse_init h fd0 path w = Ok w1 ->
  root w <> NULL ->
  0 < strlen path < PATH_BUFFER_SIZE - 1 ->
  (exists r, nodes w1 !! root w1 = Some r
             /\ name r = None /\ namelen r = strlen path)
  /\ node_get_path w1 (root w1) None = Fault
  /\ dispatch fuel h' hdr (root w1) FUSE_GETATTR w1 = Fault.
Proof.
  intros M I R Lp. apply fuse_init_inv in I as (junk & Lj & ->).
  destruct (init_state_frame junk h fd0 path w) as (Er & En & _).
  cbv zeta in Er, En. unfold PATH_BUFFER_SIZE in Lp.
  assert (Lr : nodes (init_state junk h fd0 path w)
               !! root (init_state junk h fd0 path w)
               = Some (init_root junk h path))
    by (rewrite Er, En; apply lookup_insert_eq).
  assert (P : node_get_path (init_state junk h fd0 path w)
                (root (init_state junk h fd0 path w)) None = Fault).
  { unfold node_get_path. cbv zeta. cbn [bind].
    change (Z.to_nat PATH_BUFFER_SIZE) with (S (Z.to_nat 1023)).
    cbn [path_loop]. rewrite Er at 1. apply Z.eqb_neq in R. rewrite R.
    rewrite (load_lookup _ _ _ Lr). cbn [bind name namelen init_root].
    rewrite M, u32_small, s32_small by lia.
    unfold path_start, memcpy_src, PATH_BUFFER_SIZE.
    destruct (Z.gtb_spec (strlen path + 1) (1024 - 1)); [lia |].
    destruct (Z.eqb_spec (strlen path) 0); [lia |].
    destruct (Z.ltb_spec (strlen path) 0); [lia | reflexivity]. }
  split; [| split].
  - eexists. split; [exact Lr |]. cbn [name namelen init_root].
    rewrite M. split; [reflexivity | apply u32_small; lia].
  - exact P.
  - cbn [dispatch]. unfold node_get_attr. now rewrite P.
Qed.

(** ** Fixing a directory tree *)

Lemma but_errno_refl (w : state) : but_errno w w.
Proof. reflexivity. Qed.

Lemma but_errno_trans (w1 w2 w3 : state) :
  but_errno w1 w2 -> but_errno w2 w3 -> but_errno w1 w3.
Proof. unfold but_errno. congruence. Qed.

Lemma sys_but_errno {A : Type} (r : sysres A) (w w' : state)
    (o : option A) :
  sys r w = (o, w') -> but_errno w w'.
Proof.
  destruct r; intros E; injection E as _ <-; [reflexivity |].
  now destruct w.
Qed.

Lemma but_errno_lower_case (w w' : state) :
  but_errno w w' -> force_lower_case w' = force_lower_case w.
Proof.
  intros E. apply (f_equal force_lower_case) in E. now destruct w, w'.
Qed.

Lemma but_errno_normalize (w w' : state) (s : string) :
  but_errno w w' -> normalize_name w' s = normalize_name w s.
Proof.
  intros E. unfold normalize_name. now rewrite (but_errno_lower_case _ _ E).
Qed.

Lemma s32_u32_small (x : Z) : 0 <= x < 2 ^ 31 -> s32 (u32 x) = x.
Proof. intros R. rewrite u32_small by lia. now apply s32_small. Qed.

Lemma char_at_ok (s : string) (i : Z) :
  0 <= i <= strlen s -> exists c, char_at s i = Ok c.
Proof.
  intros R. unfold char_at.
  destruct (Z.ltb_spec i 0); [lia |].
  destruct (Z.ltb_spec (strlen s) i); [lia |]. cbn [orb].
  destruct (String.get (Z.to_nat i) s); eauto.
Qed.

Lemma strlen_substring_0 (n : Z) (s : string) :
  0 <= n <= strlen s -> strlen (substring 0 (Z.to_nat n) s) = n.
Proof.
  intros R. unfold strlen in *. rewrite length_substring_0; lia.
Qed.

Lemma substring_0_whole (n : nat) (s : string) :
  (String.length s <= n)%nat -> substring 0 n s = s.
Proof.
  revert n. induction s as [| c s IH]; intros n L.
  - destruct n; reflexivity.
  - destruct n as [| n]; [cbn in L; lia |].
    cbn [substring]. rewrite IH; [reflexivity | cbn in L; lia].
Qed.

Lemma strlcpy_whole (s : string) :
  strlen s < PATH_MAX -> strlcpy PATH_MAX s = s.
Proof.
  intros L. unfold strlcpy. apply substring_0_whole.
  unfold strlen, PATH_MAX in *. lia.
Qed.

Lemma strcpy_inv (size : Z) (s r : string) :
  strcpy size s = Ok r -> r = s /\ strlen s + 1 <= size.
Proof.
  unfold strcpy. destruct (Z.leb_spec (strlen s + 1) size);
    [| discriminate]. intros E. injection E as <-. auto.
Qed.

Lemma char_at_inv (s : string) (i : Z) (c : ascii) :
  char_at s i = Ok c -> 0 <= i <= strlen s.
Proof.
  unfold char_at. destruct (Z.ltb_spec i 0); [discriminate |].
  destruct (Z.ltb_spec (strlen s) i); [discriminate |]. lia.
Qed.

Lemma rename_normalizes_but_errno (w w' : state) (t : list call) :
  but_errno w w' ->
  Forall (rename_normalizes w') t -> Forall (rename_normalizes w) t.
Proof.
  intros E F. eapply Forall_impl; [exact F |]. intros [] R; try exact I.
  cbn [rename_normalizes] in *. now rewrite <- (but_errno_normalize _ _ _ E).
Qed.

Lemma fixed_nil (w : state) : fixed w [] w.
Proof. repeat split. constructor. Qed.

Lemma fixed_app (w1 w2 w3 : state) (t1 t2 : list call) :
  fixed w1 t1 w2 -> fixed w2 t2 w3 -> fixed w1 (t1 ++ t2) w3.
Proof.
  intros (B1 & F1 & R1) (B2 & F2 & R2). split; [| split].
  - now apply (but_errno_trans _ w2).
  - now rewrite forallb_app, F1, F2.
  - apply Forall_app. split; [exact R1 |].
    now apply (rename_normalizes_but_errno _ w2).
Qed.

Lemma fix_files_inv :
  (forall l uid gid path w t w',
      recursive_fix_files uid gid path l w = Ok (t, w') -> fixed w t w')
  /\ (forall s uid gid pl dirpart w t w',
        strlen dirpart = pl -> 0 <= pl < PATH_MAX ->
        fix_entries uid gid pl (PATH_MAX - pl - 1) dirpart s w = Ok (t, w') ->
        fixed w t w').
Proof.
  apply listing_stream_ind.
  - (* opendir fails *)
    intros e uid gid path w t w' E. cbn [recursive_fix_files] in E.
    cbv zeta in E.
    destruct (u32 (s32 (strlen path)) >=? PATH_MAX - 1);
      [injection E as <- <-; apply fixed_nil |].
    apply bind_ok in E as (pathbuf & E1 & E).
    apply bind_ok in E as (c & E2 & E). injection E as <- <-.
    apply strcpy_inv in E1 as (-> & L). split; [| split].
    + unfold but_errno. now destruct w.
    + cbn. rewrite andb_true_r. apply Z.ltb_lt. lia.
    + repeat constructor.
  - (* the stream is read *)
    intros s IH uid gid path w t w' E. cbn [recursive_fix_files] in E.
    cbv zeta in E.
    destruct (Z.geb_spec (u32 (s32 (strlen path))) (PATH_MAX - 1)) as [| G];
      [injection E as <- <-; apply fixed_nil |].
    apply bind_ok in E as (pathbuf & E1 & E).
    apply bind_ok in E as (c & E2 & E).
    apply bind_ok in E as ([t0 w0] & E3 & E). injection E as <- <-.
    apply strcpy_inv in E1 as (-> & L).
    pose proof (strlen_nonneg path) as L0.
    assert (S0 : s32 (strlen path) = strlen path)
      by (apply s32_small; unfold PATH_MAX in L; lia).
    rewrite S0 in *. rewrite u32_small in G by (unfold PATH_MAX in L; lia).
    apply char_at_inv in E2.
    set (pl := if negb (Ascii.eqb c "/") then strlen path + 1
               else strlen path) in *.
    assert (Rp : 0 <= pl < PATH_MAX)
      by (unfold pl, PATH_MAX in *; destruct (negb (Ascii.eqb c "/")); lia).
    rewrite s32_u32_small in E3 by (unfold PATH_MAX in *; lia).
    apply IH in E3; [| | exact Rp].
    2:{ unfold pl. destruct (negb (Ascii.eqb c "/")); [| reflexivity].
        rewrite strlen_append. reflexivity. }
    change (sys_opendir path :: t0 ++ [sys_closedir])
      with ([sys_opendir path] ++ t0 ++ [sys_closedir]).
    apply (fixed_app w w); [| apply (fixed_app w w0); [exact E3 |]].
    + split; [reflexivity |]. split; [| repeat constructor].
      cbn. rewrite andb_true_r. apply Z.ltb_lt. lia.
    + split; [reflexivity |]. split; [reflexivity | repeat constructor].
  - (* no more entries *)
    intros uid gid pl dirpart w t w' _ _ E. injection E as <- <-.
    apply fixed_nil.
  - (* an entry *)
    intros de chowned renamed sub IHsub rest IHrest uid gid pl dirpart w t w'
      D Rp E.
    cbn [fix_entries] in E. cbv zeta in E.
    destruct (dot_or_dotdot (d_name de)); [now apply IHrest in E |].
    destruct (s32 (strlen (d_name de)) >? PATH_MAX - pl - 1);
      [now apply IHrest in E |].
    apply bind_ok in E as (tail & E1 & E).
    apply strcpy_inv in E1 as (-> & L).
    destruct (sys chowned w) as [o1 w1] eqn:S1. apply sys_but_errno in S1.
    set (pathbuf := (dirpart ++ d_name de)%string) in *.
    assert (Lp : strlen pathbuf = pl + strlen (d_name de))
      by (unfold pathbuf; rewrite strlen_append; lia).
    pose proof (strlen_nonneg (d_name de)) as L0.
    destruct (name_needs_normalizing (d_name de)).
    + destruct (sys renamed w1) as [o2 w2] eqn:S2.
      apply sys_but_errno in S2.
      apply bind_ok in E as ([t3 w3] & E3 & E).
      apply bind_ok in E as ([t4 w4] & E4 & E). injection E as <- <-.
      assert (F3 : fixed w2 t3 w3).
      { destruct (d_type de =? DT_DIR); [now apply IHsub in E3 |].
        injection E3 as <- <-. apply fixed_nil. }
      apply IHrest in E4; [| | exact Rp].
      2:{ apply strlen_substring_0. rewrite strlen_normalize_name. lia. }
      match goal with
      | |- fixed _ (?a :: ?b :: _) _ =>
          change (a :: b :: t3 ++ t4) with ([a] ++ [b] ++ t3 ++ t4)
      end.
      apply (fixed_app w w1); [| apply (fixed_app w1 w2);
                                 [| apply (fixed_app w2 w3); assumption]].
      * split; [exact S1 |]. split; [| repeat constructor].
        cbn. rewrite andb_true_r. apply Z.ltb_lt. lia.
      * split; [exact S2 |]. rewrite strlcpy_whole by lia.
        split; [| repeat constructor].
        cbn. rewrite strlen_normalize_name, andb_true_r.
        apply andb_true_iff. split; apply Z.ltb_lt; lia.
    + apply bind_ok in E as ([t3 w3] & E3 & E).
      apply bind_ok in E as ([t4 w4] & E4 & E). injection E as <- <-.
      assert (F3 : fixed w1 t3 w3).
      { destruct (d_type de =? DT_DIR); [now apply IHsub in E3 |].
        injection E3 as <- <-. apply fixed_nil. }
      apply IHrest in E4; [| | exact Rp].
      2:{ apply strlen_substring_0. lia. }
      match goal with
      | |- fixed _ (?a :: _) _ =>
          change (a :: t3 ++ t4) with ([a] ++ t3 ++ t4)
      end.
      apply (fixed_app w w1); [| apply (fixed_app w1 w3); assumption].
      split; [exact S1 |]. split; [| repeat constructor].
      cbn. rewrite andb_true_r. apply Z.ltb_lt. lia.
Qed.

Lemma fix_files_run :
  (forall l uid gid path w,
      0 < strlen path < 2 ^ 31 -> short_names l = true ->
      exists t w', recursive_fix_files uid gid path l w = Ok (t, w'))
  /\ (forall s uid gid pl dirpart w,
        strlen dirpart = pl -> 0 < pl < PATH_MAX ->
        short_names_in s = true ->
        exists t w',
          fix_entries uid gid pl (PATH_MAX - pl - 1) dirpart s w
          = Ok (t, w')).
Proof.
  apply listing_stream_ind.
  - intros e uid gid path w R _. cbn [recursive_fix_files]. cbv zeta.
    rewrite s32_small by lia. rewrite u32_small by lia.
    destruct (Z.geb_spec (strlen path) (PATH_MAX - 1)) as [| G]; [eauto |].
    unfold strcpy. destruct (Z.leb_spec (strlen path + 1) PATH_MAX); [| lia].
    cbn [bind].
    destruct (char_at_ok path (strlen path - 1)) as (c & ->); [lia |].
    cbn [bind]. eauto.
  - intros s IH uid gid path w R N. cbn [recursive_fix_files]. cbv zeta.
    rewrite s32_small by lia. rewrite u32_small by lia.
    destruct (Z.geb_spec (strlen path) (PATH_MAX - 1)) as [| G]; [eauto |].
    unfold strcpy. destruct (Z.leb_spec (strlen path + 1) PATH_MAX); [| lia].
    cbn [bind].
    destruct (char_at_ok path (strlen path - 1)) as (c & ->); [lia |].
    cbn [bind].
    set (pl := if negb (Ascii.eqb c "/") then strlen path + 1
               else strlen path).
    assert (Rp : 0 < pl < PATH_MAX)
      by (unfold pl, PATH_MAX in *; destruct (negb (Ascii.eqb c "/")); lia).
    rewrite s32_u32_small by (unfold PATH_MAX in *; lia).
    edestruct IH as (t & w' & ->); [| exact Rp | exact N |].
    + unfold pl. destruct (negb (Ascii.eqb c "/")); [| reflexivity].
      rewrite strlen_append. reflexivity.
    + cbn [bind]. eauto.
  - intros uid gid pl dirpart w _ _ _. cbn [fix_entries]. eauto.
  - intros de chowned renamed sub IHsub rest IHrest uid gid pl dirpart w
      D Rp N.
    cbn [short_names_in] in N. apply andb_true_iff in N as (N & Nr).
    apply andb_true_iff in N as (Nn & Ns). apply Z.ltb_lt in Nn.
    pose proof (strlen_nonneg (d_name de)) as L0.
    cbn [fix_entries]. cbv zeta.
    destruct (dot_or_dotdot (d_name de)); [now apply IHrest |].
    rewrite s32_small by lia.
    destruct (Z.gtb_spec (strlen (d_name de)) (PATH_MAX - pl - 1)) as [| G];
      [now apply IHrest |].
    unfold strcpy.
    destruct (Z.leb_spec (strlen (d_name de) + 1) (PATH_MAX - pl)); [| lia].
    cbn [bind].
    destruct (sys chowned w) as [o1 w1].
    set (pathbuf := (dirpart ++ d_name de)%string).
    assert (Lp : strlen pathbuf = pl + strlen (d_name de))
      by (unfold pathbuf; rewrite strlen_append; lia).
    destruct (name_needs_normalizing (d_name de)).
    + destruct (sys renamed w1) as [o2 w2].
      assert (E3 : exists t3 w3,
                 (if d_type de =? DT_DIR
                  then recursive_fix_files uid gid
                         (normalize_name w1 pathbuf) sub w2
                  else Ok ([], w2)) = Ok (t3, w3)).
      { destruct (d_type de =? DT_DIR); [| eauto].
        apply IHsub; [| exact Ns]. rewrite strlen_normalize_name.
        unfold PATH_MAX in *. lia. }
      destruct E3 as (t3 & w3 & ->). cbn [bind].
      edestruct IHrest as (t4 & w4 & ->); [| exact Rp | exact Nr |].
      * apply strlen_substring_0. rewrite strlen_normalize_name. lia.
      * cbn [bind]. eauto.
    + assert (E3 : exists t3 w3,
                 (if d_type de =? DT_DIR
                  then recursive_fix_files uid gid pathbuf sub w1
                  else Ok ([], w1)) = Ok (t3, w3)).
      { destruct (d_type de =? DT_DIR); [| eauto].
        apply IHsub; [| exact Ns]. unfold PATH_MAX in *. lia. }
      destruct E3 as (t3 & w3 & ->). cbn [bind].
      edestruct IHrest as (t4 & w4 & ->); [| exact Rp | exact Nr |].
      * apply strlen_substring_0. lia.
      * cbn [bind]. eauto.
Qed.

(** X23.  [recursive_fix_files] reads [pathbuf[-1]] when its path is empty;
    on a path that is not, over entries with names of [struct dirent], it
    returns, makes only [opendir], [closedir], [chown] and [rename]
    calls, with paths that fit [PATH_MAX] bytes, and changes [errno] at
    most. *)
Theorem fix_files_stays_in_buffers (l : listing) (uid gid : Z)
    (path : string) (w : state) :
  recursive_fix_files uid gid EmptyString l w = Fault
  /\ (0 < strlen path < 2 ^ 31 ->
      short_names l = true ->
      exists t w',
        recursive_fix_files uid gid path l w = Ok (t, w')
        /\ forallb call_fits t = true
        /\ but_errno w w').
Proof.
  split; [now destruct l |]. intros R N.
  destruct (proj1 fix_files_run l uid gid path w R N) as (t & w' & E).
  exists t, w'. split; [exact E |].
  apply (proj1 fix_files_inv) in E as (B & F & _). auto.
Qed.

(** X24.  Every [rename] of [recursive_fix_files] moves a path to its
    normalized form: to itself when [force_lower_case] is not set, to the
    lower case of the whole path, directories included, when it is. *)
Theorem fix_files_renames (l : listing) (uid gid : Z) (path : string)
    (w w' : state) (t : list call) (o n : string) :
  recursive_fix_files uid gid path l w = Ok (t, w') ->
  sys_rename o n ∈ t ->
  n = normalize_name w o
  /\ (force_lower_case w = false -> n = o)
  /\ (force_lower_case w = true -> n = lower o).
Proof.
  intros E I. apply (proj1 fix_files_inv) in E as (_ & _ & F).
  rewrite Forall_forall in F. specialize (F _ I). cbn in F.
  split; [exact F |]. unfold normalize_name in F.
  split; intros L; rewrite L in F; exact F.
Qed.

(** ** The command line and the start-up *)

Lemma main_loop_inv (strtoul : string -> Z) (args : list string) :
  forall v w r v' w',
    main_loop strtoul args v w = (r, v', w') ->
    0 <= m_uid v < 2 ^ 32 -> 0 <= m_gid v < 2 ^ 32 ->
    0 <= m_uid v' < 2 ^ 32 /\ 0 <= m_gid v' < 2 ^ 32
    /\ wire w' = wire w /\ nodes w' = nodes w /\ root w' = root w
    /\ (r = None \/ r = Some usage).
Proof.
  induction args as [| arg args IH]; intros v w r v' w' E Ru Rg.
  - injection E as <- <- <-. auto 10.
  - cbn [main_loop] in E. destruct (first_is "-" arg).
    + destruct (String.eqb arg "-l").
      * apply IH in E as (? & ? & -> & -> & -> & ?); auto 10.
      * destruct (String.eqb arg "-f").
        -- apply IH in E; auto.
        -- injection E as <- <- <-. auto 10.
    + destruct (m_path v).
      * destruct (m_uid v =? u32 (-1)).
        -- apply IH in E; auto. apply u32_range.
        -- destruct (m_gid v =? u32 (-1)).
           ++ apply IH in E; auto. apply u32_range.
           ++ injection E as <- <- <-. auto 10.
      * apply IH in E; auto.
Qed.

Lemma but_errno_wire (w w' : state) : but_errno w w' -> wire w' = wire w.
Proof. intros E. apply (f_equal wire) in E. now destruct w, w'. Qed.

Lemma fix_files_wire (fx : bool) (uid gid : Z) (path : string)
    (l : listing) (w w' : state) (t : list call) :
  (if fx then recursive_fix_files uid gid path l w else Ok ([], w))
  = Ok (t, w') ->
  wire w' = wire w /\ forallb call_fits t = true.
Proof.
  destruct fx.
  - intros E. apply (proj1 fix_files_inv) in E as (B & F & _).
    split; [now apply but_errno_wire | exact F].
  - intros E. injection E as <- <-. auto.
Qed.

Lemma mount_once (fd u g : Z) (t0 extra : list call) :
  forallb call_fits t0 = true ->
  Forall (fun c => match c with
                   | sys_setgid _ | sys_setuid _ | sys_umask _ => True
                   | _ => False
                   end) extra ->
  forall fd0 a g0,
    sys_mount fd0 a g0
      ∈ [sys_umount2; sys_open; sys_mount fd u g] ++ t0 ++ extra ->
    a = u /\ g0 = g.
Proof.
  intros F0 Fe fd0 a g0 I. cbn [app] in I.
  apply elem_of_cons in I as [I | I]; [discriminate I |].
  apply elem_of_cons in I as [I | I]; [discriminate I |].
  apply elem_of_cons in I as [I | I]; [injection I as _ -> ->; auto |].
  exfalso. apply elem_of_app in I as [I | I].
  - rewrite forallb_forall in F0. apply list_elem_of_In in I.
    apply F0 in I. discriminate I.
  - rewrite Forall_forall in Fe. apply Fe in I. exact I.
Qed.

(** The calls of a run that got past the arguments. *)
Lemma main_calls (fuel : nat) (b : boot) (args : list string) (w : state)
    (o : outcome) (t : list call) (w' : state) (v : main_vars) (w0 : state)
    (path : string) :
  main fuel b args w = Ok (o, t, w') ->
  main_loop (b_strtoul b) args main_start w = (None, v, w0) ->
  m_path v = Some path -> m_uid v <> 0 -> m_gid v <> 0 ->
  0 <= m_uid v -> 0 <= m_gid v ->
  exists t',
    t = sys_umount2 :: sys_open :: t'
    /\ forall fd a g, sys_mount fd a g ∈ t ->
         a = s32 (m_uid v) /\ g = s32 (m_gid v).
Proof.
  intros E L P Nu Ng Ru Rg. unfold main in E. fold main_start in E.
  rewrite L, P in E.
  destruct (Z.leb_spec (m_uid v) 0); [lia |].
  destruct (Z.leb_spec (m_gid v) 0); [lia |]. cbn [orb] in E.
  destruct (sys (b_umount2 b) w0) as [o0 w1].
  destruct (sys (b_open b) w1) as [[fd |] w2].
  2:{ injection E as _ <- _. eexists. split; [reflexivity |].
      intros fd a g I. repeat (apply elem_of_cons in I as [I | I];
                               [discriminate I |]). inversion I. }
  destruct (sys (b_mount b) w2) as [[u |] w3].
  2:{ injection E as _ <- _. eexists. split; [reflexivity |].
      apply (mount_once fd _ _ [] []); [reflexivity | constructor]. }
  apply bind_ok in E as ([t0 w4] & E0 & E).
  apply fix_files_wire in E0 as (_ & F0).
  destruct (sys (b_setgid b) w4) as [[u1 |] w5].
  2:{ injection E as _ <- _. eexists. split; [reflexivity |].
      apply (mount_once fd _ _ t0); [exact F0 | repeat constructor]. }
  destruct (sys (b_setuid b) w5) as [[u2 |] w6].
  2:{ injection E as _ <- _. eexists. split; [reflexivity |].
      rewrite <- !app_assoc.
      apply (mount_once fd _ _ t0); [exact F0 | repeat constructor]. }
  apply bind_ok in E as (w7 & _ & E).
  apply bind_ok in E as ([e w8] & _ & E).
  assert (Et : t = ([sys_umount2; sys_open;
                     sys_mount fd (s32 (m_uid v)) (s32 (m_gid v))]
                    ++ t0 ++ [sys_setgid (m_gid v); sys_setuid (m_uid v);
                              sys_umask 0])).
  { destruct e; injection E as _ <- _; now rewrite <- !app_assoc. }
  rewrite Et. eexists. split; [reflexivity |].
  apply (mount_once fd _ _ t0); [exact F0 | repeat constructor].
Qed.

Lemma main_start_ids : 0 <= m_uid main_start < 2 ^ 32
                       /\ 0 <= m_gid main_start < 2 ^ 32.
Proof. cbn. split; apply u32_range. Qed.

(** X25.  If [main] got into the request loop (it is serving, it returned
    0, or something was written on the channel), then both ids were
    nonzero, the file system was mounted for them, and [setgid], [setuid]
    and [umask] were the last calls before the loop, both successful and
    in this order; between mount and them only calls of
    [recursive_fix_files] were made. *)
Theorem main_drops_privileges (fuel : nat) (b : boot) (args : list string)
    (w : state) (o : outcome) (t : list call) (w' : state) :
  main fuel b args w = Ok (o, t, w') ->
  o = serving \/ o = exited 0 \/ wire w' <> wire w ->
  exists uid gid fd t0,
    0 < uid < 2 ^ 32 /\ 0 < gid < 2 ^ 32
    /\ (exists u, b_setgid b = SysOk u) /\ (exists u, b_setuid b = SysOk u)
    /\ t = [sys_umount2; sys_open; sys_mount fd (s32 uid) (s32 gid)]
           ++ t0 ++ [sys_setgid gid; sys_setuid uid; sys_umask 0]
    /\ forallb call_fits t0 = true.
Proof.
  intros E Served. unfold main in E. fold main_start in E.
  destruct (main_loop (b_strtoul b) args main_start w) as [[r v] w0] eqn:L.
  destruct main_start_ids as (Su & Sg).
  apply main_loop_inv in L as (Ru & Rg & W0 & _ & _ & Rr);
    [| exact Su | exact Sg].
  assert (No : forall t1 w1,
             wire w1 = wire w ->
             Ok (exited (-1), t1, w1) = Ok (o, t, w') -> False).
  { intros t1 w1 Ew Eo. injection Eo as <- <- <-.
    destruct Served as [S | [S | S]];
      [discriminate S | discriminate S | contradiction]. }
  destruct Rr as [-> | ->]; [| now apply No in E].
  destruct (m_path v) as [path |]; [| now apply No in E].
  destruct (Z.leb_spec (m_uid v) 0); [now apply No in E |].
  destruct (Z.leb_spec (m_gid v) 0); [now apply No in E |]. cbn [orb] in E.
  destruct (sys (b_umount2 b) w0) as [o0 w1] eqn:S1. apply sys_quiet in S1.
  destruct (sys (b_open b) w1) as [[fd |] w2] eqn:S2; apply sys_quiet in S2;
    [| apply No in E; [contradiction | unfold quiet in *; congruence]].
  destruct (sys (b_mount b) w2) as [[u |] w3] eqn:S3; apply sys_quiet in S3;
    [| apply No in E; [contradiction | unfold quiet in *; congruence]].
  apply bind_ok in E as ([t0 w4] & E0 & E).
  apply fix_files_wire in E0 as (W4 & F0).
  destruct (b_setgid b) as [u1 | e1] eqn:G; cbn [sys] in E;
    [| apply No in E; [contradiction |
                       unfold quiet in *; cbn [wire set_errno]; congruence]].
  destruct (b_setuid b) as [u2 | e2] eqn:U; cbn [sys] in E;
    [| apply No in E; [contradiction |
                       unfold quiet in *; cbn [wire set_errno]; congruence]].
  apply bind_ok in E as (w7 & _ & E).
  apply bind_ok in E as ([e w8] & _ & E).
  exists (m_uid v), (m_gid v), fd, t0.
  split; [lia |]. split; [lia |]. split; [eauto |]. split; [eauto |].
  split; [| exact F0].
  destruct e; injection E as _ <- _; now rewrite <- !app_assoc.
Qed.

(** X26.  On the command line [path uid gid]: if [strtoul] gives 0 for one
    of the ids, [main] returns the value of [usage] before any system
    call; if not, the calls start with [umount2] and [open], and a mount
    is made with these ids and no others. *)
Theorem main_checks_ids (fuel : nat) (b : boot) (path su sg : string)
    (w : state) :
  first_is "-" path = false /\ first_is "-" su = false
  /\ first_is "-" sg = false ->
  u32 (b_strtoul b su) <> u32 (-1) ->
  let uid := u32 (b_strtoul b su) in
  let gid := u32 (b_strtoul b sg) in
  (uid = 0 \/ gid = 0 ->
   main fuel b [path; su; sg] w = Ok (exited usage, [], w))
  /\ (uid <> 0 /\ gid <> 0 ->
      forall o t w',
        main fuel b [path; su; sg] w = Ok (o, t, w') ->
        exists t',
          t = sys_umount2 :: sys_open :: t'
          /\ forall fd a g, sys_mount fd a g ∈ t ->
               a = s32 uid /\ g = s32 gid).
Proof.
  intros (Dp & Du & Dg) Nu uid gid.
  assert (L : main_loop (b_strtoul b) [path; su; sg] main_start w
              = (None, {| m_path := Some path; m_fix_files := false;
                          m_uid := uid; m_gid := gid |}, w)).
  { cbn [main_loop main_start m_path m_uid m_gid m_fix_files].
    rewrite Dp, Du, Dg. change (u32 (-1) =? u32 (-1)) with true. cbv iota.
    apply Z.eqb_neq in Nu. rewrite Nu. reflexivity. }
  pose proof (u32_range (b_strtoul b su)) as Ru.
  pose proof (u32_range (b_strtoul b sg)) as Rg. fold uid in Ru.
  fold gid in Rg. split.
  - intros Z. unfold main. fold main_start. rewrite L. cbn [m_path m_uid m_gid].
    destruct Z as [-> | ->]; [reflexivity |].
    now rewrite orb_true_r.
  - intros [Zu Zg] o t w' E.
    apply (main_calls _ _ _ _ _ _ _ _ _ path E L); cbn; (reflexivity || lia).
Qed.

(** X27.  A command line of a path alone is not rejected: the ids keep
    their initial -1; once the device is open, [mount] is the next call,
    with [user_id=-1,group_id=-1], and if the calls succeed, the daemon gets
    into the request loop, group and user [2^32 - 1]. *)
Theorem main_accepts_missing_ids (fuel : nat) (b : boot) (path : string)
    (w : state) (fd0 : Z) :
  first_is "-" path = false ->
  b_open b = SysOk fd0 ->
  (forall o t w',
      main fuel b [path] w = Ok (o, t, w') ->
      exists t', t = sys_umount2 :: sys_open :: sys_mount fd0 (-1) (-1) :: t')
  /\ (forall u1 u2 u3 w1 e w2,
        b_mount b = SysOk u1 ->
        b_setgid b = SysOk u2 ->
        b_setuid b = SysOk u3 ->
        fuse_init (b_host b) fd0 path (snd (sys (b_umount2 b) w)) = Ok w1 ->
        handle_fuse_requests fuel (b_script b) w1 = Ok (e, w2) ->
        main fuel b [path] w
        = Ok (match e with
              | Returned => exited 0
              | Reading => serving
              end,
              [sys_umount2; sys_open; sys_mount fd0 (-1) (-1);
               sys_setgid (2 ^ 32 - 1); sys_setuid (2 ^ 32 - 1);
               sys_umask 0],
              w2)).
Proof.
  intros Dp Op.
  assert (L : main_loop (b_strtoul b) [path] main_start w
              = (None, {| m_path := Some path; m_fix_files := false;
                          m_uid := u32 (-1); m_gid := u32 (-1) |}, w)).
  { cbn [main_loop main_start m_path m_uid m_gid m_fix_files].
    now rewrite Dp. }
  assert (M : main fuel b [path] w
              = let w0 := snd (sys (b_umount2 b) w) in
                let t := [sys_umount2; sys_open; sys_mount fd0 (-1) (-1)] in
                match sys (b_mount b) w0 with
                | (None, w) => Ok (exited (-1), t, w)
                | (Some _, w) =>
                    let t := t ++ [sys_setgid (2 ^ 32 - 1)] in
                    match sys (b_setgid b) w with
                    | (None, w) => Ok (exited (-1), t, w)
                    | (Some _, w) =>
                        let t := t ++ [sys_setuid (2 ^ 32 - 1)] in
                        match sys (b_setuid b) w with
                        | (None, w) => Ok (exited (-1), t, w)
                        | (Some _, w) =>
                            let* w := fuse_init (b_host b) fd0 path w in
                            let t := t ++ [sys_umask 0] in
                            let* '(e, w) :=
                              handle_fuse_requests fuel (b_script b) w in
                            match e with
                            | Returned => Ok (exited 0, t, w)
                            | Reading => Ok (serving, t, w)
                            end
                        end
                    end
                end).
  { unfold main. fold main_start. rewrite L.
    cbn [m_path m_uid m_gid m_fix_files].
    change ((u32 (-1) <=? 0) || (u32 (-1) <=? 0)) with false. cbv iota.
    destruct (sys (b_umount2 b) w) as [o0 w0]. rewrite Op.
    cbn [sys snd bind app]. reflexivity. }
  rewrite M. cbv zeta. split.
  - intros o t w' E.
    destruct (sys (b_mount b) _) as [[u1 |] w3];
      [| injection E as _ <- _; eexists; reflexivity].
    destruct (sys (b_setgid b) w3) as [[u2 |] w4];
      [| injection E as _ <- _; eexists; reflexivity].
    destruct (sys (b_setuid b) w4) as [[u3 |] w5];
      [| injection E as _ <- _; eexists; reflexivity].
    apply bind_ok in E as (w6 & _ & E).
    apply bind_ok in E as ([e w7] & _ & E).
    destruct e; injection E as _ <- _; eexists; reflexivity.
  - intros u1 u2 u3 w1 e w2 Mo Sg Su I R.
    rewrite Mo, Sg, Su. cbn [sys]. rewrite I. cbn [bind]. rewrite R.
    cbn [bind]. destruct e; reflexivity.
Qed.

End Coverage.

(** * The properties on the session *)

#[local] Existing Instance android.
#[local] Existing Instance bionic_arm.

Lemma fresh_session_init :
  fuse_init boot_host 3 "/data/media" (process_start 65536 zero_node false)
  = Ok fresh_session.
Proof. vm_compute. reflexivity. Qed.

Lemma hello_session_lookup :
  handle_fuse_request 1 hello_host (from_root 46 1) (FUSE_LOOKUP "hello") 46
    fresh_session
  = Ok hello_session.
Proof. vm_compute. reflexivity. Qed.

Lemma opened_session_open :
  handle_fuse_request 1 open_host (from_root 48 2) (FUSE_OPEN 0) 48
    fresh_session
  = Ok opened_session.
Proof. vm_compute. reflexivity. Qed.

(** C8 on the file [hello]: mode 0100644 is shown as 0100664. *)
Lemma hello_attr_mode :
  attr_mode (attr_from_stat zero_attr hello_stat) = 33204.
Proof. reflexivity. Qed.

(** C8 through GETATTR: a host file of mode 0100600 is shown with mode
    0100664, uid 0, the sdcard gid, and the node id as [ino]. *)
Lemma getattr_mode_0600 :
  exists w1 a,
    handle_fuse_request 1
      (with_lstat (fun _ => SysOk (with_mode 33152 hello_stat)) bare_host)
      (from_root 56 4) FUSE_GETATTR 56 fresh_session
    = Ok w1
    /\ replies w1
       = [{| error := 0; unique := 4; data := Some (attr_out 10 a) |}]
    /\ attr_mode a = 33204
    /\ attr_uid a = 0 /\ attr_gid a = 1015 /\ attr_ino a = FUSE_ROOT_ID.
Proof.
  do 2 eexists. split; [vm_compute; reflexivity |].
  split; [vm_compute; reflexivity |]. repeat split.
Qed.

(** C10 at the root of the fresh session. *)
Lemma dec_refcount_guarded_witness :
  exists w' n',
    dec_refcount 65536 fresh_session = Ok w'
    /\ nodes w' !! 65536 = Some n'
    /\ refcount n' = Z.max (refcount root_node - 1) 0
    /\ 0 <= refcount n' < 2 ^ 32
    /\ (refcount root_node = 0 -> w' = fresh_session)
    /\ (forall fuel, 1 < refcount root_node ->
          node_release (S fuel) 65536 fresh_session = Ok w')
    /\ (forall fuel w1 n1,
          node_release fuel 65536 fresh_session = Ok w1 ->
          nodes w1 !! 65536 = Some n1 ->
          0 <= refcount n1 <= refcount root_node).
Proof.
  apply (dec_refcount_guarded 65536 fresh_session root_node).
  - vm_compute. reflexivity.
  - simpl. lia.
Defined.



(** C6 at the fresh session: one release of the root. *)
Lemma root_outlives_one_release_witness :
  exists r,
    nodes fresh_session !! root fresh_session = Some r
    /\ refcount r = 2
    /\ handle_fuse_request 1 bare_host (from_root 48 2) (FUSE_FORGET 1) 48
         fresh_session
       = Ok (store (root fresh_session) (set_refcount (2 - 1) r)
               fresh_session)
    /\ (forall fuel' script e w',
          Forall is_forget script ->
          handle_fuse_requests fuel' script fresh_session = Ok (e, w') ->
          root w' = root fresh_session /\ is_Some (nodes w' !! root w')).
Proof.
  apply (root_outlives_one_release 0 boot_host bare_host 3 "/data/media"
           (process_start 65536 zero_node false) fresh_session
           (from_root 48 2) 48 1).
  - vm_compute. reflexivity.
  - discriminate.
  - simpl. split; [lia | reflexivity].
  - reflexivity.
  - lia.
Defined.

(** C6 as stated fails: two releases bring the root's count from its seed
    to zero, and the release that reaches zero goes on to the root's null
    parent. *)
Lemma two_releases_zero_the_root :
  exists w1 w2 r,
    node_release 1 65536 fresh_session = Ok w1
    /\ dec_refcount 65536 w1 = Ok w2
    /\ nodes w2 !! 65536 = Some r
    /\ refcount r = 0
    /\ node_release 1 65536 w1 = Fault
    /\ handle_fuse_request 1 bare_host (from_root 48 2) (FUSE_FORGET 2) 48
         fresh_session
       = Fault.
Proof.
  do 3 eexists.
  split; [vm_compute; reflexivity |].
  split; [vm_compute; reflexivity |].
  split; [vm_compute; reflexivity |].
  repeat split; vm_compute; reflexivity.
Qed.

(** C2 at the fresh session: the first LOOKUP, of [hello]. *)
Lemma created_node_ids_witness :
  (forall h0 fd0 rootpath w0 w',
      fuse_init h0 fd0 rootpath w0 = Ok w' ->
      next_node_id w' = 2 /\ next_generation w' = 0)
  /\ exists w1,
      handle_fuse_request 1 hello_host (from_root 46 1) (FUSE_LOOKUP "hello")
        46 fresh_session
      = Ok w1
      /\ next_node_id w1 = u64 (next_node_id fresh_session + 1)
      /\ next_generation w1 = u64 (next_generation fresh_session + 1)
      /\ (exists n, nodes w1 !! 4096 = Some n
                    /\ nid n = ptr_to_id 4096
                    /\ gen n = next_generation fresh_session)
      /\ replies w1
         = replies fresh_session ++
           [{| error := 0; unique := hdr_unique (from_root 46 1);
               data := Some (entry_out
                 {| e_nodeid := ptr_to_id 4096;
                    e_generation := next_generation fresh_session;
                    e_entry_valid := 10; e_attr_valid := 10;
                    e_attr := set_attr_ino (ptr_to_id 4096)
                                (attr_from_stat zero_attr hello_stat) |}) |}].
Proof.
  apply (created_node_ids 1 hello_host (from_root 46 1) 46 "hello"
           fresh_session 65536 root_node 4096
           (Some "//data/media/hello"%string) hello_stat).
  - simpl. split; [lia | reflexivity].
  - split; [discriminate | reflexivity].
  - split; [vm_compute; reflexivity | discriminate].
  - vm_compute. reflexivity.
  - vm_compute. reflexivity.
  - reflexivity.
  - split; reflexivity.
  - split; [vm_compute; reflexivity | discriminate].
Defined.

(** C2 as stated fails: the first LOOKUP of a fresh session replies with
    generation 0 and [attr.ino] equal to the node id, but the node id is
    the address of the node, 4096 here, not 2. *)
Lemma first_lookup_nodeid_is_address :
  exists w1 e,
    fuse_init boot_host 3 "/data/media" (process_start 65536 zero_node false)
    = Ok fresh_session
    /\ handle_fuse_request 1 hello_host (from_root 46 1)
         (FUSE_LOOKUP "hello") 46 fresh_session
       = Ok w1
    /\ replies w1
       = [{| error := 0; unique := 1; data := Some (entry_out e) |}]
    /\ e_generation e = 0
    /\ attr_ino (e_attr e) = e_nodeid e
    /\ e_nodeid e = 4096
    /\ e_nodeid e <> 2.
Proof.
  do 2 eexists.
  split; [vm_compute; reflexivity |].
  split; [vm_compute; reflexivity |].
  split; [vm_compute; reflexivity |].
  repeat split; try reflexivity. discriminate.
Qed.

(** C7 on a message of eight bytes. *)
Lemma framing_error_is_skipped_witness :
  handle_fuse_request 1 bare_host (from_root 8 1) FUSE_FLUSH 8 fresh_session
  = Ok fresh_session
  /\ handle_fuse_requests 1
       (ReadMsg 8 (from_root 8 1) FUSE_FLUSH bare_host :: [ReadErr EIO])
       fresh_session
     = handle_fuse_requests 1 [ReadErr EIO] fresh_session
  /\ (forall e, e <> EINTR ->
        handle_fuse_requests 1 (ReadErr e :: [ReadErr EIO]) fresh_session
        = Ok (Returned, set_errno e fresh_session))
  /\ handle_fuse_requests 1 (ReadErr EINTR :: [ReadErr EIO]) fresh_session
     = handle_fuse_requests 1 [ReadErr EIO] (set_errno EINTR fresh_session)
  /\ (forall s w0 w',
        handle_fuse_requests 1 s w0 = Ok (Returned, w') ->
        exists s1 e s2 w1,
          s = s1 ++ ReadErr e :: s2
          /\ e <> EINTR
          /\ handle_fuse_requests 1 s1 w0 = Ok (Reading, w1)
          /\ w' = set_errno e w1).
Proof.
  apply (framing_error_is_skipped 1 bare_host (from_root 8 1) FUSE_FLUSH 8
           [ReadErr EIO] fresh_session).
  - unfold read_count. lia.
  - left. simpl. lia.
Defined.

(** C7 as stated fails: after a message shorter than a header, and after
    one that declares more than the buffer holds, the loop is still there
    and answers the INIT that follows. *)
Lemma loop_survives_framing_errors :
  exists w1,
    handle_fuse_requests 1
      [ReadMsg 8 (from_root 8 1) FUSE_FLUSH bare_host;
       ReadMsg 8192 (from_root 300000 2) FUSE_FLUSH bare_host;
       ReadMsg 56 (from_root 56 3) (FUSE_INIT 7 22 131072 0) bare_host]
      fresh_session
    = Ok (Reading, w1)
    /\ replies w1
       = [{| error := 0; unique := 3;
             data := Some (init_out 7 13 131072 8 32 32 262144) |}].
Proof.
  eexists. split; vm_compute; reflexivity.
Qed.

(** C1 on [hello], looked up again while the kernel does not take the
    reply. *)
Lemma lookup_reply_failure_keeps_reference_witness :
  exists w1,
    handle_fuse_request 1 (deaf_kernel hello_host) (from_root 46 2)
      (FUSE_LOOKUP "hello") 46 hello_session
    = Ok w1
    /\ refcount <$> nodes w1 !! 4096
       = Some (u32 (refcount
                      (created_node fresh_session 65536 root_node 4096
                         "hello") + 1))
    /\ wire w1
       = wire hello_session ++
         [Lost {| error := 0; unique := hdr_unique (from_root 46 2);
                  data := Some (entry_for
                    (bump (created_node fresh_session 65536 root_node 4096
                             "hello")) hello_stat) |}].
Proof.
  apply (lookup_reply_failure_keeps_reference 1 (deaf_kernel hello_host)
           (from_root 46 2) 46 "hello" hello_session 65536 4096
           (created_node fresh_session 65536 root_node 4096 "hello")
           (Some "//data/media/hello"%string) hello_stat EIO).
  - simpl. split; [lia | reflexivity].
  - split; [discriminate | reflexivity].
  - discriminate.
  - vm_compute. reflexivity.
  - reflexivity.
  - vm_compute. reflexivity.
  - discriminate.
  - vm_compute. reflexivity.
  - reflexivity.
Defined.

(** C1, the numbers: the count of [hello] goes from 1 to 2 on a reply that
    is lost. *)
Lemma lost_reply_counts :
  refcount <$> nodes hello_session !! 4096 = Some 1
  /\ exists w1,
       handle_fuse_request 1 (deaf_kernel hello_host) (from_root 46 2)
         (FUSE_LOOKUP "hello") 46 hello_session
       = Ok w1
       /\ refcount <$> nodes w1 !! 4096 = Some 2.
Proof.
  split; [vm_compute; reflexivity |].
  eexists. split; vm_compute; reflexivity.
Qed.

(** C4 on the opened session. *)
Lemma write_replies_twice_witness :
  exists w1,
    handle_fuse_request 1 writing_host (from_root 84 3)
      (FUSE_WRITE 8192 4 0 [x68; x65; x6c; x6c]) 84 opened_session
    = Ok w1
    /\ replies w1
       = replies opened_session ++
         [{| error := 0; unique := hdr_unique (from_root 84 3);
             data := Some (write_out (u32 4)) |};
          {| error := - ENOSYS; unique := hdr_unique (from_root 84 3);
             data := None |}].
Proof.
  apply (write_replies_twice 1 writing_host (from_root 84 3) 84 8192 4 0
           [x68; x65; x6c; x6c] opened_session 7 4).
  - simpl. split; [lia | reflexivity].
  - split; discriminate.
  - vm_compute. reflexivity.
  - reflexivity.
Defined.

(** C3 (what the code does).  RENAME of [hello] to [world] within the root
    when [realloc] of the name fails: the reply is [-ENOMEM], and the node,
    which was the root's child, is left with no parent and on no child
    list, though it keeps the reference the kernel holds. *)
Theorem rename_enomem_leaves_node_detached :
  linked_from hello_session 4096 = [65536]
  /\ exists w1 t r,
       handle_fuse_request 1 (with_realloc false hello_host) (from_root 60 2)
         (FUSE_RENAME FUSE_ROOT_ID "hello" "world") 60 hello_session
       = Ok w1
       /\ replies w1
          = replies hello_session ++
            [{| error := - ENOMEM; unique := 2; data := None |}]
       /\ nodes w1 !! 4096 = Some t
       /\ parent t = NULL /\ refcount t = 1
       /\ nodes w1 !! 65536 = Some r
       /\ child r = NULL
       /\ linked_from w1 4096 = [].
Proof.
  split; [vm_compute; reflexivity |].
  do 3 eexists.
  split; [vm_compute; reflexivity |].
  split; [vm_compute; reflexivity |].
  split; [vm_compute; reflexivity |].
  split; [reflexivity |]. split; [reflexivity |].
  split; [vm_compute; reflexivity |].
  split; [reflexivity |]. vm_compute. reflexivity.
Qed.

(** C5 (what the code does).  When [open], [pread64] or [pwrite64] fails,
    the status reply of OPEN, READ and WRITE carries [errno] itself, a
    positive number; OPENDIR, next to them, negates it. *)
Theorem open_read_write_reply_errno_unnegated :
  (exists w1,
      handle_fuse_request 1 hello_host (from_root 48 2) (FUSE_OPEN 0) 48
        fresh_session
      = Ok w1
      /\ replies w1 = [{| error := ENOENT; unique := 2; data := None |}])
  /\ (exists w1,
        handle_fuse_request 1 bare_host (from_root 80 3)
          (FUSE_READ 8192 16 0) 80 opened_session
        = Ok w1
        /\ replies w1
           = replies opened_session ++
             [{| error := EINVAL; unique := 3; data := None |}])
  /\ (exists w1,
        handle_fuse_request 1 bare_host (from_root 84 3)
          (FUSE_WRITE 8192 4 0 [x68; x65; x6c; x6c]) 84 opened_session
        = Ok w1
        /\ replies w1
           = replies opened_session ++
             [{| error := EINVAL; unique := 3; data := None |}])
  /\ (exists w1,
        handle_fuse_request 1 hello_host (from_root 48 2) FUSE_OPENDIR 48
          fresh_session
        = Ok w1
        /\ replies w1 = [{| error := - ENOENT; unique := 2; data := None |}])
  /\ 0 < ENOENT /\ 0 < EINVAL.
Proof.
  repeat apply conj; try (eexists; split; vm_compute; reflexivity);
    reflexivity.
Qed.

(** ** The further properties on the sessions *)

Lemma pair_session_lookup :
  handle_fuse_request 1 world_host (from_root 46 2) (FUSE_LOOKUP "world") 46
    hello_session
  = Ok pair_session.
Proof. vm_compute. reflexivity. Qed.

Lemma node_get_path_fits_witness :
  strlen "//data/media/hello" <= PATH_BUFFER_SIZE - 1.
Proof.
  apply (node_get_path_fits fresh_session 65536 (Some "hello"%string)).
  vm_compute. reflexivity.
Defined.

Lemma node_get_path_name_too_long_witness :
  node_get_path fresh_session 65536 (Some long_name) = Ok None.
Proof.
  apply node_get_path_name_too_long.
  vm_compute. split; [discriminate | reflexivity].
Defined.

Lemma child_path_extends_witness :
  exists p,
    node_get_path fresh_session 65536 None = Ok (Some p)
    /\ ("//data/media/hello"%string
        = String.append p
            (String "/" (normalize_name fresh_session (cstr "hello")))
        \/ ("//data/media/hello"%string = p
            /\ exists a n s,
                 nodes fresh_session !! a = Some n
                 /\ memcpy_src (name n) (s32 (namelen n)) = Ok s
                 /\ cstr s <> s)).
Proof.
  apply (child_path_extends fresh_session 65536 "hello").
  - vm_compute. reflexivity.
  - vm_compute. reflexivity.
Defined.

Lemma node_get_path_lower_case_witness :
  no_upper_case "//data/media/hello" = true.
Proof.
  apply (node_get_path_lower_case lower_session 65536 (Some "Hello"%string)).
  - reflexivity.
  - vm_compute. reflexivity.
Defined.

Lemma created_node_path_witness :
  exists w1,
    lookup_entry 1 hello_host 65536 "hello" 1 fresh_session = Ok w1
    /\ node_get_path w1 4096 None = Ok (Some "//data/media/hello"%string).
Proof.
  apply (created_node_path 1 hello_host 65536 "hello" 1 fresh_session
           (Some "//data/media/hello"%string) hello_stat root_node 4096).
  - vm_compute. reflexivity.
  - vm_compute. reflexivity.
  - vm_compute. reflexivity.
  - reflexivity.
  - vm_compute. reflexivity.
  - split; reflexivity.
  - split; [vm_compute; reflexivity | vm_compute; discriminate].
Defined.

Lemma lookup_child_finds_first_witness :
  lookup_child_by_name 2 pair_session 65536 "hello"
  = Ok (first_with (has_name pair_session "hello") [12288; 4096])
  /\ lookup_child_by_inode 2 pair_session 65536 4096
     = Ok (first_with (has_id pair_session 4096) [12288; 4096]).
Proof.
  apply (lookup_child_finds_first 2 pair_session 65536
           (adopt 12288 hello_root)).
  - vm_compute. reflexivity.
  - vm_compute. reflexivity.
  - vm_compute. reflexivity.
  - simpl. lia.
Defined.

Lemma remove_child_unlinks_witness :
  exists w' p',
    remove_child 2 65536 4096 pair_session = Ok (4096, w')
    /\ nodes w' !! 65536 = Some p'
    /\ p' = set_refcount (refcount (adopt 12288 hello_root) - 1)
              (set_child (child p') (adopt 12288 hello_root))
    /\ chain w' (child p') ([12288] ++ []) = true
    /\ nodes w' !! 4096 = Some (set_parent NULL (set_next NULL hello_node))
    /\ (forall q, last [12288] = Some q ->
          nodes w' !! q = set_next (next hello_node) <$> nodes pair_session !! q)
    /\ (forall q, q <> 65536 -> q <> 4096 -> last [12288] <> Some q ->
          nodes w' !! q = nodes pair_session !! q).
Proof.
  apply (remove_child_unlinks 2 pair_session 65536 4096 4096
           (adopt 12288 hello_root) hello_node [12288] []).
  - vm_compute. reflexivity.
  - vm_compute. reflexivity.
  - vm_compute. reflexivity.
  - vm_compute. reflexivity.
  - vm_compute. reflexivity.
  - reflexivity.
  - vm_compute. split; reflexivity.
  - simpl. lia.
Defined.

Lemma node_release_unlinks_witness :
  exists w' p',
    node_release 3 4096 pair_session = Ok w'
    /\ dispatch 3 bare_host (to_node 4096 48 3) 4096 (FUSE_FORGET 1)
         pair_session
       = Ok w'
    /\ nodes w' !! 4096 = None
    /\ nodes w' !! 65536 = Some p'
    /\ p' = set_refcount (refcount (adopt 12288 hello_root) - 1)
              (set_child (child p') (adopt 12288 hello_root))
    /\ chain w' (child p') ([12288] ++ []) = true
    /\ (forall q, last [12288] = Some q ->
          nodes w' !! q = set_next (next hello_node) <$> nodes pair_session !! q)
    /\ (forall q, q <> 65536 -> q <> 4096 -> last [12288] <> Some q ->
          nodes w' !! q = nodes pair_session !! q).
Proof.
  apply (node_release_unlinks 2 bare_host (to_node 4096 48 3) pair_session
           65536 4096
           (adopt 12288 hello_root) hello_node "hello" [12288] []).
  - vm_compute. reflexivity.
  - split; reflexivity.
  - split; [reflexivity | vm_compute; discriminate].
  - vm_compute. reflexivity.
  - vm_compute. reflexivity.
  - vm_compute. reflexivity.
  - vm_compute. split; reflexivity.
  - vm_compute. discriminate.
  - simpl. lia.
Defined.

Lemma rename_moves_node_witness :
  let newparent := lookup_by_inode hello_session FUSE_ROOT_ID in
  exists w',
    handle_rename 1 hello_host (from_root 60 2) 65536 FUSE_ROOT_ID
      "hello" "world" hello_session
    = Ok w'
    /\ nodes w'
       = <[newparent :=
             set_refcount
               (u32 (refcount (set_refcount 2 (set_child NULL hello_root))
                     + 1))
               (set_child 4096 (set_refcount 2 (set_child NULL hello_root)))]>
           (<[4096 :=
                moved_node (set_parent NULL (set_next NULL hello_node))
                  "world" newparent
                  (child (set_refcount 2 (set_child NULL hello_root)))]>
              (nodes unlinked_session))
    /\ replies w'
       = replies hello_session ++
         [{| error :=
               status_reply
                 (h_rename hello_host (Some "//data/media/hello"%string)
                    (Some "//data/media/world"%string));
             unique := hdr_unique (from_root 60 2); data := None |}].
Proof.
  apply (rename_moves_node 1 hello_host (from_root 60 2) 65536 FUSE_ROOT_ID
           "hello" "world" hello_session unlinked_session 4096 hello_node).
  - vm_compute. reflexivity.
  - split; [vm_compute; discriminate | vm_compute; reflexivity].
  - vm_compute. reflexivity.
  - split; vm_compute; discriminate.
  - vm_compute. reflexivity.
  - vm_compute. reflexivity.
  - split; vm_compute; reflexivity.
  - reflexivity.
Defined.

Lemma request_replies_witness :
  exists ms,
    replies hello_session = replies fresh_session ++ ms
    /\ Forall (fun m => unique m = hdr_unique (from_root 46 1)) ms
    /\ (if framed (from_root 46 1) 46
        then reply_count (FUSE_LOOKUP "hello") (length ms)
        else ms = []).
Proof.
  apply (request_replies 1 hello_host (from_root 46 1) (FUSE_LOOKUP "hello")
           46 fresh_session hello_session).
  - vm_compute. discriminate.
  - vm_compute. reflexivity.
Defined.

Lemma setattr_without_size_witness :
  dispatch 1 bare_host (from_root 128 5) 65536 (FUSE_SETATTR 0 0)
    fresh_session
  = dispatch 1 bare_host (from_root 128 5) 65536 FUSE_GETATTR fresh_session.
Proof. apply setattr_without_size. reflexivity. Defined.

Lemma getattr_hides_lstat_failure_witness :
  let reply := {| error := 0; unique := hdr_unique (from_root 56 4);
                  data := Some (attr_out 10 zero_attr) |} in
  (exists w1,
      dispatch 1 bare_host (from_root 56 4) 65536 FUSE_GETATTR fresh_session
      = Ok w1
      /\ replies w1 = replies fresh_session ++ [reply])
  /\ ((Z.land 0 FATTR_SIZE = 0
       \/ exists u,
            h_truncate bare_host (Some "//data/media"%string) 0 = SysOk u) ->
      exists w1,
        dispatch 1 bare_host (from_root 56 4) 65536 (FUSE_SETATTR 0 0)
          fresh_session
        = Ok w1
        /\ replies w1 = replies fresh_session ++ [reply]).
Proof.
  apply (getattr_hides_lstat_failure 1 bare_host (from_root 56 4) 65536 0 0
           fresh_session (Some "//data/media"%string) ENOENT).
  - vm_compute. reflexivity.
  - reflexivity.
Defined.

Lemma setattr_reports_last_errno_witness :
  exists w1,
    dispatch 1 (with_lstat (fun _ => SysErr EIO) bare_host) (from_root 128 5)
      65536 (FUSE_SETATTR 8 0) fresh_session
    = Ok w1
    /\ replies w1
       = replies fresh_session ++
         [{| error :=
               match h_lstat (with_lstat (fun _ => SysErr EIO) bare_host)
                       (Some "//data/media"%string) with
               | SysOk _ => - ENOENT
               | SysErr e' => - e'
               end;
             unique := hdr_unique (from_root 128 5); data := None |}].
Proof.
  apply (setattr_reports_last_errno 1
           (with_lstat (fun _ => SysErr EIO) bare_host) (from_root 128 5)
           65536 8 0 fresh_session (Some "//data/media"%string) ENOENT
           root_node).
  - vm_compute. discriminate.
  - vm_compute. reflexivity.
  - vm_compute. reflexivity.
  - reflexivity.
Defined.

Lemma create_ignores_permission_bits_witness :
  dispatch 1 bare_host (from_root 60 6) 65536 (FUSE_MKNOD 33279 0 "new")
    fresh_session
  = dispatch 1 bare_host (from_root 60 6) 65536 (FUSE_MKNOD 32768 0 "new")
      fresh_session
  /\ dispatch 1 bare_host (from_root 60 6) 65536 (FUSE_MKDIR 33279 "new")
       fresh_session
     = dispatch 1 bare_host (from_root 60 6) 65536 (FUSE_MKDIR 32768 "new")
         fresh_session
  /\ (forall path,
        node_get_path fresh_session 65536 (Some "new"%string) = Ok path ->
        exists mode,
          Z.land mode o0777 = o0664
          /\ Z.shiftr mode 9 = Z.shiftr (u32 33279) 9
          /\ dispatch 1 bare_host (from_root 60 6) 65536
               (FUSE_MKNOD 33279 0 "new") fresh_session
             = match h_mknod bare_host path mode 0 with
               | SysErr e =>
                   Ok (fuse_status bare_host (hdr_unique (from_root 60 6))
                         (- e) (set_errno e fresh_session))
               | SysOk _ =>
                   lookup_entry 1 bare_host 65536 "new"
                     (hdr_unique (from_root 60 6)) fresh_session
               end)
  /\ (forall path,
        node_get_path fresh_session 65536 (Some "new"%string) = Ok path ->
        exists mode,
          Z.land mode o0777 = o0775
          /\ Z.shiftr mode 9 = Z.shiftr (u32 33279) 9
          /\ dispatch 1 bare_host (from_root 60 6) 65536
               (FUSE_MKDIR 33279 "new") fresh_session
             = match h_mkdir bare_host path mode with
               | SysErr e =>
                   Ok (fuse_status bare_host (hdr_unique (from_root 60 6))
                         (- e) (set_errno e fresh_session))
               | SysOk _ =>
                   lookup_entry 1 bare_host 65536 "new"
                     (hdr_unique (from_root 60 6)) fresh_session
               end).
Proof. apply create_ignores_permission_bits. reflexivity. Defined.

Lemma open_release_round_trip_witness :
  exists w1 w2,
    dispatch 1 open_host (from_root 48 2) 65536 (FUSE_OPEN 0) fresh_session
    = Ok w1
    /\ replies w1
       = replies fresh_session ++
         [{| error := 0; unique := hdr_unique (from_root 48 2);
             data := Some (open_out (ptr_to_id (h_malloc open_host))
                             (Some 0)) |}]
    /\ handles w1 !! h_malloc open_host = Some 7
    /\ dispatch 1 bare_host (from_root 64 3) 65536
         (FUSE_RELEASE (ptr_to_id (h_malloc open_host))) w1
       = Ok w2
    /\ handles w2 = handles fresh_session
    /\ nodes w2 = nodes fresh_session
    /\ replies w2
       = replies w1 ++
         [{| error := 0; unique := hdr_unique (from_root 64 3);
             data := None |}].
Proof.
  apply (open_release_round_trip 1 open_host bare_host (from_root 48 2)
           (from_root 64 3) 65536 65536 0 7 fresh_session
           (Some "//data/media"%string)).
  - vm_compute. discriminate.
  - vm_compute. reflexivity.
  - vm_compute. reflexivity.
  - reflexivity.
Defined.

Lemma stale_node_id_is_dereferenced_witness :
  handle_fuse_request 1 bare_host (to_node 4096 56 7) FUSE_GETATTR 56
    fresh_session = Fault
  /\ handle_fuse_request 1 bare_host (to_node 4096 56 7) (FUSE_SETATTR 8 0)
       56 fresh_session = Fault
  /\ handle_fuse_request 1 bare_host (to_node 4096 56 7)
       (FUSE_LOOKUP "hello") 56 fresh_session = Fault
  /\ handle_fuse_request 1 bare_host (to_node 4096 56 7) (FUSE_FORGET 1) 56
       fresh_session = Fault.
Proof.
  apply (stale_node_id_is_dereferenced 0 bare_host (to_node 4096 56 7) 56
           fresh_session 8 0 "hello" 1).
  - reflexivity.
  - split; vm_compute; discriminate.
  - vm_compute. reflexivity.
  - vm_compute. reflexivity.
  - lia.
Defined.

Lemma forget_beyond_refcount_witness :
  dispatch 2 bare_host (to_node 4096 48 3) 4096 (FUSE_FORGET 2) hello_session
  = Fault.
Proof.
  apply (forget_beyond_refcount 1 bare_host (to_node 4096 48 3) hello_session
           65536 4096 hello_root hello_node "hello" [] []).
  - vm_compute. reflexivity.
  - split; [vm_compute; split; [discriminate | reflexivity] | reflexivity].
  - split; [reflexivity | vm_compute; discriminate].
  - vm_compute. reflexivity.
  - vm_compute. reflexivity.
  - vm_compute. reflexivity.
  - vm_compute. split; reflexivity.
  - vm_compute. discriminate.
  - simpl. lia.
  - vm_compute. reflexivity.
Defined.

Lemma lookup_failure_is_enoent_witness :
  exists w1,
    lookup_entry 1 (with_lstat (fun _ => SysErr EIO) bare_host) 65536 "hello"
      1 fresh_session
    = Ok w1
    /\ replies w1
       = replies fresh_session ++
         [{| error := - ENOENT; unique := 1; data := None |}]
    /\ nodes w1 = nodes fresh_session
    /\ next_node_id w1 = next_node_id fresh_session.
Proof.
  apply (lookup_failure_is_enoent 1 (with_lstat (fun _ => SysErr EIO) bare_host)
           65536 "hello" 1 fresh_session (Some "//data/media/hello"%string)
           EIO).
  - vm_compute. reflexivity.
  - reflexivity.
Defined.

Lemma lookup_out_of_memory_witness :
  exists w1,
    lookup_entry 1 no_memory_host 65536 "hello" 1 fresh_session = Ok w1
    /\ replies w1
       = replies fresh_session ++
         [{| error := - ENOENT; unique := 1; data := None |}]
    /\ nodes w1 = nodes fresh_session
    /\ next_node_id w1 = u64 (next_node_id fresh_session + 1)
    /\ next_generation w1 = u64 (next_generation fresh_session + 1).
Proof.
  apply (lookup_out_of_memory 1 no_memory_host 65536 "hello" 1 fresh_session
           (Some "//data/media/hello"%string) hello_stat).
  - vm_compute. reflexivity.
  - reflexivity.
  - vm_compute. reflexivity.
  - left. reflexivity.
Defined.

Lemma lookup_reply_shape_witness :
  exists m,
    replies hello_session = replies fresh_session ++ [m]
    /\ unique m = 1
    /\ ((error m = - ENOENT /\ data m = None)
        \/ (error m = 0
            /\ exists e np n,
                 data m = Some (entry_out e)
                 /\ np <> NULL /\ nodes hello_session !! np = Some n
                 /\ e_nodeid e = nid n /\ e_generation e = gen n
                 /\ attr_ino (e_attr e) = e_nodeid e
                 /\ attr_uid (e_attr e) = 0
                 /\ attr_gid (e_attr e) = AID_SDCARD_RW
                 /\ e_entry_valid e = 10 /\ e_attr_valid e = 10)).
Proof.
  apply (lookup_reply_shape 1 hello_host 65536 "hello" 1 fresh_session
           hello_session).
  vm_compute. reflexivity.
Defined.

Lemma created_child_found_witness :
  exists w1,
    lookup_entry 1 hello_host 65536 "hello" 1 fresh_session = Ok w1
    /\ lookup_child_by_name 2 w1 65536 "hello" = Ok 4096
    /\ (forall nm' r,
          nm' <> "hello"%string ->
          lookup_child_by_name 1 fresh_session 65536 nm' = Ok r ->
          lookup_child_by_name 2 w1 65536 nm' = Ok r)
    /\ (forall l,
          chain fresh_session (child root_node) l = true ->
          exists p1,
            nodes w1 !! 65536 = Some p1
            /\ chain w1 (child p1) (4096 :: l) = true
            /\ refcount p1 = u32 (refcount root_node + 1)).
Proof.
  apply (created_child_found 1 hello_host 65536 "hello" 1 fresh_session
           (Some "//data/media/hello"%string) hello_stat root_node 4096).
  - vm_compute. reflexivity.
  - vm_compute. reflexivity.
  - reflexivity.
  - vm_compute. reflexivity.
  - split; reflexivity.
  - split; [vm_compute; reflexivity | vm_compute; discriminate].
Defined.

Lemma fix_files_trace :
  recursive_fix_files 1015 1015 "/data/media" music fresh_session
  = Ok ([sys_opendir "/data/media";
         sys_chown "/data/media/Music" 1015 1015;
         sys_rename "/data/media/Music" "/data/media/Music";
         sys_opendir "/data/media/Music";
         sys_chown "/data/media/Music/Song.MP3" 1015 1015;
         sys_rename "/data/media/Music/Song.MP3" "/data/media/Music/Song.MP3";
         sys_closedir;
         sys_chown "/data/media/notes.txt" 1015 1015;
         sys_closedir],
        set_errno EIO fresh_session).
Proof. vm_compute. reflexivity. Qed.

Lemma fix_files_stays_in_buffers_witness :
  exists t w',
    recursive_fix_files 1015 1015 "/data/media" music fresh_session
    = Ok (t, w')
    /\ forallb call_fits t = true
    /\ but_errno fresh_session w'.
Proof.
  apply (proj2 (fix_files_stays_in_buffers music 1015 1015 "/data/media"
                  fresh_session)).
  - vm_compute. split; reflexivity.
  - reflexivity.
Defined.

Lemma fix_files_renames_witness :
  "/data/media/music"%string
  = normalize_name lower_session "/data/media/Music"
  /\ (force_lower_case lower_session = false ->
      "/data/media/music"%string = "/data/media/Music"%string)
  /\ (force_lower_case lower_session = true ->
      "/data/media/music"%string = lower "/data/media/Music").
Proof.
  eapply (fix_files_renames music 1015 1015 "/data/media" lower_session).
  - vm_compute. reflexivity.
  - repeat constructor.
Defined.

Lemma main_serves_hello :
  exists w',
    main 1 sample_boot ["-f"; "/data/media"; "1015"; "1015"]%string
      (process_start 65536 zero_node false)
    = Ok (exited 0,
          [sys_umount2; sys_open; sys_mount 3 1015 1015;
           sys_opendir "/data/media";
           sys_chown "/data/media/Music" 1015 1015;
           sys_rename "/data/media/Music" "/data/media/Music";
           sys_opendir "/data/media/Music";
           sys_chown "/data/media/Music/Song.MP3" 1015 1015;
           sys_rename "/data/media/Music/Song.MP3"
             "/data/media/Music/Song.MP3";
           sys_closedir;
           sys_chown "/data/media/notes.txt" 1015 1015;
           sys_closedir;
           sys_setgid 1015; sys_setuid 1015; sys_umask 0],
          w')
    /\ replies w' = replies hello_session.
Proof. eexists. split; vm_compute; reflexivity. Qed.

Lemma main_drops_privileges_witness :
  exists uid gid fd t0,
    0 < uid < 2 ^ 32 /\ 0 < gid < 2 ^ 32
    /\ (exists u, b_setgid sample_boot = SysOk u)
    /\ (exists u, b_setuid sample_boot = SysOk u)
    /\ [sys_umount2; sys_open; sys_mount 3 1015 1015;
        sys_setgid 1015; sys_setuid 1015; sys_umask 0]
       = [sys_umount2; sys_open; sys_mount fd (s32 uid) (s32 gid)]
         ++ t0 ++ [sys_setgid gid; sys_setuid uid; sys_umask 0]
    /\ forallb call_fits t0 = true.
Proof.
  eapply (main_drops_privileges 1 sample_boot
            ["/data/media"; "1015"; "1015"]%string
            (process_start 65536 zero_node false) (exited 0)).
  - vm_compute. reflexivity.
  - right. left. reflexivity.
Defined.

Lemma main_checks_ids_witness :
  let uid := u32 (b_strtoul sample_boot "0") in
  let gid := u32 (b_strtoul sample_boot "1015") in
  (uid = 0 \/ gid = 0 ->
   main 1 sample_boot ["/data/media"; "0"; "1015"]%string
     (process_start 65536 zero_node false)
   = Ok (exited usage, [], process_start 65536 zero_node false))
  /\ (uid <> 0 /\ gid <> 0 ->
      forall o t w',
        main 1 sample_boot ["/data/media"; "0"; "1015"]%string
          (process_start 65536 zero_node false)
        = Ok (o, t, w') ->
        exists t',
          t = sys_umount2 :: sys_open :: t'
          /\ forall fd a g, sys_mount fd a g ∈ t ->
               a = s32 uid /\ g = s32 gid).
Proof.
  apply (main_checks_ids 1 sample_boot "/data/media" "0" "1015"
           (process_start 65536 zero_node false)).
  - repeat split.
  - vm_compute. discriminate.
Defined.

Lemma main_accepts_missing_ids_witness :
  exists w',
    main 1 sample_boot ["/data/media"]%string
      (process_start 65536 zero_node false)
    = Ok (exited 0,
          [sys_umount2; sys_open; sys_mount 3 (-1) (-1);
           sys_setgid (2 ^ 32 - 1); sys_setuid (2 ^ 32 - 1); sys_umask 0],
          w').
Proof.
  eexists.
  refine (proj2 (main_accepts_missing_ids 1 sample_boot "/data/media"
                   (process_start 65536 zero_node false) 3
                   eq_refl eq_refl)
            tt tt tt _ Returned _ eq_refl eq_refl eq_refl _ _).
  - vm_compute. reflexivity.
  - vm_compute. reflexivity.
Defined.

Lemma main_mounts_for_nobody :
  exists w',
    main 1 sample_boot ["/data/media"]%string
      (process_start 65536 zero_node false)
    = Ok (exited 0,
          [sys_umount2; sys_open; sys_mount 3 (-1) (-1);
           sys_setgid 4294967295; sys_setuid 4294967295; sys_umask 0],
          w').
Proof. eexists. vm_compute. reflexivity. Qed.

Lemma fuse_init_without_memory_witness :
  (exists r,
      nodes (init_state zero_node bare_host 3 "/data/media"
               (process_start 65536 zero_node false))
      !! root (init_state zero_node bare_host 3 "/data/media"
                 (process_start 65536 zero_node false))
      = Some r
      /\ name r = None /\ namelen r = strlen "/data/media")
  /\ node_get_path
       (init_state zero_node bare_host 3 "/data/media"
          (process_start 65536 zero_node false))
       (root (init_state zero_node bare_host 3 "/data/media"
                (process_start 65536 zero_node false)))
       None
     = Fault
  /\ dispatch 1 bare_host (from_root 56 4)
       (root (init_state zero_node bare_host 3 "/data/media"
                (process_start 65536 zero_node false)))
       FUSE_GETATTR
       (init_state zero_node bare_host 3 "/data/media"
          (process_start 65536 zero_node false))
     = Fault.
Proof.
  apply (fuse_init_without_memory 1 bare_host bare_host 3 "/data/media"
           (process_start 65536 zero_node false)).
  - reflexivity.
  - vm_compute. reflexivity.
  - vm_compute. discriminate.
  - vm_compute. split; reflexivity.
Defined.

Lemma name_needs_normalizing_iff_witness :
  @name_needs_normalizing glibc_x86 latin1_name = true
  /\ (forall w,
        @name_needs_normalizing glibc_x86 (normalize_name w latin1_name)
        = true)
  /\ lower (cstr latin1_name) = cstr latin1_name
  /\ @name_needs_normalizing bionic_x86 latin1_name = false
  /\ @name_needs_normalizing bionic_arm latin1_name = false.
Proof.
  pose proof (@name_needs_normalizing_iff glibc_x86 latin1_name)
    as (_ & _ & G).
  pose proof (@name_needs_normalizing_iff bionic_x86 latin1_name)
    as (_ & B & _).
  pose proof (@name_needs_normalizing_iff bionic_arm latin1_name)
    as (_ & A & _).
  destruct G as (G1 & G2);
    [reflexivity | intros x R; cbn; lia | reflexivity |].
  destruct B as (B1 & _); [right; right; reflexivity |].
  destruct A as (A1 & _); [left; reflexivity |].
  split; [exact G1 |]. split; [exact G2 |]. split; [reflexivity |].
  split; [apply B1 | apply A1]; reflexivity.
Defined.
